(** * pycorr: the pair-counter base engine and the analytic counter

    A shallow embedding of [pycorr/pair_counter.py].

    Conventions of the embedding:
    - a Python [int] is a [Z];
    - a finite float64 is an exact rational [Q]; rounding is not modelled,
      so every float operation is the exact one.  Results that numpy makes
      non-finite ([nan], [inf]) are the single value [NonFin] of [f8];
    - a one-dimensional numpy array is a list, a two-dimensional one a list
      of rows;
    - a method that can raise returns in the error monad [res]; the object
      [self] is the record [counter], passed and returned explicitly. *)

From Stdlib Require Import ZArith QArith Qabs List String Ascii Bool Lia Lqa.
Import ListNotations.
Local Open Scope string_scope.
Local Open Scope Z_scope.

Set Implicit Arguments.

(** ** Exceptions and the error monad *)

Inductive exn : Type :=
| PairCounterError (msg : string)
| IndexError
| TypeError
| ValueError
| AttributeError
| ZeroDivisionError.

Definition res (A : Type) : Type := (exn + A)%type.

Definition ok {A : Type} (a : A) : res A := inr a.
Definition raise {A : Type} (e : exn) : res A := inl e.

Definition bind {A B : Type} (m : res A) (k : A -> res B) : res B :=
  match m with
  | inl e => inl e
  | inr a => k a
  end.

Notation "x <- m ;; k" := (bind m (fun x => k))
  (at level 61, m at next level, right associativity).
Notation "m ;;; k" := (bind m (fun _ => k))
  (at level 61, right associativity).

Definition is_ok {A : Type} (m : res A) : bool :=
  match m with inr _ => true | inl _ => false end.

Definition is_PairCounterError {A : Type} (m : res A) : bool :=
  match m with inl (PairCounterError _) => true | _ => false end.

(** ** Floats *)

Inductive f8 : Type :=
| Fin (q : Q)
| NonFin.

Definition f8_lift2 (op : Q -> Q -> Q) (a b : f8) : f8 :=
  match a, b with
  | Fin x, Fin y => Fin (op x y)
  | _, _ => NonFin
  end.

Definition f8_add : f8 -> f8 -> f8 := f8_lift2 Qplus.
Definition f8_sub : f8 -> f8 -> f8 := f8_lift2 Qminus.
Definition f8_mul : f8 -> f8 -> f8 := f8_lift2 Qmult.

(** float division: a zero divisor gives [inf] or [nan], never an exception
    on arrays. *)
Definition f8_div (a b : f8) : f8 :=
  match a, b with
  | Fin x, Fin y => if Qeq_bool y 0 then NonFin else Fin (x / y)
  | _, _ => NonFin
  end.

(** Two floats denote the same value. *)
Definition f8_eq (a b : f8) : Prop :=
  match a, b with
  | Fin x, Fin y => (x == y)%Q
  | NonFin, NonFin => True
  | _, _ => False
  end.

Definition f8_eqb (a b : f8) : bool :=
  match a, b with
  | Fin x, Fin y => Qeq_bool x y
  | NonFin, NonFin => true
  | _, _ => false
  end.

(** [ndarray.prod()] *)
Definition f8_prod (l : list f8) : f8 := fold_left f8_mul l (Fin 1).

(** [np.pi], the float64 nearest to pi: 884279719003555 / 2^48. *)
Definition np_pi : Q := (884279719003555 # 281474976710656)%Q.

(** ** Arrays *)

Inductive ndarray : Type :=
| Arr1 (v : list f8)
| Arr2 (m : list (list f8)).

Definition vec_eq (a b : list f8) : Prop := Forall2 f8_eq a b.
Definition mat_eq (a b : list (list f8)) : Prop := Forall2 vec_eq a b.

Definition nd_eq (a b : ndarray) : Prop :=
  match a, b with
  | Arr1 x, Arr1 y => vec_eq x y
  | Arr2 x, Arr2 y => mat_eq x y
  | _, _ => False
  end.

(** Python's [a[i]] on a sequence, for a non-negative index. *)
Definition getitem {A : Type} (l : list A) (i : nat) : res A :=
  match nth_error l i with
  | Some a => ok a
  | None => raise IndexError
  end.

(** Python's [a[-1]]. *)
Definition getlast {A : Type} (l : list A) : res A :=
  match rev l with
  | a :: _ => ok a
  | [] => raise IndexError
  end.

(** Python's [len]. *)
Definition len {A : Type} (l : list A) : Z := Z.of_nat (List.length l).

(** [a[1:]] and [a[:-1]] *)
Definition drop_first {A : Type} (l : list A) : list A := tl l.
Definition drop_last {A : Type} (l : list A) : list A := removelast l.

(** Element-wise binary operation on two arrays of the same length. *)
Fixpoint map2 {A B C : Type} (f : A -> B -> C) (a : list A) (b : list B) : list C :=
  match a, b with
  | x :: a', y :: b' => f x y :: map2 f a' b'
  | _, _ => []
  end.

(** [np.diff(v, axis=0)] on a one-dimensional array: [v[1:] - v[:-1]]. *)
Definition np_diff (v : list f8) : list f8 :=
  map2 f8_sub (drop_first v) (drop_last v).

(** [np.diff(m, axis=0)] on rows, and [np.diff(m, axis=-1)] inside each row. *)
Definition np_diff_rows (m : list (list f8)) : list (list f8) :=
  map2 (map2 f8_sub) (drop_first m) (drop_last m).
Definition np_diff_cols (m : list (list f8)) : list (list f8) :=
  map np_diff m.

Definition sumQ (l : list Q) : Q := fold_right Qplus 0%Q l.

(** ** Strings *)

Definition lower_ascii (c : ascii) : ascii :=
  let n := nat_of_ascii c in
  if (Nat.leb 65 n && Nat.leb n 90)%bool then ascii_of_nat (n + 32) else c.

(** [str.lower()] on ASCII text. *)
Fixpoint lower (s : string) : string :=
  match s with
  | EmptyString => EmptyString
  | String c s' => String (lower_ascii c) (lower s')
  end.

Definition str_in (s : string) (l : list string) : bool :=
  existsb (String.eqb s) l.

Definition optstr_eqb (a b : option string) : bool :=
  match a, b with
  | None, None => true
  | Some x, Some y => String.eqb x y
  | _, _ => false
  end.

Definition optstr_in (s : option string) (l : list (option string)) : bool :=
  existsb (optstr_eqb s) l.

(** ** numpy helpers used by the counters *)

(** [np.linspace(start, stop, num)]: [num] evenly spaced samples, the last one
    set to [stop] itself. *)
Definition np_linspace (start stop : Q) (num : nat) : list Q :=
  let div := (Z.of_nat num - 1)%Z in
  let step := ((stop - start) / inject_Z div)%Q in
  let y := map (fun i => (inject_Z (Z.of_nat i) * step + start)%Q) (seq 0 num) in
  if (1 <? num)%nat then removelast y ++ [stop] else y.

Definition rtol : Q := (1 # 100000)%Q.
Definition atol : Q := (1 # 100000000)%Q.

(** one element of [np.isclose(a, b)]: |a - b| <= atol + rtol * |b| *)
Definition isclose (a b : Q) : bool :=
  Qle_bool (Qabs (a - b)) (atol + rtol * Qabs b).

(** [np.allclose(a, b)] for two arrays of the same length. *)
Definition np_allclose (a b : list Q) : bool :=
  forallb (fun x => x) (map2 isclose a b).

(** ** The counter object *)

(** A position array: its element type and its values. *)
Record parray : Type := { p_dtype : string; p_data : list Q }.

(** What the caller can pass as [boxsize], and what the attribute can hold:
    a number, a tuple (or list) of numbers, or a numpy array. *)
Inductive boxval : Type :=
| BoxNum (x : Q)
| BoxTuple (t : list Q)
| BoxArray (a : list f8).

(** What [normalization] returns: an [int] when it counts objects, a float
    when it sums weights. *)
Inductive pynum : Type :=
| PyInt (z : Z)
| PyFloat (x : Q).

(** The [edges] argument: one array given directly, or a tuple of arrays. *)
Inductive edges_arg : Type :=
| EdgesArray (a : list Q)
| EdgesTuple (t : list (list Q)).

Record counter : Type := {
  mode : string;
  nthreads : option Z;
  positions1 : list parray;
  positions2 : list (option parray);
  autocorr : bool;
  weights1 : option (list Q);
  weights2 : option (list Q);
  weight_type : option string;
  edges : list (list Q);
  bin_type : string;
  los : string;
  boxsize : option boxval;
  output_sepavg : bool;
  wcounts : ndarray;
  sep : ndarray;
  norm : option pynum;
  n1 : Z;
  n2 : option Z
}.

(** The object before any attribute is assigned. *)
Definition blank : counter :=
  {| mode := ""; nthreads := None; positions1 := []; positions2 := [];
     autocorr := false; weights1 := None; weights2 := None;
     weight_type := None; edges := []; bin_type := ""; los := "";
     boxsize := None; output_sepavg := true; wcounts := Arr1 [];
     sep := Arr1 []; norm := None; n1 := 0; n2 := None |}.

(** Attribute assignment [self.x = v]. *)
Definition set_mode (v : string) (c : counter) : counter :=
  Build_counter v (nthreads c) (positions1 c) (positions2 c) (autocorr c) (weights1 c) (weights2 c) (weight_type c) (edges c) (bin_type c) (los c) (boxsize c) (output_sepavg c) (wcounts c) (sep c) (norm c) (n1 c) (n2 c).
Definition set_nthreads (v : option Z) (c : counter) : counter :=
  Build_counter (mode c) v (positions1 c) (positions2 c) (autocorr c) (weights1 c) (weights2 c) (weight_type c) (edges c) (bin_type c) (los c) (boxsize c) (output_sepavg c) (wcounts c) (sep c) (norm c) (n1 c) (n2 c).
Definition set_positions1 (v : list parray) (c : counter) : counter :=
  Build_counter (mode c) (nthreads c) v (positions2 c) (autocorr c) (weights1 c) (weights2 c) (weight_type c) (edges c) (bin_type c) (los c) (boxsize c) (output_sepavg c) (wcounts c) (sep c) (norm c) (n1 c) (n2 c).
Definition set_positions2 (v : list (option parray)) (c : counter) : counter :=
  Build_counter (mode c) (nthreads c) (positions1 c) v (autocorr c) (weights1 c) (weights2 c) (weight_type c) (edges c) (bin_type c) (los c) (boxsize c) (output_sepavg c) (wcounts c) (sep c) (norm c) (n1 c) (n2 c).
Definition set_autocorr (v : bool) (c : counter) : counter :=
  Build_counter (mode c) (nthreads c) (positions1 c) (positions2 c) v (weights1 c) (weights2 c) (weight_type c) (edges c) (bin_type c) (los c) (boxsize c) (output_sepavg c) (wcounts c) (sep c) (norm c) (n1 c) (n2 c).
Definition set_weights1 (v : option (list Q)) (c : counter) : counter :=
  Build_counter (mode c) (nthreads c) (positions1 c) (positions2 c) (autocorr c) v (weights2 c) (weight_type c) (edges c) (bin_type c) (los c) (boxsize c) (output_sepavg c) (wcounts c) (sep c) (norm c) (n1 c) (n2 c).
Definition set_weights2 (v : option (list Q)) (c : counter) : counter :=
  Build_counter (mode c) (nthreads c) (positions1 c) (positions2 c) (autocorr c) (weights1 c) v (weight_type c) (edges c) (bin_type c) (los c) (boxsize c) (output_sepavg c) (wcounts c) (sep c) (norm c) (n1 c) (n2 c).
Definition set_weight_type (v : option string) (c : counter) : counter :=
  Build_counter (mode c) (nthreads c) (positions1 c) (positions2 c) (autocorr c) (weights1 c) (weights2 c) v (edges c) (bin_type c) (los c) (boxsize c) (output_sepavg c) (wcounts c) (sep c) (norm c) (n1 c) (n2 c).
Definition set_edges (v : list (list Q)) (c : counter) : counter :=
  Build_counter (mode c) (nthreads c) (positions1 c) (positions2 c) (autocorr c) (weights1 c) (weights2 c) (weight_type c) v (bin_type c) (los c) (boxsize c) (output_sepavg c) (wcounts c) (sep c) (norm c) (n1 c) (n2 c).
Definition set_bin_type (v : string) (c : counter) : counter :=
  Build_counter (mode c) (nthreads c) (positions1 c) (positions2 c) (autocorr c) (weights1 c) (weights2 c) (weight_type c) (edges c) v (los c) (boxsize c) (output_sepavg c) (wcounts c) (sep c) (norm c) (n1 c) (n2 c).
Definition set_los (v : string) (c : counter) : counter :=
  Build_counter (mode c) (nthreads c) (positions1 c) (positions2 c) (autocorr c) (weights1 c) (weights2 c) (weight_type c) (edges c) (bin_type c) v (boxsize c) (output_sepavg c) (wcounts c) (sep c) (norm c) (n1 c) (n2 c).
Definition set_boxsize (v : option boxval) (c : counter) : counter :=
  Build_counter (mode c) (nthreads c) (positions1 c) (positions2 c) (autocorr c) (weights1 c) (weights2 c) (weight_type c) (edges c) (bin_type c) (los c) v (output_sepavg c) (wcounts c) (sep c) (norm c) (n1 c) (n2 c).
Definition set_output_sepavg (v : bool) (c : counter) : counter :=
  Build_counter (mode c) (nthreads c) (positions1 c) (positions2 c) (autocorr c) (weights1 c) (weights2 c) (weight_type c) (edges c) (bin_type c) (los c) (boxsize c) v (wcounts c) (sep c) (norm c) (n1 c) (n2 c).
Definition set_wcounts (v : ndarray) (c : counter) : counter :=
  Build_counter (mode c) (nthreads c) (positions1 c) (positions2 c) (autocorr c) (weights1 c) (weights2 c) (weight_type c) (edges c) (bin_type c) (los c) (boxsize c) (output_sepavg c) v (sep c) (norm c) (n1 c) (n2 c).
Definition set_sep (v : ndarray) (c : counter) : counter :=
  Build_counter (mode c) (nthreads c) (positions1 c) (positions2 c) (autocorr c) (weights1 c) (weights2 c) (weight_type c) (edges c) (bin_type c) (los c) (boxsize c) (output_sepavg c) (wcounts c) v (norm c) (n1 c) (n2 c).
Definition set_norm (v : option pynum) (c : counter) : counter :=
  Build_counter (mode c) (nthreads c) (positions1 c) (positions2 c) (autocorr c) (weights1 c) (weights2 c) (weight_type c) (edges c) (bin_type c) (los c) (boxsize c) (output_sepavg c) (wcounts c) (sep c) v (n1 c) (n2 c).
Definition set_n1 (v : Z) (c : counter) : counter :=
  Build_counter (mode c) (nthreads c) (positions1 c) (positions2 c) (autocorr c) (weights1 c) (weights2 c) (weight_type c) (edges c) (bin_type c) (los c) (boxsize c) (output_sepavg c) (wcounts c) (sep c) (norm c) v (n2 c).
Definition set_n2 (v : option Z) (c : counter) : counter :=
  Build_counter (mode c) (nthreads c) (positions1 c) (positions2 c) (autocorr c) (weights1 c) (weights2 c) (weight_type c) (edges c) (bin_type c) (los c) (boxsize c) (output_sepavg c) (wcounts c) (sep c) (norm c) (n1 c) v.

(** ** numpy assignment and arithmetic with broadcasting *)

(** Broadcast a one-dimensional array to length [n]: it must have that length
    already, or exactly one element. *)
Definition broadcast_to (n : nat) (l : list f8) : res (list f8) :=
  if (List.length l =? n)%nat then ok l
  else match l with
       | [x] => ok (repeat x n)
       | _ => raise ValueError
       end.

(** [a = np.empty(3, dtype='f8'); a[:] = v].  numpy stores [None] into a float
    array as [nan]. *)
Definition fill3 (v : option boxval) : res (list f8) :=
  match v with
  | None => ok [NonFin; NonFin; NonFin]
  | Some (BoxNum x) => ok [Fin x; Fin x; Fin x]
  | Some (BoxTuple t) => broadcast_to 3 (map Fin t)
  | Some (BoxArray a) => broadcast_to 3 a
  end.

(** [a = np.empty((r, c), dtype='f8'); a[...] = src] for a one-dimensional
    [src]: numpy aligns [src] with the LAST axis, so every row of [a] becomes
    [src] (broadcast to the row length). *)
Definition assign_rows (r c : nat) (src : list f8) : res (list (list f8)) :=
  row <- broadcast_to c src ;;
  ok (repeat row r).

(** [np.empty(shape)] refuses a negative dimension. *)
Definition dim_of (z : Z) : res nat :=
  if z <? 0 then raise ValueError else ok (Z.to_nat z).

(** Element-wise operation on two one-dimensional arrays, with broadcasting. *)
Definition vec_op (op : f8 -> f8 -> f8) (a b : list f8) : res (list f8) :=
  if (List.length a =? List.length b)%nat then ok (map2 op a b)
  else match a, b with
       | [x], _ => ok (map (op x) b)
       | _, [y] => ok (map (fun x => op x y) a)
       | _, _ => raise ValueError
       end.

Fixpoint sequence {A : Type} (l : list (res A)) : res (list A) :=
  match l with
  | [] => ok []
  | m :: l' => a <- m ;; r <- sequence l' ;; ok (a :: r)
  end.

Definition mat_op (op : f8 -> f8 -> f8) (a b : list (list f8)) : res (list (list f8)) :=
  if (List.length a =? List.length b)%nat then sequence (map2 (vec_op op) a b)
  else match a, b with
       | [x], _ => sequence (map (vec_op op x) b)
       | _, [y] => sequence (map (fun x => vec_op op x y) a)
       | _, _ => raise ValueError
       end.

(** Element-wise operation on two arrays; a one-dimensional array against a
    two-dimensional one acts as a single row. *)
Definition nd_op (op : f8 -> f8 -> f8) (a b : ndarray) : res ndarray :=
  match a, b with
  | Arr1 x, Arr1 y => r <- vec_op op x y ;; ok (Arr1 r)
  | Arr1 x, Arr2 y => r <- mat_op op [x] y ;; ok (Arr2 r)
  | Arr2 x, Arr1 y => r <- mat_op op x [y] ;; ok (Arr2 r)
  | Arr2 x, Arr2 y => r <- mat_op op x y ;; ok (Arr2 r)
  end.

(** [np.sum(a)] over all entries. *)
Definition vec_sum (v : list f8) : f8 := fold_right f8_add (Fin 0) v.
Definition nd_sum (a : ndarray) : f8 :=
  match a with
  | Arr1 v => vec_sum v
  | Arr2 m => vec_sum (map vec_sum m)
  end.

(** ** The process environment *)

(** [os.environ], with a log of the names looked up through [os.getenv]. *)
Record os_state : Type := {
  environ : string -> option string;
  getenv_calls : list string
}.

(** [os.getenv(key, default)] *)
Definition os_getenv (key default : string) (os : os_state) : string * os_state :=
  (match environ os key with Some v => v | None => default end,
   {| environ := environ os; getenv_calls := getenv_calls os ++ [key] |}).

(** The double quote character, for messages that contain it. *)
Definition dq : string := String (ascii_of_nat 34) EmptyString.

Definition is_some {A : Type} (o : option A) : bool :=
  match o with Some _ => true | None => false end.

(** ** class BaseTwoPointCounterEngine *)

Module BaseTwoPointCounterEngine.

(** The [factor] argument of [rebin]: one integer or a tuple of integers. *)
Inductive factor_arg : Type :=
| FactorInt (f : Z)
| FactorTuple (t : list Z).

(** The arguments of the constructor. *)
Record init_args : Type := {
  a_mode : string;
  a_edges : edges_arg;
  a_positions1 : list parray;
  a_positions2 : option (list parray);
  a_weights1 : option (list Q);
  a_weights2 : option (list Q);
  a_bin_type : string;
  a_position_type : string;
  a_weight_type : option string;
  a_los : string;
  a_boxsize : option boxval;
  a_output_sepavg : bool;
  a_nthreads : option Z
}.

(** The constructor called with its defaults. *)
Definition default_args (mode' : string) (edges' : edges_arg)
    (positions1' : list parray) : init_args :=
  {| a_mode := mode'; a_edges := edges'; a_positions1 := positions1';
     a_positions2 := None; a_weights1 := None; a_weights2 := None;
     a_bin_type := "auto"; a_position_type := "auto";
     a_weight_type := Some "auto"; a_los := "midpoint"; a_boxsize := None;
     a_output_sepavg := true; a_nthreads := None |}.

(** *** Properties *)

Definition shape (self : counter) : list Z :=
  map (fun e => len e - 1) (edges self).

Definition ndim (self : counter) : Z := len (edges self).

Definition periodic (self : counter) : bool :=
  match boxsize self with
  | None => true
  | Some _ => false
  end.

(** *** Binning *)

Definition _set_bin_type (bin_type' : string) (self : counter) : res counter :=
  let self := set_bin_type (lower bin_type') self in
  if negb (str_in (bin_type self) ["lin"; "custom"; "auto"]) then
    raise (PairCounterError "bin type should be one of ['lin', 'custom', 'auto']")
  else if String.eqb (bin_type self) "auto" then
    edges0 <- getitem (edges self) 0 ;;
    first <- getitem edges0 0 ;;
    last <- getlast edges0 ;;
    if np_allclose edges0 (np_linspace first last (List.length edges0))
    then ok (set_bin_type "lin" self)
    else ok self
  else ok self.

Definition _set_edges (edges' : edges_arg) (bin_type' : string)
    (self : counter) : res counter :=
  t <- match edges' with
       | EdgesArray a => getitem a 0 ;;; ok [a]
       | EdgesTuple t => getitem t 0 ;;; ok t
       end ;;
  let self := set_edges t self in
  (if str_in (mode self) ["smu"; "rppi"] then
     if negb (ndim self =? 2) then
       raise (PairCounterError
         ("A tuple of edges should be provided to pair counter in mode " ++ mode self))
     else ok tt
   else
     if negb (ndim self =? 1) then
       raise (PairCounterError
         ("Only one edge array should be provided to pair counter in mode " ++ mode self))
     else ok tt) ;;;
  _set_bin_type bin_type' self.

(** *** Line of sight, box, weights *)

Definition _set_los (los' : string) (self : counter) : res counter :=
  let self := set_los los' self in
  if negb (str_in (los self) ["midpoint"; "endpoint"; "firstpoint"; "x"; "y"; "z"]) then
    raise (PairCounterError
      "los should be one of ['midpoint', 'endpoint', 'firstpoint', 'x', 'y', 'z']")
  else ok self.

Definition _set_boxsize (boxsize' : option boxval) (self : counter) : res counter :=
  let self := set_boxsize boxsize' self in
  if periodic self then
    a <- fill3 boxsize' ;;
    ok (set_boxsize (Some (BoxArray a)) self)
  else ok self.

Definition _set_weight_type (weight_type' : option string) (self : counter)
    : res counter :=
  let self := set_weight_type weight_type' self in
  if negb (optstr_in (weight_type self) [None; Some "auto"; Some "pair_product"]) then
    raise (PairCounterError
      "weight_type should be one of [None, 'auto', 'pair_product']")
  else ok self.

Definition check_weights (weights : option (list Q)) (size : Z) : res unit :=
  match weights with
  | None => raise TypeError
  | Some w =>
      if negb (len w =? size) then
        raise (PairCounterError
          "Weight array should be of the same length as position arrays")
      else ok tt
  end.

(** [len(positions[0])] for a list of position arrays, some possibly [None]. *)
Definition size_of1 (positions : list parray) : res Z :=
  p <- getitem positions 0 ;; ok (len (p_data p)).

Definition size_of2 (positions : list (option parray)) : res Z :=
  p <- getitem positions 0 ;;
  match p with
  | Some p => ok (len (p_data p))
  | None => raise TypeError
  end.

Definition _set_weights (weights1' weights2' : option (list Q))
    (weight_type' : option string) (self : counter) : res counter :=
  self <- _set_weight_type weight_type' self ;;
  (if autocorr self then
     if is_some weights2' then
       raise (PairCounterError "weights2 are provided, but not positions2")
     else ok tt
   else ok tt) ;;;
  (match weights1' with
   | None =>
       if is_some weights2' then
         raise (PairCounterError "weights2 are provided, but not weights1")
       else ok tt
   | Some _ =>
       if autocorr self then
         if is_some weights2' then
           raise (PairCounterError "weights2 are provided, but not positions2")
         else ok tt
       else
         if negb (is_some weights2') then
           raise (PairCounterError "weights1 are provided, but not weights2")
         else ok tt
   end) ;;;
  let self :=
    if optstr_eqb (weight_type self) (Some "auto") then
      match weights1' with
      | None => set_weight_type None self
      | Some _ => set_weight_type (Some "pair_product") self
      end
    else self in
  match weight_type self with
  | None => ok (set_weights2 None (set_weights1 None self))
  | Some _ =>
      let self := set_weights1 weights1' self in
      size1 <- size_of1 (positions1 self) ;;
      check_weights (weights1 self) size1 ;;;
      let self := set_weights2 weights2' self in
      if negb (autocorr self) then
        size2 <- size_of2 (positions2 self) ;;
        check_weights (weights2 self) size2 ;;;
        ok self
      else ok self
  end.

(** *** Default separation *)

Definition _set_default_sep (self : counter) : res counter :=
  edges0 <- getitem (edges self) 0 ;;
  let sep' := map2 (fun a b => ((a + b) / 2)%Q) (drop_first edges0) (drop_last edges0) in
  if ndim self =? 2 then
    s0 <- getitem (shape self) 0 ;;
    s1 <- getitem (shape self) 1 ;;
    r <- dim_of s0 ;;
    c <- dim_of s1 ;;
    m <- assign_rows r c (map Fin sep') ;;
    ok (set_sep (Arr2 m) self)
  else ok (set_sep (Arr1 (map Fin sep')) self).

(** *** Normalization *)

Definition normalization (self : counter) : res pynum :=
  match weight_type self with
  | None =>
      if autocorr self then
        n <- size_of1 (positions1 self) ;;
        ok (PyInt (n * (n - 1)))
      else
        n <- size_of1 (positions1 self) ;;
        m <- size_of2 (positions2 self) ;;
        ok (PyInt (n * m))
  | Some _ =>
      if autocorr self then
        match weights1 self with
        | None => raise AttributeError
        | Some w1 => ok (PyFloat (sumQ w1 ^ 2 - sumQ (map (fun w => w ^ 2) w1))%Q)
        end
      else
        match weights1 self, weights2 self with
        | Some w1, Some w2 => ok (PyFloat (sumQ w1 * sumQ w2)%Q)
        | _, _ => raise AttributeError
        end
  end.

Definition f8_of_pynum (n : pynum) : f8 :=
  match n with
  | PyInt z => Fin (inject_Z z)
  | PyFloat x => Fin x
  end.

Definition nd_map (f : f8 -> f8) (a : ndarray) : ndarray :=
  match a with
  | Arr1 v => Arr1 (map f v)
  | Arr2 m => Arr2 (map (map f) m)
  end.

Definition normalized_wcounts (self : counter) : res ndarray :=
  match norm self with
  | None => raise AttributeError
  | Some n => ok (nd_map (fun w => f8_div w (f8_of_pynum n)) (wcounts self))
  end.

(** *** What the class takes from outside this file *)

Section Engine.

(** [utils.cartesian_to_sky] and [utils.sky_to_cartesian]. *)
Variable cartesian_to_sky : list parray -> res (list parray).
Variable sky_to_cartesian : list parray -> res (list parray).

(** [utils.rebin(array, statistic=np.sum)], as [rebin] calls it: the array and
    the statistic, and nothing else. *)
Variable utils_rebin : ndarray -> res ndarray.

(** Python's [int] on a string. *)
Variable py_int : string -> res Z.

(** The method [run] of the engine, which subclasses define. *)
Variable run : counter -> res counter.

(** *** Positions *)

(** The loop of [check_positions] over [positions[1:]]. *)
Fixpoint check_same (size : Z) (dtype : string) (ps : list parray) : res unit :=
  match ps with
  | [] => ok tt
  | p :: ps' =>
      if negb (len (p_data p) =? size) then
        raise (PairCounterError "All position arrays should be of the same size")
      else if negb (String.eqb (p_dtype p) dtype) then
        raise (PairCounterError "All position arrays should be of the same type")
      else check_same size dtype ps'
  end.

Definition check_positions (self : counter) (position_type : string)
    (positions : list parray) : res (list parray) :=
  positions <-
    (if String.eqb (mode self) "theta" then
       positions <-
         (if String.eqb position_type "xyz" then
            p <- cartesian_to_sky positions ;; ok (drop_first p)
          else if String.eqb position_type "rdz" then ok (firstn 2 positions)
          else if negb (String.eqb position_type "rd") then
            raise (PairCounterError
              ("For mode = " ++ mode self ++ ", position type should be one of ["
               ++ dq ++ "xyz" ++ dq ++ ", " ++ dq ++ "rdz" ++ dq ++ ", "
               ++ dq ++ "rd" ++ dq ++ "]"))
          else ok positions) ;;
       if negb (len positions =? 2) then
         raise (PairCounterError
           ("For mode = " ++ mode self ++ ", please provide a list of 2 arrays for positions"))
       else ok positions
     else
       positions <-
         (if String.eqb position_type "rdd" then sky_to_cartesian positions
          else if negb (String.eqb position_type "xyz") then
            raise (PairCounterError
              ("For mode = " ++ mode self ++ ", position type should be one of ["
               ++ dq ++ "xyz" ++ dq ++ ", " ++ dq ++ "rdd" ++ dq ++ "]"))
          else ok positions) ;;
       if negb (len positions =? 3) then
         raise (PairCounterError
           ("For mode = " ++ mode self ++ ", please provide a list of 3 arrays for positions"))
       else ok positions) ;;
  p0 <- getitem positions 0 ;;
  check_same (len (p_data p0)) (p_dtype p0) (drop_first positions) ;;;
  ok positions.

Definition _set_positions (positions1' : list parray)
    (positions2' : option (list parray)) (position_type : string)
    (self : counter) : res counter :=
  let position_type := lower position_type in
  let position_type :=
    if String.eqb position_type "auto" then
      if String.eqb (mode self) "theta" then "rd" else "xyz"
    else position_type in
  let self := set_positions1 positions1' self in
  p1 <- check_positions self position_type (positions1 self) ;;
  let self := set_positions1 p1 self in
  let self := set_autocorr (negb (is_some positions2')) self in
  match positions2' with
  | None => ok (set_positions2 (repeat None (List.length (positions1 self))) self)
  | Some p2 =>
      let self := set_positions2 (map Some p2) self in
      p2 <- check_positions self position_type p2 ;;
      ok (set_positions2 (map Some p2) self)
  end.

(** *** Rebinning *)

(** [tuple(s//f for s, f in zip(shape, factor))] *)
Fixpoint floordiv_zip (s f : list Z) : res (list Z) :=
  match s, f with
  | x :: s', y :: f' =>
      if y =? 0 then raise ZeroDivisionError
      else r <- floordiv_zip s' f' ;; ok (x / y :: r)
  | _, _ => ok []
  end.

Definition rebin (factor : factor_arg) (self : counter) : res counter :=
  let factor := match factor with FactorInt f => [f] | FactorTuple t => t end in
  if negb (len factor =? ndim self) then
    raise (PairCounterError "Provide a rebinning factor for each dimension")
  else
    new_shape <- floordiv_zip (shape self) factor ;;
    w <- utils_rebin (wcounts self) ;;
    let self := set_wcounts w self in
    sw <- nd_op f8_mul (sep self) (wcounts self) ;;
    r <- utils_rebin sw ;;
    s <- nd_op f8_div r (wcounts self) ;;
    ok (set_sep s self).


(** *** Construction *)

Definition __init__ (a : init_args) (os : os_state) : res counter * os_state :=
  let self := set_mode (a_mode a) blank in
  let self := set_nthreads (a_nthreads a) self in
  let '(started, os) :=
    match a_nthreads a with
    | None =>
        let '(s, os') := os_getenv "OMP_NUM_THREADS" "1" os in
        (n <- py_int s ;; ok (set_nthreads (Some n) self), os')
    | Some _ => (ok self, os)
    end in
  (self <- started ;;
   self <- _set_positions (a_positions1 a) (a_positions2 a) (a_position_type a) self ;;
   self <- _set_weights (a_weights1 a) (a_weights2 a) (a_weight_type a) self ;;
   self <- _set_edges (a_edges a) (a_bin_type a) self ;;
   self <- _set_los (a_los a) self ;;
   self <- _set_boxsize (a_boxsize a) self ;;
   let self := set_output_sepavg (a_output_sepavg a) self in
   self <- run self ;;
   self <- (if negb (output_sepavg self) then _set_default_sep self else ok self) ;;
   n <- normalization self ;;
   ok (set_norm (Some n) self),
   os).

End Engine.

End BaseTwoPointCounterEngine.

(** ** class AnalyticTwoPointCounter(BaseTwoPointCounterEngine) *)

Module AnalyticTwoPointCounter.

Import BaseTwoPointCounterEngine.

(** ['xyz'.index(los)]: the position of [los] as a substring of ['xyz']. *)
Definition index_xyz (los' : string) : res nat :=
  if str_in los' [""; "x"; "xy"; "xyz"] then ok 0%nat
  else if str_in los' ["y"; "yz"] then ok 1%nat
  else if String.eqb los' "z" then ok 2%nat
  else raise ValueError.

(** [self.boxsize[i]] *)
Definition boxsize_item (b : option boxval) (i : nat) : res f8 :=
  match b with
  | Some (BoxTuple t) => x <- getitem t i ;; ok (Fin x)
  | Some (BoxArray a) => getitem a i
  | Some (BoxNum _) => raise TypeError
  | None => raise TypeError
  end.

(** [self.boxsize.prod()]: only a numpy array has the method. *)
Definition boxsize_prod (b : option boxval) : res f8 :=
  match b with
  | Some (BoxArray a) => ok (f8_prod a)
  | _ => raise AttributeError
  end.

Definition normalization (self : counter) : res Z :=
  if autocorr self then ok (n1 self * (n1 self - 1))
  else match n2 self with
       | Some m => ok (n1 self * m)
       | None => raise TypeError
       end.

(** [normalization * dv / volume], entry by entry. *)
Definition scale (n : Z) (volume : f8) (d : f8) : f8 :=
  f8_div (f8_mul (Fin (inject_Z n)) d) volume.

Definition run (self : counter) : res counter :=
  dv <-
    (if String.eqb (mode self) "s" then
       e0 <- getitem (edges self) 0 ;;
       let v := map (fun e => Fin (4 / 3 * np_pi * e ^ 3)%Q) e0 in
       ok (Arr1 (np_diff v))
     else if String.eqb (mode self) "smu" then
       e0 <- getitem (edges self) 0 ;;
       e1 <- getitem (edges self) 1 ;;
       let v := map (fun e => map (fun m => Fin (4 / 3 * np_pi * e ^ 3 * m)%Q) e1) e0 in
       ok (Arr2 (np_diff_cols (np_diff_rows v)))
     else if String.eqb (mode self) "rppi" then
       e0 <- getitem (edges self) 0 ;;
       e1 <- getitem (edges self) 1 ;;
       let v := map (fun e => map (fun p => Fin (2 * np_pi * e ^ 2 * p)%Q) e1) e0 in
       ok (Arr2 (np_diff_cols (np_diff_rows v)))
     else if String.eqb (mode self) "rp" then
       e0 <- getitem (edges self) 0 ;;
       i <- index_xyz (los self) ;;
       b <- boxsize_item (boxsize self) i ;;
       let v := map (fun e => [f8_mul (Fin (np_pi * e ^ 2)%Q) b]) e0 in
       ok (Arr2 (np_diff_rows v))
     else
       raise (PairCounterError
         ("No analytic randoms provided for mode " ++ mode self))) ;;
  n <- normalization self ;;
  volume <- boxsize_prod (boxsize self) ;;
  ok (set_wcounts (nd_map (scale n volume) dv) self).

Definition __init__ (mode' : string) (edges' : edges_arg)
    (boxsize' : option boxval) (n1' : Z) (n2' : option Z) (los' : string)
    : res counter :=
  let self := set_mode mode' blank in
  self <- _set_edges edges' "auto" self ;;
  self <- _set_boxsize boxsize' self ;;
  self <- _set_los los' self ;;
  let self := set_n1 n1' self in
  let self := set_n2 n2' self in
  let self := set_autocorr (negb (is_some n2')) self in
  self <- run self ;;
  _set_default_sep self.

End AnalyticTwoPointCounter.

(** ** Vocabulary of the statements *)

(** How many edge arrays the [edges] argument holds. *)
Definition narrays (e : edges_arg) : Z :=
  match e with
  | EdgesArray _ => 1
  | EdgesTuple t => len t
  end.

(** The argument has a first item, so that [edges[0]] is defined. *)
Definition has_first (e : edges_arg) : Prop :=
  match e with
  | EdgesArray a => a <> []
  | EdgesTuple t => t <> []
  end.

(** The number of edge arrays a mode asks for. *)
Definition required_ndim (mode' : string) : Z :=
  if str_in mode' ["smu"; "rppi"] then 2 else 1.

(** Every entry of [a] is within the combined tolerance of the entry of [b]
    at the same place. *)
Definition within_tolerance (a b : list Q) : Prop :=
  Forall2 (fun x y => (Qabs (x - y) <= atol + rtol * Qabs y)%Q) a b.

(** Volume of the full sphere of radius [r]. *)
Definition sphere_volume (r : Q) : Q := (4 / 3 * np_pi * r ^ 3)%Q.

(** Midpoints of consecutive edges. *)
Definition midpoints (e : list Q) : list Q :=
  map2 (fun hi lo => ((lo + hi) / 2)%Q) (drop_first e) (drop_last e).

(** Modes with a closed form for the random pair counts. *)
Definition analytic_modes : list string := ["s"; "smu"; "rppi"; "rp"].

(** A reader of plain decimal text, one instance of Python's [int] on such
    text: an optional sign, then digits. *)
Definition digit_of (c : ascii) : option Z :=
  let n := nat_of_ascii c in
  if (Nat.leb 48 n && Nat.leb n 57)%bool then Some (Z.of_nat (n - 48)) else None.

Fixpoint read_digits (acc : Z) (s : string) : res Z :=
  match s with
  | EmptyString => ok acc
  | String c s' =>
      match digit_of c with
      | Some d => read_digits (10 * acc + d) s'
      | None => raise ValueError
      end
  end.

Definition read_decimal (s : string) : res Z :=
  match s with
  | EmptyString => raise ValueError
  | String "-" (String c s') => n <- read_digits 0 (String c s') ;; ok (- n)
  | String "+" (String c s') => read_digits 0 (String c s')
  | String "-" EmptyString => raise ValueError
  | String "+" EmptyString => raise ValueError
  | _ => read_digits 0 s
  end.

(** [np.logspace(-4, 0, 40)]: the powers 10^(-4 + 4k/39) for k = 0..39, each
    written to twelve significant digits. *)
Definition logspace_m4_0_40 : list Q :=
  [
   (100000000000 # 1000000000000000); (126638017347 # 1000000000000000);
   (160371874375 # 1000000000000000); (203091762090 # 1000000000000000);
   (257191380906 # 1000000000000000); (325702065566 # 1000000000000000);
   (412462638290 # 1000000000000000); (522334507427 # 1000000000000000);
   (661474064123 # 1000000000000000); (837677640068 # 1000000000000000);
   (106081835514 # 100000000000000); (134339933260 # 100000000000000);
   (170125427985 # 100000000000000); (215443469003 # 100000000000000);
   (272833337649 # 100000000000000); (345510729459 # 100000000000000);
   (437547937507 # 100000000000000); (554102033001 # 100000000000000);
   (701703828670 # 100000000000000); (888623816274 # 100000000000000);
   (112533558260 # 10000000000000); (142510267030 # 10000000000000);
   (180472176683 # 10000000000000); (228546386413 # 10000000000000);
   (289426612472 # 10000000000000); (366524123708 # 10000000000000);
   (464158883361 # 10000000000000); (587801607227 # 10000000000000);
   (744380301325 # 10000000000000); (942668455118 # 10000000000000);
   (119377664171 # 1000000000000); (151177507062 # 1000000000000);
   (191448197617 # 1000000000000); (242446201708 # 1000000000000);
   (307029062976 # 1000000000000); (388815518031 # 1000000000000);
   (492388263171 # 1000000000000); (623550734127 # 1000000000000);
   (789652286850 # 1000000000000); (100000000000 # 100000000000)
  ]%Q.

(** [e] agrees with [r], entry by entry, to relative error [eps]. *)
Definition approximates (eps : Q) (e r : list Q) : Prop :=
  Forall2 (fun x y => (Qabs (x - y) <= eps * Qabs y)%Q) e r.

(** The contract of an engine's [run]: it assigns [wcounts] and [sep], and no
    other attribute. *)
Definition assigns_counts_only (run : counter -> res counter) : Prop :=
  forall s s', run s = ok s' -> s' = set_sep (sep s') (set_wcounts (wcounts s') s).

(** The text [int] is applied to when [nthreads] is not given. *)
Definition omp_num_threads (os : os_state) : string :=
  match environ os "OMP_NUM_THREADS" with
  | Some v => v
  | None => "1"
  end.

(** Weights are given for exactly one of the two catalogs. *)
Definition one_sided (w1 w2 : option (list Q)) : Prop :=
  (w1 = None /\ w2 <> None) \/ (w1 <> None /\ w2 = None).

(** The messages of the checks on which catalogs come with weights. *)
Definition presence_errors : list string :=
  ["weights2 are provided, but not positions2";
   "weights2 are provided, but not weights1";
   "weights1 are provided, but not weights2"].

(** ** Helpers of tests/test_twopoint_jackknife.py *)

Module test_twopoint_jackknife.

(** A Python [dict] from names to numbers or [None], in insertion order. *)
Definition pydict : Type := list (string * option Q).

(** [d.get(key)]: [None] when the key is missing, else [Some] of the value
    (itself possibly Python's [None]). *)
Fixpoint dict_get (d : pydict) (key : string) : option (option Q) :=
  match d with
  | [] => None
  | (k, v) :: d' => if String.eqb k key then Some v else dict_get d' key
  end.

(** [d[key] = v] *)
Fixpoint dict_set (d : pydict) (key : string) (v : option Q) : pydict :=
  match d with
  | [] => [(key, v)]
  | (k, x) :: d' =>
      if String.eqb k key then (k, v) :: d' else (k, x) :: dict_set d' key v
  end.

(** [key in d] *)
Definition dict_mem (d : pydict) (key : string) : bool := is_some (dict_get d key).

Definition setdefaultnone (di : pydict) (key : string) (value : option Q) : pydict :=
  match dict_get di key with
  | Some (Some _) => di
  | _ => dict_set di key value
  end.

(** The three defaults the test puts into [weight_attrs], and the flag
    [set_default_value] taken between the second and the third. *)
Definition weight_attrs_defaults (weight_attrs : pydict) (n_bitwise_weights : Z)
    : pydict * bool :=
  let weight_attrs :=
    setdefaultnone weight_attrs "nrealizations"
      (Some (inject_Z (n_bitwise_weights * 64 + 1))) in
  let weight_attrs := setdefaultnone weight_attrs "noffset" (Some 1%Q) in
  let set_default_value := dict_mem weight_attrs "default_value" in
  let weight_attrs := setdefaultnone weight_attrs "default_value" (Some 0%Q) in
  (weight_attrs, set_default_value).

Section Wiip.

(** [utils.popcount] on the bit weight arrays: for every object, the number
    of bits set in its words. *)
Variable popcount : list (list Z) -> list Z.

(** [wiip], with the three entries of [weight_attrs] it reads. *)
Definition wiip (noffset nrealizations : Z) (default_value : Q)
    (weights : list (list Z)) : list f8 :=
  let denom := map (fun p => noffset + p) (popcount weights) in
  let mask := map (fun d => d =? 0) denom in
  let denom := map2 (fun d (m : bool) => if m then 1 else d) denom mask in
  let toret :=
    map (fun d => f8_div (Fin (inject_Z nrealizations)) (Fin (inject_Z d))) denom in
  map2 (fun t (m : bool) => if m then Fin default_value else t) toret mask.

End Wiip.

End test_twopoint_jackknife.

(** ** Further vocabulary *)

(** The sum of [w_i * w_j] over the ordered pairs of two different objects:
    the first object against each later one, in both orders, and the pairs
    among the later ones. *)
Fixpoint sum_distinct_pairs (w : list Q) : Q :=
  match w with
  | [] => 0
  | x :: w' =>
      (sumQ (map (fun y => x * y + y * x) w') + sum_distinct_pairs w')%Q
  end.

(** The sum of [a_i * b_j] over all pairs of an object of each catalog. *)
Definition sum_all_pairs (a b : list Q) : Q :=
  sumQ (map (fun x => sumQ (map (fun y => x * y) b)) a)%Q.

(** The [n] evenly spaced values a, a + d, a + 2 d, ... *)
Definition arith (a d : Q) (n : nat) : list Q :=
  map (fun i => (a + inject_Z (Z.of_nat i) * d)%Q) (seq 0 n).

(** All arrays have [size] entries of element type [dtype]. *)
Definition uniform (size : Z) (dtype : string) (ps : list parray) : Prop :=
  Forall (fun p => len (p_data p) = size /\ p_dtype p = dtype) ps.

(** The number of position arrays a mode works with. *)
Definition ncomponents (mode' : string) : Z :=
  if String.eqb mode' "theta" then 2 else 3.

(** Every entry of the array is not a number. *)
Definition all_nonfinite (a : ndarray) : Prop :=
  match a with
  | Arr1 v => Forall (fun x => x = NonFin) v
  | Arr2 m => Forall (Forall (fun x => x = NonFin)) m
  end.

(** Area of the disc of radius [r]. *)
Definition disc_area (r : Q) : Q := (np_pi * r ^ 2)%Q.

(** Apply [f] along the last axis of an array. *)
Definition nd_map_rows (f : list f8 -> list f8) (a : ndarray) : ndarray :=
  match a with
  | Arr1 v => Arr1 (f v)
  | Arr2 m => Arr2 (map f m)
  end.


(** A helper of that kind: adjacent bins summed two by two along the last
    axis (a last bin without neighbour is kept). *)
Fixpoint sum_pairs (v : list f8) : list f8 :=
  match v with
  | x :: y :: v' => f8_add x y :: sum_pairs v'
  | _ => v
  end.

Definition merge_pairs (a : ndarray) : res ndarray :=
  ok (nd_map_rows sum_pairs a).

(** * Properties *)

Import BaseTwoPointCounterEngine.

(** ** Frame facts: which attributes a method leaves alone *)

Lemma bind_ok {A B : Type} (m : res A) (k : A -> res B) (b : B) :
  bind m k = ok b -> exists a, m = ok a /\ k a = ok b.
Proof.
  destruct m as [e | a]; simpl; intros H.
  - discriminate H.
  - exists a; split; [reflexivity | exact H].
Qed.

Lemma getitem_0_cons {A : Type} (x : A) (l : list A) : getitem (x :: l) 0 = ok x.
Proof. reflexivity. Qed.

Lemma getitem_0_ok {A : Type} (l : list A) (x : A) :
  getitem l 0 = ok x -> exists l', l = x :: l'.
Proof.
  destruct l as [| y l']; unfold getitem; simpl; intros H.
  - discriminate H.
  - injection H as ->. now exists l'.
Qed.

Lemma getlast_total {A : Type} (x : A) (l : list A) :
  exists y, getlast (x :: l) = ok y.
Proof.
  unfold getlast. destruct (rev (x :: l)) as [| y r] eqn:E.
  - apply (f_equal (@List.length A)) in E. rewrite length_rev in E. discriminate E.
  - now exists y.
Qed.

Lemma set_bin_type_frame (bt : string) (self c : counter) :
  _set_bin_type bt self = ok c ->
  c = set_bin_type (bin_type c) self.
Proof.
  unfold _set_bin_type.
  destruct (negb (str_in _ _)); [discriminate |].
  destruct (String.eqb _ "auto").
  - intros H.
    apply bind_ok in H as (e0 & _ & H).
    apply bind_ok in H as (first & _ & H).
    apply bind_ok in H as (last & _ & H).
    destruct (np_allclose _ _); injection H as <-; reflexivity.
  - intros H; injection H as <-; reflexivity.
Qed.

Lemma set_edges_frame (e : edges_arg) (bt : string) (self c : counter) :
  _set_edges e bt self = ok c ->
  exists t, c = set_bin_type (bin_type c) (set_edges t self)
            /\ len t = required_ndim (mode self)
            /\ len t = narrays e.
Proof.
  unfold _set_edges. intros H.
  apply bind_ok in H as (t & Ht & H).
  apply bind_ok in H as ([] & Hdim & H).
  apply set_bin_type_frame in H.
  exists t. split; [exact H |].
  assert (Hn : len t = narrays e).
  { destruct e as [a | t']; apply bind_ok in Ht as (x & _ & Ht);
      injection Ht as <-; reflexivity. }
  split; [| exact Hn].
  unfold required_ndim, ndim in *.
  change (mode (set_edges t self)) with (mode self) in Hdim.
  change (edges (set_edges t self)) with t in Hdim.
  destruct (str_in (mode self) _).
  - destruct (len t =? 2) eqn:E; [now apply Z.eqb_eq | discriminate Hdim].
  - destruct (len t =? 1) eqn:E; [now apply Z.eqb_eq | discriminate Hdim].
Qed.

(** ** Box geometry and the periodic flag *)

Lemma set_boxsize_total (b : option boxval) (self : counter) :
  _set_boxsize b self =
    ok (set_boxsize match b with
                    | Some v => Some v
                    | None => Some (BoxArray [NonFin; NonFin; NonFin])
                    end self).
Proof. destruct b; reflexivity. Qed.

(** C1. What [_set_boxsize] does with a box that is given: the value is
    stored as the caller passed it, without being broadcast to three side
    lengths, and [periodic] answers [False] for the resulting counter.  With
    no box the attribute becomes an array of three [nan] and [periodic]
    answers [False] as well, so no counter is ever periodic. *)
Theorem set_boxsize_never_periodic (b : option boxval) (self : counter) :
  exists c, _set_boxsize b self = ok c
    /\ periodic c = false
    /\ boxsize c = match b with
                   | Some v => Some v
                   | None => Some (BoxArray [NonFin; NonFin; NonFin])
                   end.
Proof.
  eexists. split; [apply set_boxsize_total |].
  destruct b; split; reflexivity.
Qed.

(** The box side [1000.0] stays the number it was and the counter is not
    periodic. *)
Example set_boxsize_scalar_box :
  _set_boxsize (Some (BoxNum 1000)) blank = ok (set_boxsize (Some (BoxNum 1000)) blank)
  /\ periodic (set_boxsize (Some (BoxNum 1000)) blank) = false.
Proof. split; reflexivity. Qed.

(** ** Number of edge arrays *)

Lemma set_edges_mismatch (e : edges_arg) (bt : string) (self : counter) :
  has_first e ->
  narrays e <> required_ndim (mode self) ->
  exists msg, _set_edges e bt self = raise (PairCounterError msg).
Proof.
  intros Hfirst Hn. unfold _set_edges.
  assert (Ht : exists t,
    match e with
    | EdgesArray a => getitem a 0 ;;; ok [a]
    | EdgesTuple t => getitem t 0 ;;; ok t
    end = ok t /\ len t = narrays e).
  { destruct e as [[| x a] | [| x t]]; simpl in Hfirst; try congruence;
      eexists; split; reflexivity. }
  destruct Ht as (t & -> & Hlen). cbn [bind ok].
  unfold required_ndim, ndim in *.
  change (mode (set_edges t self)) with (mode self).
  change (edges (set_edges t self)) with t.
  rewrite Hlen.
  destruct (str_in (mode self) _).
  - destruct (narrays e =? 2) eqn:E; [apply Z.eqb_eq in E; contradiction |].
    eexists; reflexivity.
  - destruct (narrays e =? 1) eqn:E; [apply Z.eqb_eq in E; contradiction |].
    eexists; reflexivity.
Qed.

(** C5. [_set_edges] accepts exactly 2 edge arrays in modes smu and rppi and
    exactly 1 in every other mode: a counter it returns has that many, as many
    as the argument held; and an argument with a first item and any other
    number of arrays is refused with [PairCounterError]. *)
Theorem set_edges_dimension (e : edges_arg) (bt : string) (self : counter) :
  (forall c, _set_edges e bt self = ok c ->
     ndim c = required_ndim (mode self) /\ ndim c = narrays e
     /\ mode c = mode self)
  /\ (has_first e -> narrays e <> required_ndim (mode self) ->
      is_PairCounterError (_set_edges e bt self) = true).
Proof.
  split.
  - intros c H. apply set_edges_frame in H as (t & -> & Hreq & Hn).
    unfold ndim. cbn. auto.
  - intros Hfirst Hn.
    destruct (set_edges_mismatch e bt self Hfirst Hn) as (msg & ->).
    reflexivity.
Qed.

Lemma set_edges_dimension_witness :
  (exists c, _set_edges (EdgesArray [1; 2; 3]%Q) "auto" (set_mode "s" blank) = ok c
             /\ ndim c = 1 /\ mode c = "s")
  /\ (exists c, _set_edges (EdgesTuple [[1; 2; 3]; [0; 1]]%Q) "auto"
                  (set_mode "rppi" blank) = ok c
                /\ ndim c = 2 /\ mode c = "rppi")
  /\ is_PairCounterError
       (_set_edges (EdgesArray [1; 2; 3]%Q) "auto" (set_mode "smu" blank)) = true
  /\ is_PairCounterError
       (_set_edges (EdgesTuple [[1; 2; 3]; [0; 1]]%Q) "auto" (set_mode "s" blank)) = true.
Proof.
  assert (H1 : exists c, _set_edges (EdgesArray [1; 2; 3]%Q) "auto"
                           (set_mode "s" blank) = ok c)
    by (eexists; vm_compute; reflexivity).
  assert (H2 : exists c, _set_edges (EdgesTuple [[1; 2; 3]; [0; 1]]%Q) "auto"
                           (set_mode "rppi" blank) = ok c)
    by (eexists; vm_compute; reflexivity).
  destruct H1 as (c1 & Hc1). destruct H2 as (c2 & Hc2).
  split; [| split; [| split]].
  - exists c1. split; [exact Hc1 |].
    destruct (proj1 (set_edges_dimension (EdgesArray [1; 2; 3]%Q) "auto"
                       (set_mode "s" blank)) c1 Hc1) as (Hn & _ & Hm).
    split; [exact Hn | exact Hm].
  - exists c2. split; [exact Hc2 |].
    destruct (proj1 (set_edges_dimension (EdgesTuple [[1; 2; 3]; [0; 1]]%Q) "auto"
                       (set_mode "rppi" blank)) c2 Hc2) as (Hn & _ & Hm).
    split; [exact Hn | exact Hm].
  - apply (proj2 (set_edges_dimension (EdgesArray [1; 2; 3]%Q) "auto"
                    (set_mode "smu" blank)));
      [discriminate | vm_compute; discriminate].
  - apply (proj2 (set_edges_dimension (EdgesTuple [[1; 2; 3]; [0; 1]]%Q) "auto"
                    (set_mode "s" blank)));
      [discriminate | vm_compute; discriminate].
Defined.

(** An empty tuple of edges holds 0 arrays, which no mode accepts, and is not
    refused with [PairCounterError]: [np.ndim(edges[0])] raises [IndexError]
    before the number of arrays is looked at, in [_set_edges] and so in the
    analytic constructor, which calls it first. *)
Lemma set_edges_empty_is_index_error :
  narrays (EdgesTuple []) <> required_ndim "s"
  /\ _set_edges (EdgesTuple []) "auto" (set_mode "s" blank) = raise IndexError
  /\ is_PairCounterError (_set_edges (EdgesTuple []) "auto" (set_mode "s" blank))
     = false
  /\ AnalyticTwoPointCounter.__init__ "s" (EdgesTuple [])
       (Some (BoxArray [Fin 10; Fin 10; Fin 10])) 10 None "z" = raise IndexError.
Proof.
  split; [vm_compute; discriminate |].
  split; [reflexivity |]. split; reflexivity.
Qed.

(** ** Analytic counter: modes without a closed form *)

Lemma str_in_false_neq (s x : string) (l : list string) :
  str_in s l = false -> In x l -> String.eqb s x = false.
Proof.
  unfold str_in. intros H Hin.
  destruct (String.eqb s x) eqn:E; [| reflexivity].
  rewrite <- H. symmetry. apply existsb_exists. now exists x.
Qed.

Lemma analytic_run_no_closed_form (self : counter) :
  str_in (mode self) analytic_modes = false ->
  AnalyticTwoPointCounter.run self =
    raise (PairCounterError ("No analytic randoms provided for mode " ++ mode self)).
Proof.
  intros H. unfold AnalyticTwoPointCounter.run.
  rewrite (str_in_false_neq _ "s" _ H) by (simpl; auto).
  rewrite (str_in_false_neq _ "smu" _ H) by (simpl; auto).
  rewrite (str_in_false_neq _ "rppi" _ H) by (simpl; auto).
  rewrite (str_in_false_neq _ "rp" _ H) by (simpl; auto).
  reflexivity.
Qed.

Lemma set_los_frame (l : string) (self c : counter) :
  _set_los l self = ok c -> c = set_los l self.
Proof.
  unfold _set_los. destruct (negb _); [discriminate |].
  intros H; now injection H as <-.
Qed.

Lemma set_boxsize_frame (b : option boxval) (self c : counter) :
  _set_boxsize b self = ok c -> c = set_boxsize (boxsize c) self.
Proof.
  unfold _set_boxsize. destruct b as [v |]; cbn; intros H; now injection H as <-.
Qed.

(** C7. In a mode other than s, smu, rppi and rp (theta among them) the
    analytic [run] raises [PairCounterError] with the message that no analytic
    randoms are provided for that mode; and the constructor never returns a
    counter in such a mode: once the edges and the line of sight are accepted
    it fails with exactly that error. *)
Theorem analytic_unsupported_mode (mode' : string) :
  str_in mode' analytic_modes = false ->
  (forall self, mode self = mode' ->
     AnalyticTwoPointCounter.run self =
       raise (PairCounterError ("No analytic randoms provided for mode " ++ mode')))
  /\ (forall e b n1' n2' los',
        is_ok (AnalyticTwoPointCounter.__init__ mode' e b n1' n2' los') = false)
  /\ (forall e b n1' n2' los' c c',
        _set_edges e "auto" (set_mode mode' blank) = ok c ->
        _set_los los' c = ok c' ->
        AnalyticTwoPointCounter.__init__ mode' e b n1' n2' los' =
          raise (PairCounterError ("No analytic randoms provided for mode " ++ mode'))).
Proof.
  intros Hmode.
  assert (Hinit : forall e b n1' n2' los',
    AnalyticTwoPointCounter.__init__ mode' e b n1' n2' los' =
      (self <- _set_edges e "auto" (set_mode mode' blank) ;;
       self <- _set_boxsize b self ;;
       self <- _set_los los' self ;;
       raise (PairCounterError ("No analytic randoms provided for mode " ++ mode')))).
  { intros. unfold AnalyticTwoPointCounter.__init__.
    destruct (_set_edges e "auto" (set_mode mode' blank)) as [x | c1] eqn:E1;
      [reflexivity |].
    cbn [bind].
    destruct (_set_boxsize b c1) as [x | c2] eqn:E2; [reflexivity |].
    cbn [bind].
    destruct (_set_los los' c2) as [x | c3] eqn:E3; [reflexivity |].
    cbn [bind].
    apply set_edges_frame in E1 as (t & E1 & _).
    apply set_boxsize_frame in E2. apply set_los_frame in E3.
    rewrite analytic_run_no_closed_form.
    - cbn [bind raise].
      rewrite E3, E2, E1. reflexivity.
    - rewrite E3, E2, E1. exact Hmode. }
  split; [| split].
  - intros self <-. now apply analytic_run_no_closed_form.
  - intros. rewrite Hinit.
    destruct (_set_edges _ _ _); [reflexivity |]. cbn [bind].
    destruct (_set_boxsize _ _); [reflexivity |]. cbn [bind].
    destruct (_set_los _ _); reflexivity.
  - intros e b n1' n2' los' c c' He Hl. rewrite Hinit, He. cbn [bind].
    cbn [bind ok]. rewrite set_boxsize_total. cbn [bind ok].
    unfold _set_los in *.
    match goal with |- context [set_los los' ?c2] =>
      change (los (set_los los' c2)) with los' end.
    change (los (set_los los' c)) with los' in Hl.
    destruct (negb _); [discriminate Hl | reflexivity].
Qed.

Lemma analytic_unsupported_mode_witness :
  str_in "theta" analytic_modes = false
  /\ AnalyticTwoPointCounter.run (set_mode "theta" blank) =
       raise (PairCounterError "No analytic randoms provided for mode theta")
  /\ AnalyticTwoPointCounter.__init__ "theta" (EdgesArray [1; 2; 3]%Q)
       (Some (BoxArray [Fin 10; Fin 10; Fin 10]%Q)) 10 None "z" =
     raise (PairCounterError "No analytic randoms provided for mode theta").
Proof.
  destruct (analytic_unsupported_mode "theta" eq_refl) as (Hrun & _ & Hinit).
  split; [reflexivity | split].
  - apply Hrun. reflexivity.
  - eapply Hinit; reflexivity.
Defined.

(** ** Bin type detection *)

Lemma length_map2 {A B C : Type} (f : A -> B -> C) (a : list A) (b : list B) :
  List.length a = List.length b -> List.length (map2 f a b) = List.length a.
Proof.
  revert b. induction a as [| x a IH]; intros [| y b] H; simpl in *; try congruence.
  f_equal. apply IH. congruence.
Qed.

Lemma length_linspace (a b : Q) (n : nat) : List.length (np_linspace a b n) = n.
Proof.
  unfold np_linspace.
  set (y := map _ (seq 0 n)).
  assert (Hy : List.length y = n) by (unfold y; now rewrite length_map, length_seq).
  destruct (1 <? n)%nat eqn:E; [| exact Hy].
  apply Nat.ltb_lt in E.
  rewrite length_app, removelast_firstn_len, length_firstn. simpl. lia.
Qed.

Lemma isclose_iff (x y : Q) :
  isclose x y = true <-> (Qabs (x - y) <= atol + rtol * Qabs y)%Q.
Proof. unfold isclose. apply Qle_bool_iff. Qed.

Lemma allclose_iff (a b : list Q) :
  List.length a = List.length b ->
  np_allclose a b = true <-> within_tolerance a b.
Proof.
  unfold np_allclose, within_tolerance.
  revert b. induction a as [| x a IH]; intros [| y b] H; simpl in H; try discriminate H.
  - simpl. split; [constructor | reflexivity].
  - simpl. rewrite andb_true_iff, isclose_iff, IH by congruence.
    split.
    + intros [H1 H2]. now constructor.
    + intros H'. inversion H'; subst. now split.
Qed.

Lemma auto_bin_type_general (self : counter) (e0 : list Q) (rest : list (list Q))
    (first last : Q) :
  edges self = e0 :: rest ->
  getitem e0 0 = ok first ->
  getlast e0 = ok last ->
  _set_bin_type "auto" self =
    ok (set_bin_type
          (if np_allclose e0 (np_linspace first last (List.length e0))
           then "lin" else "auto") self).
Proof.
  intros He Hf Hl. unfold _set_bin_type.
  change (bin_type (set_bin_type (lower "auto") self)) with "auto".
  change (edges (set_bin_type (lower "auto") self)) with (edges self).
  rewrite He. cbn [negb str_in existsb String.eqb Ascii.eqb Bool.eqb orb].
  rewrite getitem_0_cons. cbn [bind ok]. rewrite Hf. cbn [bind ok].
  rewrite Hl. cbn [bind ok].
  destruct (np_allclose _ _); reflexivity.
Qed.

(** The second sample of a [linspace] of three or more points. *)
Lemma within_tolerance_second (x0 x1 : Q) (xs : list Q) (a b : Q) (n : nat) :
  within_tolerance (x0 :: x1 :: xs) (np_linspace a b (S (S (S n)))) ->
  (Qabs (x1 - (1 * ((b - a) / inject_Z (Z.of_nat (S (S (S n))) - 1)) + a))
   <= atol + rtol * Qabs (1 * ((b - a) / inject_Z (Z.of_nat (S (S (S n))) - 1)) + a))%Q.
Proof.
  unfold within_tolerance, np_linspace.
  replace (1 <? S (S (S n)))%nat with true by reflexivity.
  cbn [seq map removelast app].
  intros H. inversion H as [| ? ? ? ? _ H']; subst.
  destruct (map _ (seq 3 n)); cbn [app] in H';
    inversion H' as [| ? ? ? ? H1 _]; subst; exact H1.
Qed.

Lemma approximates_logspace_shape (eps : Q) (e : list Q) :
  approximates eps e logspace_m4_0_40 ->
  exists x0 x1 mid x39,
    e = x0 :: x1 :: mid ++ [x39] /\ List.length mid = 37%nat
    /\ (Qabs (x0 - (1 # 10000)) <= eps * (1 # 10000))%Q
    /\ (Qabs (x1 - (126638017347 # 1000000000000000))
        <= eps * (126638017347 # 1000000000000000))%Q
    /\ (Qabs (x39 - 1) <= eps * 1)%Q.
Proof.
  unfold approximates, logspace_m4_0_40. intros H.
  repeat match goal with
         | H : Forall2 _ _ (_ :: _) |- _ =>
             let x := fresh "x" in
             let l := fresh "l" in
             let Hx := fresh "Hx" in
             let Hl := fresh "Hl" in
             inversion H as [| x ? l ? Hx Hl]; subst; clear H
         | H : Forall2 _ _ [] |- _ => inversion H; subst; clear H
         end.
  match goal with
  | |- exists _ _ _ _, ?a :: ?b :: ?rest = _ /\ _ =>
      exists a, b, (removelast rest), (List.last rest 0%Q)
  end.
  split; [reflexivity |]. split; [reflexivity |].
  repeat split.
  - setoid_replace (1 # 10000)%Q with (100000000000 # 1000000000000000)%Q
      by reflexivity. assumption.
  - assumption.
  - cbn [List.last].
    setoid_replace 1%Q with (100000000000 # 100000000000)%Q at 1 2 by reflexivity.
    assumption.
Qed.

Lemma getlast_app {A : Type} (l : list A) (x : A) : getlast (l ++ [x])%list = ok x.
Proof. unfold getlast. rewrite rev_app_distr. reflexivity. Qed.

Lemma logspace_stays_auto (self : counter) (e0 : list Q) (rest : list (list Q)) :
  edges self = e0 :: rest ->
  approximates (1 # 1000000000) e0 logspace_m4_0_40 ->
  _set_bin_type "auto" self = ok (set_bin_type "auto" self).
Proof.
  intros He Happ.
  destruct (approximates_logspace_shape Happ)
    as (x0 & x1 & mid & x39 & -> & Hmid & H0 & H1 & H39).
  rewrite (auto_bin_type_general self (first := x0) (last := x39) He eq_refl).
  2:{ change (x0 :: x1 :: mid ++ [x39])%list with ((x0 :: x1 :: mid) ++ [x39])%list.
      apply getlast_app. }
  destruct (np_allclose _ _) eqn:E; [exfalso | reflexivity].
  apply allclose_iff in E; [| now rewrite length_linspace].
  assert (Hlen : List.length (x0 :: x1 :: mid ++ [x39])%list = 40%nat).
  { cbn [List.length]. rewrite length_app, Hmid. reflexivity. }
  rewrite Hlen in E.
  apply (within_tolerance_second (n := 37)) in E.
  change (inject_Z (Z.of_nat 40 - 1)) with 39%Q in E.
  unfold Qdiv in E. change (/ 39)%Q with (1 # 39)%Q in E.
  apply Qabs_Qle_condition in H0, H1, H39.
  set (lin1 := (1 * ((x39 - x0) * (1 # 39)) + x0)%Q) in *.
  assert (Hpos : (0 <= lin1)%Q) by (unfold lin1; lra).
  rewrite (Qabs_pos lin1 Hpos) in E.
  apply Qabs_Qle_condition in E.
  unfold atol, rtol, lin1 in *. lra.
Qed.

(** [np.linspace(1, 100, 11)] is detected as linear. *)
Example linspace_1_100_11_is_lin :
  _set_bin_type "auto" (set_edges [np_linspace 1 100 11] blank) =
    ok (set_bin_type "lin" (set_edges [np_linspace 1 100 11] blank)).
Proof. reflexivity. Qed.

(** The rounded [logspace] itself is left as ['auto']. *)
Example logspace_m4_0_40_stays_auto :
  _set_bin_type "auto" (set_edges [logspace_m4_0_40] blank) =
    ok (set_bin_type "auto" (set_edges [logspace_m4_0_40] blank)).
Proof. reflexivity. Qed.

(** C2, as the code has it.  With [bin_type] 'auto' and a non-empty first
    edge array, the resolved type is 'lin' exactly when every edge is within
    [atol + rtol * |sample|] (atol 1e-8, rtol 1e-5) of the same-size
    [linspace] from the first edge to the last, and it stays 'auto'
    otherwise; [linspace(1, 100, 11)] resolves to 'lin', and every array
    equal to [logspace(-4, 0, 40)] up to rounding stays 'auto'. *)
Theorem auto_bin_type_resolution (self : counter) (e0 : list Q)
    (rest : list (list Q)) (first last : Q) :
  edges self = e0 :: rest ->
  getitem e0 0 = ok first ->
  getlast e0 = ok last ->
  (within_tolerance e0 (np_linspace first last (List.length e0)) ->
     _set_bin_type "auto" self = ok (set_bin_type "lin" self))
  /\ (~ within_tolerance e0 (np_linspace first last (List.length e0)) ->
     _set_bin_type "auto" self = ok (set_bin_type "auto" self))
  /\ (e0 = np_linspace 1 100 11 ->
     _set_bin_type "auto" self = ok (set_bin_type "lin" self))
  /\ (approximates (1 # 1000000000) e0 logspace_m4_0_40 ->
     _set_bin_type "auto" self = ok (set_bin_type "auto" self)).
Proof.
  intros He Hf Hl.
  pose proof (auto_bin_type_general self He Hf Hl) as Hgen.
  pose proof (allclose_iff e0 (np_linspace first last (List.length e0))) as Hiff.
  rewrite length_linspace in Hiff. specialize (Hiff eq_refl).
  repeat split.
  - intros Hw. apply Hiff in Hw. now rewrite Hgen, Hw.
  - intros Hw. rewrite Hgen.
    destruct (np_allclose _ _); [| reflexivity].
    exfalso. apply Hw, Hiff. reflexivity.
  - intros ->. rewrite Hgen.
    cbv in Hf. injection Hf as <-. cbv in Hl. injection Hl as <-.
    reflexivity.
  - intros Happ. exact (logspace_stays_auto self He Happ).
Qed.

Lemma auto_bin_type_resolution_witness :
  _set_bin_type "auto" (set_edges [np_linspace 1 100 11] blank) =
    ok (set_bin_type "lin" (set_edges [np_linspace 1 100 11] blank)).
Proof.
  assert (Hf : exists first, getitem (np_linspace 1 100 11) 0 = ok first)
    by (eexists; reflexivity).
  assert (Hl : exists last, getlast (np_linspace 1 100 11) = ok last)
    by (eexists; reflexivity).
  destruct Hf as (first & Hf). destruct Hl as (last & Hl).
  exact (proj1 (proj2 (proj2
    (auto_bin_type_resolution (set_edges [np_linspace 1 100 11] blank)
       (rest := []) eq_refl Hf Hl))) eq_refl).
Defined.

(** C2 as the specification words it fails: edges 1, 2, 4 are not within
    tolerance of [linspace(1, 4, 3)], and the resolved bin type is 'auto',
    not 'custom'. *)
Lemma auto_bin_type_is_not_custom :
  np_allclose [1; 2; 4]%Q (np_linspace 1 4 3) = false
  /\ exists c, _set_bin_type "auto" (set_edges [[1; 2; 4]%Q] blank) = ok c
               /\ bin_type c = "auto" /\ bin_type c <> "custom".
Proof.
  split; [reflexivity |].
  eexists. split; [reflexivity |]. split; [reflexivity | discriminate].
Qed.

(** ** Normalization *)

(** C3. [normalization] returns N(N-1) for an unweighted autocorrelation of
    N objects, N1 N2 for an unweighted cross-correlation, the square of the
    sum of the weights minus the sum of their squares for a weighted
    autocorrelation, and the product of the two sums of weights for a
    weighted cross-correlation. *)
Theorem normalization_cases (self : counter) :
  (forall p ps,
     weight_type self = None -> autocorr self = true ->
     positions1 self = p :: ps ->
     normalization self = ok (PyInt (len (p_data p) * (len (p_data p) - 1))))
  /\ (forall p ps q qs,
     weight_type self = None -> autocorr self = false ->
     positions1 self = p :: ps -> positions2 self = Some q :: qs ->
     normalization self = ok (PyInt (len (p_data p) * len (p_data q))))
  /\ (forall t w,
     weight_type self = Some t -> autocorr self = true ->
     weights1 self = Some w ->
     normalization self =
       ok (PyFloat (sumQ w ^ 2 - sumQ (map (fun x => x ^ 2) w))%Q))
  /\ (forall t w1 w2,
     weight_type self = Some t -> autocorr self = false ->
     weights1 self = Some w1 -> weights2 self = Some w2 ->
     normalization self = ok (PyFloat (sumQ w1 * sumQ w2)%Q)).
Proof.
  unfold normalization. repeat split.
  - intros p ps -> -> Hp. unfold size_of1. now rewrite Hp.
  - intros p ps q qs -> -> Hp Hq. unfold size_of1, size_of2. now rewrite Hp, Hq.
  - intros t w -> -> Hw. now rewrite Hw.
  - intros t w1 w2 -> -> H1 H2. now rewrite H1, H2.
Qed.

Lemma normalization_cases_witness :
  normalization
    (set_autocorr true
       (set_positions1 [ {| p_dtype := "f8"; p_data := [1; 2; 3]%Q |} ] blank))
    = ok (PyInt 6)
  /\ normalization
       (set_positions2 [ Some {| p_dtype := "f8"; p_data := [4; 5]%Q |} ]
          (set_positions1 [ {| p_dtype := "f8"; p_data := [1; 2; 3]%Q |} ] blank))
     = ok (PyInt 6)
  /\ normalization
       (set_weights1 (Some [1; 2; 3]%Q)
          (set_weight_type (Some "pair_product") (set_autocorr true blank)))
     = ok (PyFloat (sumQ [1; 2; 3] ^ 2 - sumQ (map (fun x => x ^ 2) [1; 2; 3]))%Q)
  /\ normalization
       (set_weights2 (Some [4; 5]%Q)
          (set_weights1 (Some [1; 2; 3]%Q)
             (set_weight_type (Some "pair_product") blank)))
     = ok (PyFloat (sumQ [1; 2; 3] * sumQ [4; 5])%Q).
Proof.
  split; [| split; [| split]].
  - exact (proj1 (normalization_cases
             (set_autocorr true
                (set_positions1 [ {| p_dtype := "f8"; p_data := [1; 2; 3]%Q |} ] blank)))
             {| p_dtype := "f8"; p_data := [1; 2; 3]%Q |} []
             eq_refl eq_refl eq_refl).
  - exact (proj1 (proj2 (normalization_cases
             (set_positions2 [ Some {| p_dtype := "f8"; p_data := [4; 5]%Q |} ]
                (set_positions1 [ {| p_dtype := "f8"; p_data := [1; 2; 3]%Q |} ] blank))))
             {| p_dtype := "f8"; p_data := [1; 2; 3]%Q |} []
             {| p_dtype := "f8"; p_data := [4; 5]%Q |} []
             eq_refl eq_refl eq_refl eq_refl).
  - exact (proj1 (proj2 (proj2 (normalization_cases
             (set_weights1 (Some [1; 2; 3]%Q)
                (set_weight_type (Some "pair_product") (set_autocorr true blank))))))
             "pair_product" [1; 2; 3]%Q eq_refl eq_refl eq_refl).
  - exact (proj2 (proj2 (proj2 (normalization_cases
             (set_weights2 (Some [4; 5]%Q)
                (set_weights1 (Some [1; 2; 3]%Q)
                   (set_weight_type (Some "pair_product") blank))))))
             "pair_product" [1; 2; 3]%Q [4; 5]%Q eq_refl eq_refl eq_refl eq_refl).
Defined.

(** ** Construction of the base engine, step by step *)

Section Construction.

Variable cartesian_to_sky : list parray -> res (list parray).
Variable sky_to_cartesian : list parray -> res (list parray).
Variable py_int : string -> res Z.
Variable run : counter -> res counter.

Let set_positions := _set_positions cartesian_to_sky sky_to_cartesian.
Let init := __init__ cartesian_to_sky sky_to_cartesian py_int run.

Lemma set_positions_frame (p1 : list parray) (p2 : option (list parray))
    (pt : string) (self c : counter) :
  set_positions p1 p2 pt self = ok c ->
  c = set_positions2 (positions2 c)
        (set_autocorr (negb (is_some p2)) (set_positions1 (positions1 c) self)).
Proof.
  unfold set_positions, _set_positions. intros H.
  apply bind_ok in H as (q1 & _ & H).
  destruct p2 as [q |].
  - apply bind_ok in H as (q2 & _ & H). injection H as <-. reflexivity.
  - injection H as <-. reflexivity.
Qed.

Lemma set_weight_type_frame (wt : option string) (self c : counter) :
  _set_weight_type wt self = ok c -> c = set_weight_type wt self.
Proof.
  unfold _set_weight_type. destruct (negb _); [discriminate |].
  intros H. now injection H as <-.
Qed.

Lemma set_weights_frame (w1 w2 : option (list Q)) (wt : option string)
    (self c : counter) :
  _set_weights w1 w2 wt self = ok c ->
  c = set_weights2 (weights2 c)
        (set_weights1 (weights1 c) (set_weight_type (weight_type c) self)).
Proof.
  unfold _set_weights. intros H.
  apply bind_ok in H as (s1 & Hs1 & H).
  apply set_weight_type_frame in Hs1. subst s1.
  apply bind_ok in H as ([] & _ & H).
  apply bind_ok in H as ([] & _ & H).
  match type of H with
  | match weight_type ?s with _ => _ end = _ =>
      destruct (weight_type s) eqn:Ewt
  end.
  - apply bind_ok in H as (n1' & _ & H).
    apply bind_ok in H as ([] & _ & H).
    match type of H with
    | (if ?b then _ else _) = _ => destruct b
    end.
    + apply bind_ok in H as (n2' & _ & H).
      apply bind_ok in H as ([] & _ & H).
      injection H as <-. cbn.
      destruct (optstr_eqb _ _); [destruct w1 |]; reflexivity.
    + injection H as <-. cbn.
      destruct (optstr_eqb _ _); [destruct w1 |]; reflexivity.
  - injection H as <-. cbn.
    destruct (optstr_eqb _ _); [destruct w1 |]; reflexivity.
Qed.

Lemma set_default_sep_frame (self c : counter) :
  _set_default_sep self = ok c -> c = set_sep (sep c) self.
Proof.
  unfold _set_default_sep. intros H.
  apply bind_ok in H as (e0 & _ & H).
  destruct (ndim self =? 2).
  - apply bind_ok in H as (s0 & _ & H).
    apply bind_ok in H as (s1 & _ & H).
    apply bind_ok in H as (r & _ & H).
    apply bind_ok in H as (c' & _ & H).
    apply bind_ok in H as (m & _ & H).
    injection H as <-. reflexivity.
  - injection H as <-. reflexivity.
Qed.

Lemma init_os (a : init_args) (os : os_state) :
  snd (init a os) =
    match a_nthreads a with
    | None => {| environ := environ os;
                 getenv_calls := (getenv_calls os ++ ["OMP_NUM_THREADS"])%list |}
    | Some _ => os
    end.
Proof. unfold init, __init__. destruct (a_nthreads a); reflexivity. Qed.

Lemma init_inv (a : init_args) (os : os_state) (c : counter) :
  fst (init a os) = ok c ->
  exists nt s1 s2 s3 s4 s5 s6 s7 n,
    match a_nthreads a with
    | Some k => ok k
    | None => py_int (omp_num_threads os)
    end = ok nt
    /\ set_positions (a_positions1 a) (a_positions2 a) (a_position_type a)
         (set_nthreads (Some nt) (set_mode (a_mode a) blank)) = ok s1
    /\ _set_weights (a_weights1 a) (a_weights2 a) (a_weight_type a) s1 = ok s2
    /\ _set_edges (a_edges a) (a_bin_type a) s2 = ok s3
    /\ _set_los (a_los a) s3 = ok s4
    /\ _set_boxsize (a_boxsize a) s4 = ok s5
    /\ run (set_output_sepavg (a_output_sepavg a) s5) = ok s6
    /\ (if negb (output_sepavg s6) then _set_default_sep s6 else ok s6) = ok s7
    /\ normalization s7 = ok n
    /\ c = set_norm (Some n) s7.
Proof.
  unfold init, __init__, set_positions. intros H.
  assert (H' : exists nt,
    match a_nthreads a with
    | Some k => ok k
    | None => py_int (omp_num_threads os)
    end = ok nt
    /\ (self <- _set_positions cartesian_to_sky sky_to_cartesian
                 (a_positions1 a) (a_positions2 a) (a_position_type a)
                 (set_nthreads (Some nt) (set_mode (a_mode a) blank)) ;;
        self <- _set_weights (a_weights1 a) (a_weights2 a) (a_weight_type a) self ;;
        self <- _set_edges (a_edges a) (a_bin_type a) self ;;
        self <- _set_los (a_los a) self ;;
        self <- _set_boxsize (a_boxsize a) self ;;
        self <- run (set_output_sepavg (a_output_sepavg a) self) ;;
        self <- (if negb (output_sepavg self) then _set_default_sep self
                 else ok self) ;;
        n <- normalization self ;;
        ok (set_norm (Some n) self)) = ok c).
  { destruct (a_nthreads a) as [k |].
    - exists k. split; [reflexivity | exact H].
    - unfold os_getenv in H. cbn [fst] in H.
      apply bind_ok in H as (s0 & Hs0 & H).
      apply bind_ok in Hs0 as (nt & Hnt & Hs0). injection Hs0 as <-.
      exists nt. split; [exact Hnt | exact H]. }
  clear H. destruct H' as (nt & Hnt & H).
  apply bind_ok in H as (s1 & H1 & H).
  apply bind_ok in H as (s2 & H2 & H).
  apply bind_ok in H as (s3 & H3 & H).
  apply bind_ok in H as (s4 & H4 & H).
  apply bind_ok in H as (s5 & H5 & H).
  apply bind_ok in H as (s6 & H6 & H).
  apply bind_ok in H as (s7 & H7 & H).
  apply bind_ok in H as (n & H8 & H).
  injection H as <-.
  exists nt, s1, s2, s3, s4, s5, s6, s7, n. repeat (split; [assumption |]).
  reflexivity.
Qed.

(** What a constructed counter keeps of the arguments, for an engine whose
    [run] assigns the counts only. *)
Lemma init_frame (a : init_args) (os : os_state) (c : counter) :
  assigns_counts_only run ->
  fst (init a os) = ok c ->
  mode c = a_mode a
  /\ nthreads c = match a_nthreads a with
                  | Some k => Some k
                  | None => match py_int (omp_num_threads os) with
                            | inr n => Some n
                            | inl _ => None
                            end
                  end
  /\ autocorr c = negb (is_some (a_positions2 a))
  /\ output_sepavg c = a_output_sepavg a
  /\ los c = a_los a
  /\ exists t, edges c = t /\ len t = required_ndim (a_mode a)
               /\ len t = narrays (a_edges a).
Proof.
  intros Hrun H.
  apply init_inv in H
    as (nt & s1 & s2 & s3 & s4 & s5 & s6 & s7 & n
        & Hnt & H1 & H2 & H3 & H4 & H5 & H6 & H7 & H8 & ->).
  apply set_positions_frame in H1. apply set_weights_frame in H2.
  pose proof (set_edges_frame _ _ _ H3) as (t & H3' & Hreq & Hn).
  apply set_los_frame in H4. apply set_boxsize_frame in H5.
  apply Hrun in H6.
  assert (H7' : s7 = set_sep (sep s7) s6).
  { destruct (negb (output_sepavg s6)).
    - now apply set_default_sep_frame.
    - injection H7 as <-. now destruct s6. }
  assert (Hmode : mode s2 = a_mode a) by (rewrite H2, H1; reflexivity).
  rewrite Hmode in Hreq.
  rewrite H7', H6, H5, H4, H3', H2, H1. cbn.
  repeat split.
  - destruct (a_nthreads a) as [k |].
    + now injection Hnt as ->.
    + now rewrite Hnt.
  - exists t. auto.
Qed.

(** ** Weights of the two catalogs *)

Lemma set_weights_one_sided (w1 w2 : option (list Q)) (wt : option string)
    (self : counter) :
  autocorr self = false ->
  one_sided w1 w2 ->
  is_PairCounterError (_set_weights w1 w2 wt self) = true.
Proof.
  intros Hcross Hone. unfold _set_weights, _set_weight_type.
  destruct (negb (optstr_in _ _)); [reflexivity |].
  cbn [bind ok]. change (autocorr (set_weight_type wt self)) with (autocorr self).
  rewrite Hcross. cbn [bind ok].
  destruct Hone as [[-> H2] | [H1 ->]].
  - destruct w2 as [w |]; [reflexivity | congruence].
  - destruct w1 as [w |]; [reflexivity | congruence].
Qed.

Lemma set_weights_two_sided (w1 w2 : option (list Q)) (wt : option string)
    (self : counter) (msg : string) :
  autocorr self = false ->
  ~ one_sided w1 w2 ->
  In msg presence_errors ->
  _set_weights w1 w2 wt self <> raise (PairCounterError msg).
Proof.
  intros Hcross Hboth Hmsg.
  assert (Hcases : (w1 = None /\ w2 = None) \/ (exists a b, w1 = Some a /\ w2 = Some b)).
  { destruct w1 as [a |], w2 as [b |].
    - right. now exists a, b.
    - exfalso. apply Hboth. right. split; congruence.
    - exfalso. apply Hboth. left. split; congruence.
    - now left. }
  assert (Hmsg' : msg <> "weight_type should be one of [None, 'auto', 'pair_product']"
                  /\ msg <> "Weight array should be of the same length as position arrays").
  { unfold presence_errors in Hmsg. simpl in Hmsg.
    destruct Hmsg as [<- | [<- | [<- | []]]]; split; discriminate. }
  destruct Hmsg' as [Hm1 Hm2].
  intros H.
  unfold _set_weights, _set_weight_type, check_weights, size_of1, size_of2,
    getitem, raise, ok, bind in H.
  destruct (negb (optstr_in _ _)); [congruence |].
  cbn [autocorr set_weight_type weight_type] in H. rewrite Hcross in H.
  destruct Hcases as [[-> ->] | (a & b & -> & ->)];
    cbn [is_some negb] in H;
    repeat first
      [ progress cbn [is_some negb autocorr set_weight_type set_weights1
                      set_weights2 weight_type weights1 weights2] in *
      | match goal with
        | H' : context [autocorr self] |- _ =>
            lazymatch H' with Hcross => fail | _ => rewrite Hcross in H' end
        | H' : context [match ?x with _ => _ end] |- _ => destruct x eqn:?
        end ];
    congruence.
Qed.

(** C8. In a cross-correlation, [_set_weights] raises [PairCounterError] as
    soon as weights come with exactly one of the two catalogs, and so the
    constructor returns no counter; with weights for both catalogs or for
    neither, none of the checks on their presence raises. *)
Theorem weights_presence_symmetric (w1 w2 : option (list Q)) :
  (one_sided w1 w2 ->
     (forall wt self, autocorr self = false ->
        is_PairCounterError (_set_weights w1 w2 wt self) = true)
     /\ (forall a os, a_positions2 a <> None ->
           a_weights1 a = w1 -> a_weights2 a = w2 ->
           is_ok (fst (init a os)) = false))
  /\ (~ one_sided w1 w2 ->
      forall wt self msg, autocorr self = false -> In msg presence_errors ->
        _set_weights w1 w2 wt self <> raise (PairCounterError msg)).
Proof.
  split.
  - intros Hone. split.
    + intros wt self Hcross. now apply set_weights_one_sided.
    + intros a os Hp2 <- <-.
      destruct (fst (init a os)) as [e | c] eqn:E; [reflexivity | exfalso].
      apply init_inv in E
        as (nt & s1 & s2 & s3 & s4 & s5 & s6 & s7 & n
            & _ & H1 & H2 & _).
      apply set_positions_frame in H1.
      assert (Hcross : autocorr s1 = false).
      { rewrite H1. cbn. destruct (a_positions2 a); [reflexivity | congruence]. }
      pose proof (set_weights_one_sided (a_weight_type a) s1 Hcross Hone) as Herr.
      rewrite H2 in Herr. discriminate Herr.
  - intros Hboth wt self msg Hcross Hmsg.
    now apply set_weights_two_sided.
Qed.

(** ** Thread count *)

(** C10. With [nthreads] not given, the constructor looks up
    OMP_NUM_THREADS exactly once, reads the text found (or "1" when the
    variable is unset) as an integer and stores it, failing when the text is
    no integer; the result depends on the environment through that one
    variable only.  With [nthreads] given, the environment is not looked up
    and the given value is stored.  Nothing but the constructor takes the
    environment, so later calls work from the stored value. *)
Theorem nthreads_resolved_once (a : init_args) (os : os_state) :
  assigns_counts_only run ->
  (a_nthreads a = None ->
     getenv_calls (snd (init a os)) = (getenv_calls os ++ ["OMP_NUM_THREADS"])%list
     /\ environ (snd (init a os)) = environ os
     /\ (forall c, fst (init a os) = ok c ->
           exists n, py_int (omp_num_threads os) = ok n /\ nthreads c = Some n)
     /\ (forall e, py_int (omp_num_threads os) = raise e ->
           fst (init a os) = raise e)
     /\ (environ os "OMP_NUM_THREADS" = None -> py_int "1" = ok 1 ->
           forall c, fst (init a os) = ok c -> nthreads c = Some 1)
     /\ (forall os', environ os' "OMP_NUM_THREADS" = environ os "OMP_NUM_THREADS" ->
           fst (init a os') = fst (init a os)))
  /\ (forall k, a_nthreads a = Some k ->
        snd (init a os) = os
        /\ (forall c, fst (init a os) = ok c -> nthreads c = Some k)
        /\ (forall os', fst (init a os') = fst (init a os))).
Proof.
  intros Hrun. split.
  - intros Hnone.
    assert (Hstored : forall c, fst (init a os) = ok c ->
              exists n, py_int (omp_num_threads os) = ok n /\ nthreads c = Some n).
    { intros c Hc.
      destruct (init_frame a os Hrun Hc) as (_ & Hnt & _).
      pose proof (init_inv a os Hc) as (nt & _ & _ & _ & _ & _ & _ & _ & _ & Hres & _).
      rewrite Hnone in Hnt, Hres. rewrite Hres in Hnt.
      exists nt. split; [exact Hres | exact Hnt]. }
    rewrite init_os, Hnone. cbn [getenv_calls environ].
    repeat (split; [reflexivity |]).
    split; [exact Hstored |]. split; [| split].
    + intros e He. unfold init, __init__. rewrite Hnone.
      unfold os_getenv. cbn [fst]. fold (omp_num_threads os). rewrite He.
      reflexivity.
    + intros Hunset Hone c Hc.
      destruct (Hstored c Hc) as (n & Hn & ->).
      unfold omp_num_threads in Hn. rewrite Hunset, Hone in Hn.
      now injection Hn as <-.
    + intros os' Henv. unfold init, __init__. rewrite Hnone.
      unfold os_getenv. cbn [fst]. now rewrite Henv.
  - intros k Hk. rewrite init_os, Hk. split; [reflexivity |]. split.
    + intros c Hc.
      destruct (init_frame a os Hrun Hc) as (_ & Hnt & _).
      now rewrite Hk in Hnt.
    + intros os'. unfold init, __init__. rewrite Hk. reflexivity.
Qed.

(** ** What the constructor stores *)

(** The stored [norm] is what [normalization] returns on the counter. *)
Lemma constructed_norm (a : init_args) (os : os_state) (c : counter) :
  fst (init a os) = ok c ->
  exists n, normalization c = ok n /\ norm c = Some n.
Proof.
  intros H.
  apply init_inv in H
    as (nt & s1 & s2 & s3 & s4 & s5 & s6 & s7 & n & _ & _ & _ & _ & _ & _ & _ & _ & Hn & ->).
  exists n. split; [exact Hn | reflexivity].
Qed.

(** No counter is built from a wrong number of edge arrays. *)
Lemma constructed_ndim (a : init_args) (os : os_state) :
  narrays (a_edges a) <> required_ndim (a_mode a) ->
  is_ok (fst (init a os)) = false.
Proof.
  intros Hn.
  destruct (fst (init a os)) as [e | c] eqn:E; [reflexivity | exfalso].
  apply init_inv in E
    as (nt & s1 & s2 & s3 & s4 & s5 & s6 & s7 & n & _ & H1 & H2 & H3 & _).
  apply set_positions_frame in H1. apply set_weights_frame in H2.
  apply set_edges_frame in H3 as (t & _ & Hreq & Hlen).
  assert (Hmode : mode s2 = a_mode a) by (rewrite H2, H1; reflexivity).
  congruence.
Qed.

Lemma map2_ext_eq (f g : Q -> Q -> Q) (l1 l2 : list Q) :
  (forall x y, (f x y == g x y)%Q) ->
  vec_eq (map Fin (map2 f l1 l2)) (map Fin (map2 g l1 l2)).
Proof.
  intros Hfg. revert l2.
  induction l1 as [| x l1 IH]; intros [| y l2]; simpl; try constructor.
  - apply Hfg.
  - apply IH.
Qed.

Lemma default_sep_one_dimensional (self : counter) (e0 : list Q) :
  edges self = [e0] ->
  exists v, _set_default_sep self = ok (set_sep (Arr1 v) self)
            /\ vec_eq v (map Fin (midpoints e0)).
Proof.
  intros He. unfold _set_default_sep, ndim. rewrite He.
  rewrite getitem_0_cons. cbn [bind ok len List.length Z.of_nat Z.eqb Pos.eqb].
  eexists. split; [reflexivity |].
  unfold midpoints. apply map2_ext_eq.
  intros x y. unfold Qdiv. apply Qmult_comp; [apply Qplus_comm | reflexivity].
Qed.

(** With [output_sepavg] false and one edge array, the constructed counter
    carries the midpoints of the edges as [sep]. *)
Lemma constructed_default_sep (a : init_args) (os : os_state) (c : counter)
    (e0 : list Q) :
  assigns_counts_only run ->
  a_output_sepavg a = false ->
  fst (init a os) = ok c ->
  edges c = [e0] ->
  exists v, sep c = Arr1 v /\ vec_eq v (map Fin (midpoints e0)).
Proof.
  intros Hrun Hsep H He.
  apply init_inv in H
    as (nt & s1 & s2 & s3 & s4 & s5 & s6 & s7 & n
        & _ & _ & _ & _ & _ & _ & H6 & H7 & _ & ->).
  apply Hrun in H6.
  assert (Hflag : output_sepavg s6 = false) by (rewrite H6; exact Hsep).
  rewrite Hflag in H7. cbn [negb] in H7.
  pose proof (set_default_sep_frame _ H7) as Hs7.
  assert (He6 : edges s6 = [e0]).
  { rewrite <- He, Hs7. reflexivity. }
  destruct (default_sep_one_dimensional s6 He6) as (v & Hv & Hmid).
  rewrite Hv in H7. injection H7 as <-.
  exists v. split; [reflexivity | exact Hmid].
Qed.

End Construction.

(** An engine whose [run] leaves the counter as it is. *)
Lemma idle_run_assigns_counts_only : assigns_counts_only (fun s => ok s).
Proof. intros s s' H. injection H as <-. now destruct s. Qed.

Lemma weights_presence_symmetric_witness :
  one_sided (Some [1; 2]%Q) None
  /\ is_PairCounterError
       (_set_weights (Some [1; 2]%Q) None (Some "auto") blank) = true
  /\ (~ one_sided (Some [1; 2]%Q) (Some [3; 4]%Q)
      /\ _set_weights (Some [1; 2]%Q) (Some [3; 4]%Q) (Some "auto") blank
         <> raise (PairCounterError "weights1 are provided, but not weights2")).
Proof.
  assert (Hone : one_sided (Some [1; 2]%Q) None)
    by (right; split; [discriminate | reflexivity]).
  assert (Hboth : ~ one_sided (Some [1; 2]%Q) (Some [3; 4]%Q))
    by (intros [[H _] | [_ H]]; discriminate H).
  split; [exact Hone |]. split.
  - exact (proj1 (proj1 (weights_presence_symmetric
             (fun p => ok p) (fun p => ok p) read_decimal (fun s => ok s)
             (Some [1; 2]%Q) None) Hone) (Some "auto") blank eq_refl).
  - split; [exact Hboth |].
    apply (proj2 (weights_presence_symmetric
             (fun p => ok p) (fun p => ok p) read_decimal (fun s => ok s)
             (Some [1; 2]%Q) (Some [3; 4]%Q)) Hboth).
    + reflexivity.
    + simpl. auto.
Defined.

Lemma nthreads_resolved_once_witness :
  let a := default_args "s" (EdgesArray [1; 2; 3]%Q)
             [ {| p_dtype := "f8"; p_data := [0; 1]%Q |};
               {| p_dtype := "f8"; p_data := [0; 1]%Q |};
               {| p_dtype := "f8"; p_data := [0; 1]%Q |} ] in
  let os := {| environ := fun _ => None; getenv_calls := [] |} in
  let built := __init__ (fun p => ok p) (fun p => ok p) read_decimal
                 (fun s => ok s) a os in
  getenv_calls (snd built) = ["OMP_NUM_THREADS"]
  /\ exists c, fst built = ok c /\ nthreads c = Some 1.
Proof.
  intros a os built.
  assert (Hbuilt : exists c, fst built = ok c)
    by (eexists; vm_compute; reflexivity).
  destruct Hbuilt as (c & Hc).
  destruct (nthreads_resolved_once (fun p => ok p) (fun p => ok p) read_decimal
              a os idle_run_assigns_counts_only) as [Hnone _].
  destruct (Hnone eq_refl) as (Hcalls & _ & _ & _ & Hdefault & _).
  split.
  - exact Hcalls.
  - exists c. split; [exact Hc | exact (Hdefault eq_refl eq_refl c Hc)].
Defined.

(** ** Analytic counter in mode s *)

Lemma map2_map {A B C : Type} (f : B -> B -> C) (g : A -> B) (a b : list A) :
  map2 f (map g a) (map g b) = map2 (fun x y => f (g x) (g y)) a b.
Proof.
  revert b. induction a as [| x a IH]; intros [| y b]; simpl; try reflexivity.
  now rewrite IH.
Qed.

Lemma map_map2 {A B C D : Type} (h : C -> D) (f : A -> B -> C)
    (a : list A) (b : list B) :
  map h (map2 f a b) = map2 (fun x y => h (f x y)) a b.
Proof.
  revert b. induction a as [| x a IH]; intros [| y b]; simpl; try reflexivity.
  now rewrite IH.
Qed.

Lemma drop_first_map {A B : Type} (g : A -> B) (l : list A) :
  drop_first (map g l) = map g (drop_first l).
Proof. now destruct l. Qed.

Lemma drop_last_map {A B : Type} (g : A -> B) (l : list A) :
  drop_last (map g l) = map g (drop_last l).
Proof.
  unfold drop_last. induction l as [| x l IH]; [reflexivity |].
  destruct l as [| y l]; [reflexivity |].
  simpl in *. now rewrite IH.
Qed.

Lemma set_edges_one_array (e0 : list Q) (self : counter) :
  e0 <> [] ->
  str_in (mode self) ["smu"; "rppi"] = false ->
  exists bt, _set_edges (EdgesArray e0) "auto" self
             = ok (set_bin_type bt (set_edges [e0] self)).
Proof.
  intros He Hmode. destruct e0 as [| x l]; [congruence |].
  destruct (getlast_total x l) as (y & Hy).
  unfold _set_edges. rewrite getitem_0_cons. cbn [bind ok].
  change (mode (set_edges [x :: l] self)) with (mode self). rewrite Hmode.
  cbn [ndim edges set_edges len List.length Z.of_nat Pos.of_succ_nat Z.eqb
       Pos.eqb negb bind ok].
  rewrite (auto_bin_type_general (set_edges [x :: l] self) (rest := [])
             (first := x) (last := y) eq_refl eq_refl Hy).
  eexists. reflexivity.
Qed.

(** The analytic [run] in mode s, on any counter whose box is an array. *)
Lemma analytic_run_s (self : counter) (e0 : list Q) (rest : list (list Q))
    (box : list f8) (n : Z) :
  mode self = "s" ->
  edges self = e0 :: rest ->
  boxsize self = Some (BoxArray box) ->
  AnalyticTwoPointCounter.normalization self = ok n ->
  AnalyticTwoPointCounter.run self =
    ok (set_wcounts
          (Arr1 (map2 (fun hi lo =>
                         f8_div (Fin (inject_Z n * (sphere_volume hi - sphere_volume lo)))
                                (f8_prod box))
                      (drop_first e0) (drop_last e0)))
          self).
Proof.
  intros Hmode He Hbox Hn. unfold AnalyticTwoPointCounter.run.
  rewrite Hmode, He, Hbox, Hn.
  cbn [String.eqb Ascii.eqb Bool.eqb getitem nth_error bind ok
       AnalyticTwoPointCounter.boxsize_prod nd_map].
  unfold np_diff. rewrite drop_first_map, drop_last_map, map2_map, map_map2.
  reflexivity.
Qed.

Lemma set_los_allowed (l : string) (self : counter) :
  In l ["midpoint"; "endpoint"; "firstpoint"; "x"; "y"; "z"] ->
  _set_los l self = ok (set_los l self).
Proof.
  intros Hin. unfold _set_los.
  change (los (set_los l self)) with l.
  assert (Hl : str_in l ["midpoint"; "endpoint"; "firstpoint"; "x"; "y"; "z"] = true).
  { unfold str_in. apply existsb_exists. exists l. split; [exact Hin |].
    apply String.eqb_refl. }
  now rewrite Hl.
Qed.

Lemma f8_prod_three (b0 b1 b2 : Q) :
  f8_prod [Fin b0; Fin b1; Fin b2] = Fin (1 * b0 * b1 * b2).
Proof. reflexivity. Qed.

Lemma map2_f8_eq {A B : Type} (f g : A -> B -> f8) (a : list A) (b : list B) :
  (forall x y, f8_eq (f x y) (g x y)) ->
  vec_eq (map2 f a b) (map2 g a b).
Proof.
  intros Hfg. revert b.
  induction a as [| x a IH]; intros [| y b]; simpl; constructor.
  - apply Hfg.
  - apply IH.
Qed.

(** C6. The analytic counter built in mode s over a box given as an array
    of three sides of non-zero volume has, in bin i,
    wcounts = normalization * (V(edge i+1) - V(edge i)) / (b0 b1 b2), with V
    the volume 4/3 pi r^3 of the full sphere and normalization n1 (n1 - 1)
    when [n2] is absent, n1 n2 when it is given: object counts, no weights. *)
Theorem analytic_s_wcounts (e0 : list Q) (b0 b1 b2 : Q) (n1' : Z)
    (n2' : option Z) (los' : string) :
  e0 <> [] ->
  In los' ["midpoint"; "endpoint"; "firstpoint"; "x"; "y"; "z"] ->
  ~ (b0 * b1 * b2 == 0)%Q ->
  let normalization' :=
    match n2' with
    | None => n1' * (n1' - 1)
    | Some m => n1' * m
    end in
  exists c,
    AnalyticTwoPointCounter.__init__ "s" (EdgesArray e0)
      (Some (BoxArray [Fin b0; Fin b1; Fin b2])) n1' n2' los' = ok c
    /\ AnalyticTwoPointCounter.normalization c = ok normalization'
    /\ nd_eq (wcounts c)
         (Arr1 (map2 (fun hi lo =>
                        Fin (inject_Z normalization'
                             * (sphere_volume hi - sphere_volume lo)
                             / (b0 * b1 * b2))%Q)
                     (drop_first e0) (drop_last e0))).
Proof.
  intros He Hlos Hvol normalization'.
  unfold AnalyticTwoPointCounter.__init__.
  destruct (set_edges_one_array (set_mode "s" blank) He eq_refl) as (bt & ->).
  cbn [bind ok]. rewrite set_boxsize_total. cbn [bind ok].
  rewrite (set_los_allowed _ Hlos). cbn [bind ok].
  match goal with
  | |- context [AnalyticTwoPointCounter.run ?s] =>
      rewrite (analytic_run_s s (e0 := e0) (rest := [])
                 (box := [Fin b0; Fin b1; Fin b2]) (n := normalization')
                 eq_refl eq_refl eq_refl)
  end.
  2:{ unfold AnalyticTwoPointCounter.normalization, normalization'.
      destruct n2'; reflexivity. }
  cbn [bind ok].
  match goal with
  | |- context [_set_default_sep ?s] =>
      destruct (default_sep_one_dimensional s (e0 := e0) eq_refl) as (v & -> & _)
  end.
  eexists. split; [reflexivity |]. split.
  - unfold AnalyticTwoPointCounter.normalization, normalization'.
    destruct n2'; reflexivity.
  - cbn [wcounts set_sep set_wcounts nd_eq].
    apply map2_f8_eq. intros hi lo.
    rewrite f8_prod_three. unfold f8_div.
    destruct (Qeq_bool (1 * b0 * b1 * b2) 0) eqn:E.
    + apply Qeq_bool_iff in E. exfalso. apply Hvol. rewrite <- E. ring.
    + cbn [f8_eq]. apply Qmult_comp; [reflexivity |].
      apply Qinv_comp. ring.
Qed.

Lemma analytic_s_wcounts_witness :
  exists c,
    AnalyticTwoPointCounter.__init__ "s" (EdgesArray [0; 1; 2]%Q)
      (Some (BoxArray [Fin 10; Fin 10; Fin 10])) 10 None "z" = ok c
    /\ AnalyticTwoPointCounter.normalization c = ok 90
    /\ nd_eq (wcounts c)
         (Arr1 [Fin (90 * (sphere_volume 1 - sphere_volume 0) / (10 * 10 * 10))%Q;
                Fin (90 * (sphere_volume 2 - sphere_volume 1) / (10 * 10 * 10))%Q]).
Proof.
  apply (@analytic_s_wcounts [0; 1; 2]%Q 10 10 10 10 None "z").
  - discriminate.
  - simpl. auto 10.
  - vm_compute. discriminate.
Defined.

(** ** Default separation with two edge arrays *)

Lemma length_drop_first {A : Type} (l : list A) :
  List.length (drop_first l) = (List.length l - 1)%nat.
Proof. destruct l; simpl; lia. Qed.

Lemma length_drop_last {A : Type} (l : list A) :
  List.length (drop_last l) = (List.length l - 1)%nat.
Proof.
  unfold drop_last. destruct l as [| x l]; [reflexivity |].
  rewrite removelast_firstn_len, length_firstn. simpl. lia.
Qed.

(** With as many bins in the second dimension as in the first, every row of
    [sep] is the whole vector of midpoints: entry (i, j) is the midpoint of
    bin j of the first dimension, whatever i. *)
Lemma default_sep_square (self : counter) (e0 e1 : list Q) (n : nat) :
  edges self = [e0; e1] ->
  List.length e0 = S n -> List.length e1 = S n ->
  _set_default_sep self =
    ok (set_sep
          (Arr2 (repeat (map Fin (map2 (fun a b => ((a + b) / 2)%Q)
                                       (drop_first e0) (drop_last e0))) n))
          self).
Proof.
  intros He H0 H1. unfold _set_default_sep, ndim, shape. rewrite He.
  cbn [getitem nth_error bind ok len List.length Z.of_nat Pos.of_succ_nat
       Z.eqb Pos.eqb map Pos.succ].
  unfold len. rewrite H0, H1.
  replace (Z.of_nat (S n) - 1) with (Z.of_nat n) by lia.
  unfold dim_of. destruct (Z.of_nat n <? 0) eqn:E; [apply Z.ltb_lt in E; lia |].
  cbn [bind ok]. rewrite Nat2Z.id.
  unfold assign_rows, broadcast_to.
  rewrite length_map, length_map2
    by (rewrite length_drop_first, length_drop_last; reflexivity).
  rewrite length_drop_first, H0. cbn [Nat.sub]. rewrite Nat.sub_0_r, Nat.eqb_refl.
  reflexivity.
Qed.

(** C9 on the code, with two edge arrays.  For first-dimension edges 0, 2, 4
    (midpoints 1 and 3) and second-dimension edges 0, 1, 2, [sep] is
    [[1, 3], [1, 3]]: the midpoints run along the second dimension, where
    the broadcast over the second dimension would give [[1, 1], [3, 3]].
    With second-dimension edges 0, 1, 2, 3 the assignment raises
    [ValueError] and no [sep] is set. *)
Theorem default_sep_two_dimensional :
  (exists c,
     _set_default_sep (set_edges [[0; 2; 4]; [0; 1; 2]]%Q (set_mode "rppi" blank)) = ok c
     /\ nd_eq (sep c) (Arr2 [[Fin 1; Fin 3]; [Fin 1; Fin 3]])
     /\ ~ nd_eq (sep c) (Arr2 [[Fin 1; Fin 1]; [Fin 3; Fin 3]]))
  /\ _set_default_sep (set_edges [[0; 2; 4]; [0; 1; 2; 3]]%Q (set_mode "rppi" blank))
     = raise ValueError.
Proof.
  split; [| vm_compute; reflexivity].
  eexists. split; [vm_compute; reflexivity |].
  split.
  - repeat constructor.
  - intros H. inversion H as [| ? ? ? ? Hrow _]; subst.
    inversion Hrow as [| ? ? ? ? _ Hrest]; subst.
    inversion Hrest as [| ? ? ? ? Hx _]; subst.
    vm_compute in Hx. discriminate Hx.
Qed.

(** The analytic counter, which always takes the default separation, shows
    the same in mode rppi. *)
Example analytic_rppi_sep :
  exists c,
    AnalyticTwoPointCounter.__init__ "rppi" (EdgesTuple [[0; 2; 4]; [0; 1; 2]]%Q)
      (Some (BoxArray [Fin 10; Fin 10; Fin 10])) 10 None "z" = ok c
    /\ nd_eq (sep c) (Arr2 [[Fin 1; Fin 3]; [Fin 1; Fin 3]]).
Proof.
  eexists. split; [vm_compute; reflexivity |]. repeat constructor.
Qed.

Example analytic_rppi_not_square :
  AnalyticTwoPointCounter.__init__ "rppi" (EdgesTuple [[0; 2; 4]; [0; 1; 2; 3]]%Q)
    (Some (BoxArray [Fin 10; Fin 10; Fin 10])) 10 None "z" = raise ValueError.
Proof. vm_compute. reflexivity. Qed.

(** ** Rebinning *)

Lemma floordiv_zip_total (s f : list Z) :
  ~ In 0 f -> exists r, floordiv_zip s f = ok r.
Proof.
  revert f. induction s as [| x s IH]; intros [| y f] Hf; simpl;
    try (eexists; reflexivity).
  destruct (y =? 0) eqn:E.
  - apply Z.eqb_eq in E. subst y. exfalso. apply Hf. now left.
  - destruct (IH f) as (r & ->); [intros H; apply Hf; now right |].
    eexists. reflexivity.
Qed.

(** The factor reaches the result of [rebin] through its length only: the
    new shape computed from it is not passed on. *)
Lemma rebin_ignores_factor (utils_rebin : ndarray -> res ndarray)
    (self : counter) (f g : list Z) :
  List.length f = List.length g ->
  ~ In 0 f -> ~ In 0 g ->
  rebin utils_rebin (FactorTuple f) self = rebin utils_rebin (FactorTuple g) self.
Proof.
  intros Hlen Hf Hg. unfold rebin, len. rewrite Hlen.
  destruct (negb _); [reflexivity |].
  destruct (@floordiv_zip_total (shape self) f Hf) as (r1 & ->).
  destruct (@floordiv_zip_total (shape self) g Hg) as (r2 & ->).
  reflexivity.
Qed.

(** On four bins holding 1, 2, 3, 4, whatever [utils.rebin] does with the
    array it is handed, [rebin((2,))] gives what [rebin((1,))] gives; so the
    counts cannot be left as they are under factor 1 and be merged into 3, 7
    under factor 2. *)
Theorem rebin_result_independent_of_factor
    (utils_rebin : ndarray -> res ndarray) :
  let self :=
    set_sep (Arr1 [Fin (1 # 2); Fin (3 # 2); Fin (5 # 2); Fin (7 # 2)])
      (set_wcounts (Arr1 [Fin 1; Fin 2; Fin 3; Fin 4])
         (set_edges [[0; 1; 2; 3; 4]%Q] (set_mode "s" blank))) in
  rebin utils_rebin (FactorTuple [2]) self = rebin utils_rebin (FactorTuple [1]) self
  /\ ~ (exists c1 c2,
          rebin utils_rebin (FactorTuple [1]) self = ok c1
          /\ rebin utils_rebin (FactorTuple [2]) self = ok c2
          /\ wcounts c1 = Arr1 [Fin 1; Fin 2; Fin 3; Fin 4]
          /\ wcounts c2 = Arr1 [Fin 3; Fin 7]).
Proof.
  intros self.
  assert (Heq : rebin utils_rebin (FactorTuple [2]) self
                = rebin utils_rebin (FactorTuple [1]) self).
  { apply rebin_ignores_factor; [reflexivity | |];
      simpl; intros [H | []]; discriminate H. }
  split; [exact Heq |].
  intros (c1 & c2 & H1 & H2 & Hw1 & Hw2).
  rewrite Heq, H1 in H2. injection H2 as <-.
  rewrite Hw1 in Hw2. discriminate Hw2.
Qed.

(** * Further properties of the code *)

(** ** Normalization as a sum over pairs *)

Lemma sumQ_scale (x : Q) (l : list Q) :
  (sumQ (map (fun y => x * y) l) == x * sumQ l)%Q.
Proof.
  induction l as [| y l IH]; simpl.
  - ring.
  - rewrite IH. ring.
Qed.

Lemma sumQ_both_orders (x : Q) (l : list Q) :
  (sumQ (map (fun y => x * y + y * x) l) == 2 * x * sumQ l)%Q.
Proof.
  induction l as [| y l IH]; simpl.
  - ring.
  - rewrite IH. ring.
Qed.

Lemma square_minus_squares (w : list Q) :
  (sumQ w ^ 2 - sumQ (map (fun x => x ^ 2) w) == sum_distinct_pairs w)%Q.
Proof.
  induction w as [| x w IH]; simpl sumQ; simpl map; simpl sum_distinct_pairs.
  - ring.
  - rewrite sumQ_both_orders, <- IH. simpl sumQ. ring.
Qed.

Lemma product_of_sums (a b : list Q) :
  (sumQ a * sumQ b == sum_all_pairs a b)%Q.
Proof.
  unfold sum_all_pairs. induction a as [| x a IH]; simpl.
  - ring.
  - rewrite <- IH, sumQ_scale. ring.
Qed.

(** The weighted normalization counts each pair once per order and leaves
    out the pairs of an object with itself: for an autocorrelation it is the
    sum of w_i w_j over the ordered pairs of two different objects, for a
    cross-correlation the sum of w1_i w2_j over all pairs. *)
Theorem weighted_normalization_sums_pairs (self : counter) (t : string) :
  weight_type self = Some t ->
  (forall w, autocorr self = true -> weights1 self = Some w ->
     exists x, normalization self = ok (PyFloat x)
               /\ (x == sum_distinct_pairs w)%Q)
  /\ (forall w1 w2, autocorr self = false ->
        weights1 self = Some w1 -> weights2 self = Some w2 ->
        exists x, normalization self = ok (PyFloat x)
                  /\ (x == sum_all_pairs w1 w2)%Q).
Proof.
  intros Ht. unfold normalization. rewrite Ht. split.
  - intros w -> ->. eexists. split; [reflexivity |]. apply square_minus_squares.
  - intros w1 w2 -> -> ->. eexists. split; [reflexivity |]. apply product_of_sums.
Qed.

Lemma weighted_normalization_sums_pairs_witness :
  exists x,
    normalization
      (set_weights1 (Some [1; 2; 3]%Q)
         (set_weight_type (Some "pair_product") (set_autocorr true blank)))
    = ok (PyFloat x)
    /\ (x == sum_distinct_pairs [1; 2; 3])%Q.
Proof.
  exact (proj1 (@weighted_normalization_sums_pairs
                  (set_weights1 (Some [1; 2; 3]%Q)
                     (set_weight_type (Some "pair_product")
                        (set_autocorr true blank)))
                  "pair_product" eq_refl)
           [1; 2; 3]%Q eq_refl eq_refl).
Defined.

Lemma sumQ_ones (n : nat) : (sumQ (repeat 1 n) == inject_Z (Z.of_nat n))%Q.
Proof.
  induction n as [| n IH].
  - reflexivity.
  - cbn [repeat sumQ fold_right]. fold (sumQ (repeat 1%Q n)). rewrite IH.
    rewrite Nat2Z.inj_succ, <- Z.add_1_l, inject_Z_plus. reflexivity.
Qed.

Lemma map_repeat {A B : Type} (f : A -> B) (x : A) (n : nat) :
  map f (repeat x n) = repeat (f x) n.
Proof. induction n as [| n IH]; simpl; [reflexivity | now rewrite IH]. Qed.

(** With every weight equal to 1 the weighted normalization is the
    unweighted one: N (N - 1) for N objects, N1 N2 for two catalogs. *)
Theorem unit_weights_normalization (self : counter) (t : string) :
  weight_type self = Some t ->
  (forall N, autocorr self = true -> weights1 self = Some (repeat 1%Q N) ->
     exists x, normalization self = ok (PyFloat x)
               /\ (x == inject_Z (Z.of_nat N * (Z.of_nat N - 1)))%Q)
  /\ (forall N1 N2, autocorr self = false ->
        weights1 self = Some (repeat 1%Q N1) ->
        weights2 self = Some (repeat 1%Q N2) ->
        exists x, normalization self = ok (PyFloat x)
                  /\ (x == inject_Z (Z.of_nat N1 * Z.of_nat N2))%Q).
Proof.
  intros Ht. unfold normalization. rewrite Ht. split.
  - intros N -> ->. eexists. split; [reflexivity |].
    rewrite map_repeat. change (1 ^ 2)%Q with 1%Q.
    rewrite sumQ_ones, inject_Z_mult.
    unfold Z.sub. rewrite inject_Z_plus. change (inject_Z (- (1))) with (- (1))%Q.
    ring.
  - intros N1 N2 -> -> ->. eexists. split; [reflexivity |].
    rewrite !sumQ_ones, inject_Z_mult. reflexivity.
Qed.

Lemma unit_weights_normalization_witness :
  exists x,
    normalization
      (set_weights1 (Some [1; 1; 1]%Q)
         (set_weight_type (Some "pair_product") (set_autocorr true blank)))
    = ok (PyFloat x)
    /\ (x == 6)%Q.
Proof.
  exact (proj1 (@unit_weights_normalization
                  (set_weights1 (Some [1; 1; 1]%Q)
                     (set_weight_type (Some "pair_product")
                        (set_autocorr true blank)))
                  "pair_product" eq_refl)
           3%nat eq_refl eq_refl).
Defined.

(** ** Positions of a catalog *)

Lemma check_same_iff (size : Z) (dtype : string) (ps : list parray) :
  check_same size dtype ps = ok tt <-> uniform size dtype ps.
Proof.
  unfold uniform. induction ps as [| p ps IH]; simpl.
  - split; [constructor | reflexivity].
  - destruct (len (p_data p) =? size) eqn:Es; simpl.
    + apply Z.eqb_eq in Es.
      destruct (String.eqb (p_dtype p) dtype) eqn:Ed; simpl.
      * apply String.eqb_eq in Ed. rewrite IH. split.
        -- intros H. constructor; [split; assumption | exact H].
        -- intros H. now inversion H.
      * apply String.eqb_neq in Ed. split; [discriminate |].
        intros H. inversion H as [| ? ? [_ Hd] _]; subst. contradiction.
    + apply Z.eqb_neq in Es. split; [discriminate |].
      intros H. inversion H as [| ? ? [Hs _] _]; subst. contradiction.
Qed.

Lemma check_same_error (size : Z) (dtype : string) (ps : list parray) :
  check_same size dtype ps = ok tt
  \/ is_PairCounterError (check_same size dtype ps) = true.
Proof.
  induction ps as [| p ps IH]; simpl; [now left |].
  destruct (negb (len (p_data p) =? size)); [now right |].
  destruct (negb (String.eqb (p_dtype p) dtype)); [now right | exact IH].
Qed.

Section Positions.

Variable cartesian_to_sky : list parray -> res (list parray).
Variable sky_to_cartesian : list parray -> res (list parray).

Let check := check_positions cartesian_to_sky sky_to_cartesian.
Let set_positions := _set_positions cartesian_to_sky sky_to_cartesian.

Lemma check_positions_ok (self : counter) (pt : string) (ps ps' : list parray) :
  check self pt ps = ok ps' ->
  len ps' = ncomponents (mode self)
  /\ exists p rest, ps' = p :: rest
                    /\ uniform (len (p_data p)) (p_dtype p) ps'.
Proof.
  unfold check, check_positions, ncomponents. intros H.
  apply bind_ok in H as (qs & Hqs & H).
  apply bind_ok in H as (p0 & Hp0 & H).
  apply bind_ok in H as ([] & Hsame & H).
  injection H as <-.
  apply getitem_0_ok in Hp0 as (rest & ->).
  split.
  - destruct (String.eqb (mode self) "theta");
      apply bind_ok in Hqs as (rs & _ & Hqs);
      match type of Hqs with
      | (if negb (?n =? ?k) then _ else _) = _ =>
          destruct (n =? k) eqn:E; simpl in Hqs; [| discriminate Hqs]
      end;
      injection Hqs as <-; now apply Z.eqb_eq.
  - exists p0, rest. split; [reflexivity |].
    apply check_same_iff in Hsame. unfold uniform in *.
    constructor; [split; reflexivity | exact Hsame].
Qed.

(** Cartesian positions in a mode other than theta: the arrays are taken as
    they are, and accepted exactly when there are three of them, of one
    length and one element type. *)
Lemma check_positions_xyz (self : counter) (ps : list parray) :
  String.eqb (mode self) "theta" = false ->
  (check self "xyz" ps = ok ps
   /\ exists a b c, ps = [a; b; c]
        /\ uniform (len (p_data a)) (p_dtype a) ps)
  \/ (is_PairCounterError (check self "xyz" ps) = true
      /\ ~ (exists a b c, ps = [a; b; c]
              /\ uniform (len (p_data a)) (p_dtype a) ps)).
Proof.
  intros Hmode. unfold check, check_positions. rewrite Hmode.
  cbn [String.eqb Ascii.eqb Bool.eqb negb bind ok].
  destruct (len ps =? 3) eqn:Elen; cbn [negb bind ok].
  - apply Z.eqb_eq in Elen. unfold len in Elen.
    destruct ps as [| a [| b [| c [| d ps]]]]; simpl in Elen; try lia.
    cbn [bind ok getitem nth_error drop_first tl].
    destruct (check_same_error (len (p_data a)) (p_dtype a) [b; c]) as [Hok | Herr].
    + left. rewrite Hok. split; [reflexivity |].
      exists a, b, c. split; [reflexivity |].
      apply check_same_iff in Hok. constructor; [split; reflexivity | exact Hok].
    + right. split.
      * destruct (check_same _ _ _) as [[] | []]; try discriminate Herr; reflexivity.
      * intros (a' & b' & c' & Heq & Hu). injection Heq as <- <- <-.
        inversion Hu as [| ? ? _ Hrest]; subst.
        apply check_same_iff in Hrest. rewrite Hrest in Herr. discriminate Herr.
  - right. split; [reflexivity |].
    intros (a & b & c & -> & _). discriminate Elen.
Qed.

Lemma set_positions_shape (p1 : list parray) (p2 : option (list parray))
    (pt : string) (self c : counter) :
  set_positions p1 p2 pt self = ok c ->
  autocorr c = negb (is_some p2)
  /\ len (positions1 c) = ncomponents (mode self)
  /\ len (positions2 c) = ncomponents (mode self)
  /\ (exists p rest, positions1 c = p :: rest
        /\ uniform (len (p_data p)) (p_dtype p) (positions1 c))
  /\ (p2 = None -> Forall (fun q => q = None) (positions2 c))
  /\ (p2 <> None ->
      exists q rest, positions2 c = map Some (q :: rest)
        /\ uniform (len (p_data q)) (p_dtype q) (q :: rest)).
Proof.
  unfold set_positions, _set_positions. intros H.
  apply bind_ok in H as (q1 & H1 & H).
  apply check_positions_ok in H1 as (Hlen1 & p & rest & -> & Hu1).
  change (mode (set_positions1 p1 self)) with (mode self) in Hlen1.
  destruct p2 as [q |].
  - apply bind_ok in H as (q2 & H2 & H). injection H as <-.
    apply check_positions_ok in H2 as (Hlen2 & q0 & rest2 & -> & Hu2).
    cbn [autocorr positions1 positions2 set_positions1 set_positions2
         set_autocorr is_some negb mode] in *.
    repeat split; try assumption.
    + unfold len in *. now rewrite length_map.
    + exists p, rest. split; [reflexivity | exact Hu1].
    + discriminate.
    + intros _. exists q0, rest2. split; [reflexivity | exact Hu2].
  - injection H as <-.
    cbn [autocorr positions1 positions2 set_positions1 set_positions2
         set_autocorr is_some negb mode].
    repeat split; try assumption.
    + rewrite <- Hlen1. unfold len. cbn [List.length]. now rewrite repeat_length.
    + exists p, rest. split; [reflexivity | exact Hu1].
    + intros _. constructor; [reflexivity |].
      apply Forall_forall. intros x Hx. now apply repeat_spec in Hx.
    + congruence.
Qed.

(** After [_set_positions] every catalog has the number of position arrays
    of the mode (2 for theta, 3 otherwise), all of one length and one
    element type; [autocorr] says whether a second catalog was given, and
    without one [positions2] holds that many [None]. *)
Theorem set_positions_invariant (p1 : list parray) (p2 : option (list parray))
    (pt : string) (self c : counter) :
  set_positions p1 p2 pt self = ok c ->
  autocorr c = negb (is_some p2)
  /\ len (positions1 c) = ncomponents (mode self)
  /\ len (positions2 c) = ncomponents (mode self)
  /\ (exists p rest, positions1 c = p :: rest
        /\ uniform (len (p_data p)) (p_dtype p) (positions1 c))
  /\ (p2 = None -> Forall (fun q => q = None) (positions2 c))
  /\ (p2 <> None ->
      exists q rest, positions2 c = map Some (q :: rest)
        /\ uniform (len (p_data q)) (p_dtype q) (q :: rest)).
Proof. apply set_positions_shape. Qed.

(** Cartesian positions of one catalog, in a mode other than theta: three
    arrays of one length and one element type are stored unchanged, with
    [autocorr] set and three [None] as second positions; anything else is
    refused with [PairCounterError]. *)
Theorem set_positions_cartesian (p1 : list parray) (pt : string) (self : counter) :
  String.eqb (mode self) "theta" = false ->
  lower pt = "xyz" \/ lower pt = "auto" ->
  ((exists a b c, p1 = [a; b; c] /\ uniform (len (p_data a)) (p_dtype a) p1) ->
     set_positions p1 None pt self =
       ok (set_positions2 [None; None; None]
             (set_autocorr true (set_positions1 p1 self))))
  /\ (~ (exists a b c, p1 = [a; b; c] /\ uniform (len (p_data a)) (p_dtype a) p1) ->
      is_PairCounterError (set_positions p1 None pt self) = true).
Proof.
  intros Hmode Hpt.
  assert (Hcheck : set_positions p1 None pt self =
            (q <- check (set_positions1 p1 self) "xyz" p1 ;;
             ok (set_positions2 (repeat None (List.length q))
                   (set_autocorr true (set_positions1 q (set_positions1 p1 self)))))).
  { unfold set_positions, _set_positions, check.
    destruct Hpt as [-> | ->]; cbn [String.eqb Ascii.eqb Bool.eqb];
      [| rewrite Hmode]; reflexivity. }
  rewrite Hcheck.
  destruct (check_positions_xyz (set_positions1 p1 self) p1 Hmode)
    as [[Hok Hshape] | [Herr Hshape]].
  - split; [| intros Hn; contradiction].
    intros _. rewrite Hok. cbn [bind ok].
    destruct Hshape as (a & b & c & -> & _). reflexivity.
  - split; [intros Hy; contradiction |].
    intros _. destruct (check _ _ _) as [[] | q]; try discriminate Herr.
    reflexivity.
Qed.

End Positions.

Lemma set_positions_invariant_witness :
  let xyz := [ {| p_dtype := "f8"; p_data := [0; 1]%Q |};
               {| p_dtype := "f8"; p_data := [2; 3]%Q |};
               {| p_dtype := "f8"; p_data := [4; 5]%Q |} ] in
  exists c,
    _set_positions (fun p => ok p) (fun p => ok p) xyz None "xyz" (set_mode "s" blank)
      = ok c
    /\ autocorr c = true /\ len (positions1 c) = 3 /\ len (positions2 c) = 3.
Proof.
  intros xyz. eexists. split; [reflexivity |].
  destruct (@set_positions_invariant (fun p => ok p) (fun p => ok p)
              xyz None "xyz" (set_mode "s" blank) _ eq_refl)
    as (H1 & H2 & H3 & _).
  split; [exact H1 | split; [exact H2 | exact H3]].
Defined.

Lemma set_positions_cartesian_witness :
  let xyz := [ {| p_dtype := "f8"; p_data := [0; 1]%Q |};
               {| p_dtype := "f8"; p_data := [2; 3]%Q |};
               {| p_dtype := "f8"; p_data := [4; 5]%Q |} ] in
  _set_positions (fun p => ok p) (fun p => ok p) xyz None "XYZ" (set_mode "s" blank)
    = ok (set_positions2 [None; None; None]
            (set_autocorr true (set_positions1 xyz (set_mode "s" blank))))
  /\ is_PairCounterError
       (_set_positions (fun p => ok p) (fun p => ok p) (drop_first xyz) None "auto"
          (set_mode "s" blank)) = true.
Proof.
  intros xyz. split.
  - apply (@set_positions_cartesian (fun p => ok p) (fun p => ok p)
             xyz "XYZ" (set_mode "s" blank) eq_refl (or_introl eq_refl)).
    exists {| p_dtype := "f8"; p_data := [0; 1]%Q |},
           {| p_dtype := "f8"; p_data := [2; 3]%Q |},
           {| p_dtype := "f8"; p_data := [4; 5]%Q |}.
    split; [reflexivity |]. repeat constructor.
  - apply (@set_positions_cartesian (fun p => ok p) (fun p => ok p)
             (drop_first xyz) "auto" (set_mode "s" blank) eq_refl
             (or_intror eq_refl)).
    intros (a & b & c & H & _). discriminate H.
Defined.

(** ** Weights of a catalog *)

Lemma set_weight_type_allowed (wt : option string) (self c : counter) :
  _set_weight_type wt self = ok c ->
  wt = None \/ wt = Some "auto" \/ wt = Some "pair_product".
Proof.
  unfold _set_weight_type. change (weight_type (set_weight_type wt self)) with wt.
  destruct wt as [s |]; [| now left].
  unfold optstr_in, existsb, optstr_eqb.
  destruct (String.eqb s "auto") eqn:Ea.
  - apply String.eqb_eq in Ea. subst. auto.
  - destruct (String.eqb s "pair_product") eqn:Ep.
    + apply String.eqb_eq in Ep. subst. auto.
    + discriminate.
Qed.

Lemma check_weights_ok (w : option (list Q)) (size : Z) :
  check_weights w size = ok tt -> exists v, w = Some v /\ len v = size.
Proof.
  unfold check_weights. destruct w as [v |]; [| discriminate].
  destruct (len v =? size) eqn:E; simpl; [| discriminate].
  intros _. exists v. split; [reflexivity | now apply Z.eqb_eq].
Qed.

Lemma set_weights_resolved (w1 w2 : option (list Q)) (wt : option string)
    (self c : counter) :
  _set_weights w1 w2 wt self = ok c ->
  c = set_weights2 (weights2 c)
        (set_weights1 (weights1 c) (set_weight_type (weight_type c) self))
  /\ ((weight_type c = None /\ weights1 c = None /\ weights2 c = None
       /\ (wt = None \/ (wt = Some "auto" /\ w1 = None)))
      \/ (weight_type c = Some "pair_product"
          /\ (wt = Some "pair_product" \/ wt = Some "auto")
          /\ weights2 c = w2
          /\ (exists w, w1 = Some w /\ weights1 c = Some w
                /\ size_of1 (positions1 self) = ok (len w))
          /\ (autocorr self = true -> w2 = None)
          /\ (autocorr self = false ->
              exists w', w2 = Some w'
                /\ size_of2 (positions2 self) = ok (len w')))).
Proof.
  intros H. split.
  { revert H. unfold _set_weights. intros H.
    apply bind_ok in H as (s1 & Hs1 & H).
    unfold _set_weight_type in Hs1.
    destruct (negb _); [discriminate Hs1 |]. injection Hs1 as <-.
    apply bind_ok in H as ([] & _ & H).
    apply bind_ok in H as ([] & _ & H).
    match type of H with
    | match weight_type ?s with _ => _ end = _ => destruct (weight_type s) eqn:Ewt
    end.
    - apply bind_ok in H as (n1' & _ & H).
      apply bind_ok in H as ([] & _ & H).
      match type of H with
      | (if ?b then _ else _) = _ => destruct b
      end.
      + apply bind_ok in H as (n2' & _ & H).
        apply bind_ok in H as ([] & _ & H).
        injection H as <-. cbn.
        destruct (optstr_eqb _ _); [destruct w1 |]; reflexivity.
      + injection H as <-. cbn.
        destruct (optstr_eqb _ _); [destruct w1 |]; reflexivity.
    - injection H as <-. cbn.
      destruct (optstr_eqb _ _); [destruct w1 |]; reflexivity. }
  unfold _set_weights in H.
  apply bind_ok in H as (s1 & Hs1 & H).
  pose proof (set_weight_type_allowed _ _ Hs1) as Hwt.
  unfold _set_weight_type in Hs1.
  destruct (negb _); [discriminate Hs1 |]. injection Hs1 as <-.
  apply bind_ok in H as ([] & Ha & H).
  apply bind_ok in H as ([] & Hb & H).
  cbn [autocorr set_weight_type weight_type] in *.
  destruct Hwt as [-> | [-> | ->]]; cbn [optstr_eqb String.eqb Ascii.eqb Bool.eqb] in H.
  - (* weight_type None *)
    cbn [weight_type set_weight_type] in H. injection H as <-.
    left. cbn. repeat split; auto.
  - (* weight_type 'auto' *)
    destruct w1 as [w |]; cbn [weight_type set_weight_type] in H.
    + right. apply bind_ok in H as (n1' & Hn1 & H).
      apply bind_ok in H as ([] & Hc1 & H).
      cbn [weights1 set_weights1 positions1 set_weight_type autocorr
           set_weights2 positions2] in *.
      apply check_weights_ok in Hc1 as (v & Hv & Hlen). injection Hv as <-.
      subst n1'.
      destruct (autocorr self) eqn:Eauto; cbn [negb] in H.
      * injection H as <-. cbn.
        repeat split; auto.
        -- exists w. auto.
        -- intros _. destruct w2; [discriminate Ha | reflexivity].
        -- discriminate.
      * apply bind_ok in H as (n2' & Hn2 & H).
        apply bind_ok in H as ([] & Hc2 & H). injection H as <-.
        cbn [weights2 set_weights2] in Hc2.
        apply check_weights_ok in Hc2 as (v' & -> & Hlen'). subst n2'.
        cbn. repeat split; auto.
        -- exists w. auto.
        -- discriminate.
        -- intros _. exists v'. auto.
    + injection H as <-. left. cbn. repeat split; auto.
  - (* weight_type 'pair_product' *)
    cbn [weight_type set_weight_type] in H.
    right. apply bind_ok in H as (n1' & Hn1 & H).
    apply bind_ok in H as ([] & Hc1 & H).
    cbn [weights1 set_weights1 positions1 set_weight_type autocorr
         set_weights2 positions2] in *.
    apply check_weights_ok in Hc1 as (v & -> & Hlen). subst n1'.
    destruct (autocorr self) eqn:Eauto; cbn [negb] in H.
    + injection H as <-. cbn.
      repeat split; auto.
      * exists v. auto.
      * intros _. destruct w2; [discriminate Ha | reflexivity].
      * discriminate.
    + apply bind_ok in H as (n2' & Hn2 & H).
      apply bind_ok in H as ([] & Hc2 & H). injection H as <-.
      cbn [weights2 set_weights2] in Hc2.
      apply check_weights_ok in Hc2 as (v' & -> & Hlen'). subst n2'.
      cbn. repeat split; auto.
      * exists v. auto.
      * discriminate.
      * intros _. exists v'. auto.
Qed.

(** After [_set_weights] the weight type is resolved: it is [None], and then
    no weights are kept (none were given, or [weight_type] was passed as
    [None]), or it is 'pair_product', and then the first catalog keeps its
    weights, one per object, and so does the second catalog of a
    cross-correlation.  'auto' never remains. *)
Theorem set_weights_invariant (w1 w2 : option (list Q)) (wt : option string)
    (self c : counter) :
  _set_weights w1 w2 wt self = ok c ->
  (weight_type c = None /\ weights1 c = None /\ weights2 c = None
   /\ (wt = None \/ (wt = Some "auto" /\ w1 = None)))
  \/ (weight_type c = Some "pair_product"
      /\ (wt = Some "pair_product" \/ wt = Some "auto")
      /\ weights2 c = w2
      /\ (exists w, w1 = Some w /\ weights1 c = Some w
            /\ size_of1 (positions1 self) = ok (len w))
      /\ (autocorr self = true -> w2 = None)
      /\ (autocorr self = false ->
          exists w', w2 = Some w'
            /\ size_of2 (positions2 self) = ok (len w'))).
Proof. intros H. exact (proj2 (set_weights_resolved _ _ _ _ H)). Qed.

Lemma set_weights_invariant_witness :
  let self :=
    set_autocorr true
      (set_positions1 [ {| p_dtype := "f8"; p_data := [0; 1]%Q |} ] blank) in
  exists c,
    _set_weights (Some [2; 3]%Q) None (Some "auto") self = ok c
    /\ weight_type c = Some "pair_product" /\ weights1 c = Some [2; 3]%Q.
Proof.
  intros self. eexists. split; [reflexivity |].
  destruct (@set_weights_invariant (Some [2; 3]%Q) None (Some "auto") self _ eq_refl)
    as [(H & _) | (H1 & _ & _ & (w & Hw & H2 & _) & _)].
  - discriminate H.
  - injection Hw as <-. split; assumption.
Defined.

(** Weights of an autocorrelation, with weighting asked for or left to
    'auto': they are accepted exactly when there is one weight per object;
    any other number of weights is refused with [PairCounterError]. *)
Theorem set_weights_length_check (w : list Q) (wt : string) (self : counter)
    (p : parray) (rest : list parray) :
  autocorr self = true ->
  positions1 self = p :: rest ->
  wt = "auto" \/ wt = "pair_product" ->
  (len w = len (p_data p) ->
     _set_weights (Some w) None (Some wt) self =
       ok (set_weights2 None
             (set_weights1 (Some w) (set_weight_type (Some "pair_product") self))))
  /\ (len w <> len (p_data p) ->
      _set_weights (Some w) None (Some wt) self =
        raise (PairCounterError
                 "Weight array should be of the same length as position arrays")).
Proof.
  intros Hauto Hpos Hwt.
  assert (H : _set_weights (Some w) None (Some wt) self =
            (check_weights (Some w) (len (p_data p)) ;;;
             ok (set_weights2 None
                   (set_weights1 (Some w)
                      (set_weight_type (Some "pair_product") self))))).
  { unfold _set_weights, _set_weight_type, size_of1.
    destruct Hwt as [-> | ->];
      cbn [weight_type set_weight_type optstr_in existsb optstr_eqb String.eqb
           Ascii.eqb Bool.eqb orb negb bind ok autocorr is_some weights1
           set_weights1 positions1 set_weights2];
      rewrite Hauto, Hpos;
      cbn [bind ok is_some negb getitem nth_error autocorr set_weights1
           set_weights2 set_weight_type];
      rewrite ?Hauto; cbn [negb];
      destruct (check_weights (Some w) (len (p_data p))) as [e | []]; reflexivity. }
  rewrite H. unfold check_weights. split; intros Hlen.
  - apply Z.eqb_eq in Hlen. now rewrite Hlen.
  - apply Z.eqb_neq in Hlen. now rewrite Hlen.
Qed.

Lemma set_weights_length_check_witness :
  let self :=
    set_autocorr true
      (set_positions1 [ {| p_dtype := "f8"; p_data := [0; 1]%Q |} ] blank) in
  _set_weights (Some [2; 3]%Q) None (Some "auto") self =
    ok (set_weights2 None
          (set_weights1 (Some [2; 3]%Q) (set_weight_type (Some "pair_product") self)))
  /\ _set_weights (Some [2; 3; 4]%Q) None (Some "pair_product") self =
       raise (PairCounterError
                "Weight array should be of the same length as position arrays").
Proof.
  intros self. split.
  - apply (proj1 (@set_weights_length_check [2; 3]%Q "auto" self
                    {| p_dtype := "f8"; p_data := [0; 1]%Q |} []
                    eq_refl eq_refl (or_introl eq_refl))).
    reflexivity.
  - apply (proj2 (@set_weights_length_check [2; 3; 4]%Q "pair_product" self
                    {| p_dtype := "f8"; p_data := [0; 1]%Q |} []
                    eq_refl eq_refl (or_intror eq_refl))).
    discriminate.
Defined.

(** Weighting by 'pair_product' asked for without weights: the length check
    meets [None] and raises [TypeError]. *)
Lemma set_weights_pair_product_without_weights (self : counter) (p : parray)
    (rest : list parray) :
  positions1 self = p :: rest ->
  _set_weights None None (Some "pair_product") self = raise TypeError.
Proof.
  intros Hpos. unfold _set_weights, _set_weight_type, size_of1.
  cbn [weight_type set_weight_type optstr_in existsb optstr_eqb String.eqb
       Ascii.eqb Bool.eqb orb negb bind ok autocorr is_some weights1
       set_weights1 positions1 set_weights2].
  destruct (autocorr self); cbn [bind ok]; rewrite Hpos; reflexivity.
Qed.

(** ** Normalization after the catalogs are set *)

Section Setup.

Variable cartesian_to_sky : list parray -> res (list parray).
Variable sky_to_cartesian : list parray -> res (list parray).

(** Once [_set_positions] and [_set_weights] have accepted the catalogs,
    [normalization] returns: none of its look-ups can fail.  Without weights
    the value is a non-negative integer. *)
Theorem normalization_defined_after_setup (p1 : list parray)
    (p2 : option (list parray)) (pt : string) (w1 w2 : option (list Q))
    (wt : option string) (self s1 s2 : counter) :
  _set_positions cartesian_to_sky sky_to_cartesian p1 p2 pt self = ok s1 ->
  _set_weights w1 w2 wt s1 = ok s2 ->
  exists n, normalization s2 = ok n
            /\ (weight_type s2 = None -> exists z, n = PyInt z /\ 0 <= z).
Proof.
  intros Hp Hw.
  apply set_positions_shape in Hp as (Hauto & _ & _ & (p & rest & Hp1 & _) & _ & Hp2).
  apply set_weights_resolved in Hw as (Hs2 & Hw).
  assert (Hpos1 : positions1 s2 = p :: rest) by (rewrite Hs2; exact Hp1).
  assert (Hpos2 : positions2 s2 = positions2 s1) by (rewrite Hs2; reflexivity).
  assert (Hauto2 : autocorr s2 = autocorr s1) by (rewrite Hs2; reflexivity).
  unfold normalization, size_of1, size_of2. rewrite Hpos1, Hpos2, Hauto2.
  cbn [getitem nth_error bind ok].
  destruct Hw as [(Hwt & _) | (Hwt & _ & Hw2 & (w & _ & Hw1 & _) & _ & Hcross)];
    rewrite Hwt.
  - destruct (autocorr s1) eqn:Ea.
    + eexists. split; [reflexivity |]. intros _. eexists. split; [reflexivity |].
      unfold len. nia.
    + destruct p2 as [q |]; [| discriminate Hauto].
      destruct Hp2 as (q0 & rest2 & -> & _); [discriminate |].
      cbn [map getitem nth_error bind ok].
      eexists. split; [reflexivity |]. intros _. eexists. split; [reflexivity |].
      unfold len. nia.
  - destruct (autocorr s1) eqn:Ea.
    + rewrite Hw1. eexists. split; [reflexivity | discriminate].
    + destruct (Hcross eq_refl) as (w' & -> & _).
      rewrite Hw1, Hw2. eexists. split; [reflexivity | discriminate].
Qed.

End Setup.

Lemma normalization_defined_after_setup_witness :
  let xyz := [ {| p_dtype := "f8"; p_data := [0; 1]%Q |};
               {| p_dtype := "f8"; p_data := [2; 3]%Q |};
               {| p_dtype := "f8"; p_data := [4; 5]%Q |} ] in
  exists s1 s2 n,
    _set_positions (fun p => ok p) (fun p => ok p) xyz None "xyz" (set_mode "s" blank)
      = ok s1
    /\ _set_weights None None (Some "auto") s1 = ok s2
    /\ normalization s2 = ok n.
Proof.
  intros xyz. eexists. eexists.
  assert (H1 : _set_positions (fun p => ok p) (fun p => ok p) xyz None "xyz"
                 (set_mode "s" blank)
               = ok (set_positions2 [None; None; None]
                       (set_autocorr true (set_positions1 xyz (set_mode "s" blank)))))
    by reflexivity.
  assert (H2 : _set_weights None None (Some "auto")
                 (set_positions2 [None; None; None]
                    (set_autocorr true (set_positions1 xyz (set_mode "s" blank))))
               = ok (set_weights2 None (set_weights1 None (set_weight_type None
                       (set_positions2 [None; None; None]
                          (set_autocorr true
                             (set_positions1 xyz (set_mode "s" blank))))))))
    by reflexivity.
  destruct (@normalization_defined_after_setup (fun p => ok p) (fun p => ok p)
              _ _ _ _ _ _ _ _ _ H1 H2) as (n & Hn & _).
  exists n. split; [exact H1 | split; [exact H2 | exact Hn]].
Defined.

(** ** Detection of evenly spaced edges *)

Lemma tolerance_of_Qeq (x y : Q) :
  (x == y)%Q -> (Qabs (x - y) <= atol + rtol * Qabs y)%Q.
Proof.
  intros H.
  assert (H0 : (Qabs (x - y) == 0)%Q).
  { rewrite H. setoid_replace (y - y)%Q with 0%Q by ring. reflexivity. }
  rewrite H0.
  pose proof (Qabs_nonneg y) as Hy.
  unfold atol, rtol. nra.
Qed.

Lemma within_tolerance_of_Qeq (g f : nat -> Q) (l : list Q) (s : list nat) :
  Forall2 Qeq l (map g s) ->
  (forall i, In i s -> (g i == f i)%Q) ->
  within_tolerance l (map f s).
Proof.
  unfold within_tolerance. revert l.
  induction s as [| i s IH]; intros l Hl Hgf; simpl in *.
  - inversion Hl. constructor.
  - inversion Hl as [| x ? l' ? Hx Hl']; subst. constructor.
    + apply tolerance_of_Qeq. rewrite Hx. apply Hgf. now left.
    + apply IH; [exact Hl' |]. intros j Hj. apply Hgf. now right.
Qed.

Lemma arith_succ (a d : Q) (m : nat) :
  arith a d (S m) = (arith a d m ++ [(a + inject_Z (Z.of_nat m) * d)%Q])%list.
Proof. unfold arith. rewrite seq_S, map_app. reflexivity. Qed.

Lemma linspace_succ (first last : Q) (m : nat) :
  np_linspace first last (S (S m)) =
    (map (fun i => (inject_Z (Z.of_nat i)
                    * ((last - first) / inject_Z (Z.of_nat (S (S m)) - 1)) + first)%Q)
         (seq 0 (S m)) ++ [last])%list.
Proof.
  unfold np_linspace.
  replace (1 <? S (S m))%nat with true by reflexivity.
  rewrite (seq_S (S m)), map_app. cbn [map]. rewrite removelast_last.
  reflexivity.
Qed.

Lemma even_spacing_within_tolerance (a d : Q) (n : nat) (e0 : list Q)
    (first last : Q) :
  Forall2 Qeq e0 (arith a d n) ->
  getitem e0 0 = ok first ->
  getlast e0 = ok last ->
  within_tolerance e0 (np_linspace first last (List.length e0)).
Proof.
  intros He Hf Hl.
  assert (Hlen : List.length e0 = n).
  { apply Forall2_length in He. unfold arith in He.
    now rewrite length_map, length_seq in He. }
  rewrite Hlen.
  destruct n as [| [| m]].
  - (* no edge: [getitem] fails *)
    inversion He; subst. discriminate Hf.
  - (* one edge *)
    unfold arith in He. cbn [seq map] in He.
    inversion He as [| x ? l ? Hx Hnil]; subst. inversion Hnil; subst.
    injection Hf as <-.
    unfold np_linspace, within_tolerance. cbn [Nat.ltb Nat.leb seq map].
    constructor; [| constructor].
    apply tolerance_of_Qeq. ring.
  - (* two edges or more *)
    rewrite arith_succ in He.
    apply Forall2_app_inv_r in He as (init & tail & Hinit & Htail & ->).
    inversion Htail as [| x ? l ? Hx Hnil]; subst. inversion Hnil; subst.
    rewrite getlast_app in Hl. injection Hl as <-.
    assert (Hfirst : (first == a)%Q).
    { unfold arith in Hinit. cbn [seq map] in Hinit.
      inversion Hinit as [| y ? l ? Hy _]; subst.
      injection Hf as <-. rewrite Hy. cbn. ring. }
    rewrite linspace_succ. unfold within_tolerance.
    apply Forall2_app.
    + apply (within_tolerance_of_Qeq
               (fun i => (a + inject_Z (Z.of_nat i) * d)%Q)); [exact Hinit |].
      intros i _. cbv beta. rewrite Hx, Hfirst.
      assert (Hm : ~ (inject_Z (Z.of_nat (S (S m)) - 1) == 0)%Q).
      { replace (Z.of_nat (S (S m)) - 1) with (Z.of_nat (S m)) by lia.
        unfold Qeq. simpl. lia. }
      replace (Z.of_nat (S (S m)) - 1) with (Z.of_nat (S m)) in * by lia.
      change (Z.pos (Pos.of_succ_nat m)) with (Z.of_nat (S m)).
      generalize dependent (inject_Z (Z.of_nat (S m))). intros k _ Hk.
      generalize (inject_Z (Z.of_nat i)). intros j.
      field. exact Hk.
    + constructor; [| constructor]. apply tolerance_of_Qeq. reflexivity.
Qed.

Lemma even_spacing_detected (self : counter) (e0 : list Q)
    (rest : list (list Q)) (a d : Q) (n : nat) :
  edges self = e0 :: rest ->
  (0 < n)%nat ->
  Forall2 Qeq e0 (arith a d n) ->
  _set_bin_type "auto" self = ok (set_bin_type "lin" self).
Proof.
  intros He Hn Hsp.
  assert (Hne : exists x l, e0 = x :: l).
  { destruct n; [lia |]. unfold arith in Hsp. cbn [seq map] in Hsp.
    inversion Hsp; subst. eauto. }
  destruct Hne as (x & l & ->).
  destruct (getlast_total x l) as (y & Hy).
  rewrite (auto_bin_type_general self (first := x) (last := y) He eq_refl Hy).
  pose proof (@even_spacing_within_tolerance a d n (x :: l) x y Hsp eq_refl Hy) as Hw.
  apply allclose_iff in Hw; [| now rewrite length_linspace].
  now rewrite Hw.
Qed.

(** Every evenly spaced edge array, of one edge or more, is detected as
    linear: with [bin_type] 'auto' the resolved type is 'lin'. *)
Theorem even_spacing_is_lin (self : counter) (e0 : list Q)
    (rest : list (list Q)) (a d : Q) (n : nat) :
  edges self = e0 :: rest ->
  (0 < n)%nat ->
  Forall2 Qeq e0 (arith a d n) ->
  _set_bin_type "auto" self = ok (set_bin_type "lin" self).
Proof. apply even_spacing_detected. Qed.

Lemma even_spacing_is_lin_witness :
  _set_bin_type "auto" (set_edges [[1; 3; 5; 7]%Q] blank)
    = ok (set_bin_type "lin" (set_edges [[1; 3; 5; 7]%Q] blank)).
Proof.
  apply (@even_spacing_is_lin (set_edges [[1; 3; 5; 7]%Q] blank)
           [1; 3; 5; 7]%Q [] 1%Q 2%Q 4%nat eq_refl).
  - lia.
  - repeat constructor.
Defined.

(** Two edges are always evenly spaced. *)
Corollary two_edges_are_lin (self : counter) (lo hi : Q) (rest : list (list Q)) :
  edges self = [lo; hi] :: rest ->
  _set_bin_type "auto" self = ok (set_bin_type "lin" self).
Proof.
  intros He.
  apply (@even_spacing_detected self [lo; hi] rest lo (hi - lo)%Q 2%nat He); [lia |].
  unfold arith. cbn [seq map].
  constructor; [cbn; ring | constructor; [cbn; ring | constructor]].
Qed.

(** ** Bin type given or resolved *)

Lemma set_bin_type_same (self : counter) : set_bin_type (bin_type self) self = self.
Proof. now destruct self. Qed.

Lemma set_bin_type_values (bt : string) (self c : counter) :
  _set_bin_type bt self = ok c ->
  bin_type c = "lin" \/ bin_type c = "custom" \/ bin_type c = "auto".
Proof.
  unfold _set_bin_type.
  change (bin_type (set_bin_type (lower bt) self)) with (lower bt).
  unfold str_in, existsb.
  destruct (String.eqb (lower bt) "lin") eqn:El.
  - apply String.eqb_eq in El. rewrite El. cbn.
    intros H. injection H as <-. now left.
  - destruct (String.eqb (lower bt) "custom") eqn:Ec.
    + apply String.eqb_eq in Ec. rewrite Ec. cbn.
      intros H. injection H as <-. right. now left.
    + destruct (String.eqb (lower bt) "auto") eqn:Ea; [| discriminate].
      cbn [orb negb]. intros H.
      apply bind_ok in H as (e0 & _ & H).
      apply bind_ok in H as (first & _ & H).
      apply bind_ok in H as (last & _ & H).
      destruct (np_allclose _ _); injection H as <-; cbn.
      * now left.
      * apply String.eqb_eq in Ea. right. now right.
Qed.

(** The bin type [_set_bin_type] stores is 'lin', 'custom' or 'auto', and
    storing it again changes nothing: a counter that came out of the
    detection comes out of it unchanged a second time. *)
Theorem set_bin_type_idempotent (bt : string) (self c : counter) :
  _set_bin_type bt self = ok c ->
  (bin_type c = "lin" \/ bin_type c = "custom" \/ bin_type c = "auto")
  /\ _set_bin_type (bin_type c) c = ok c.
Proof.
  intros H. pose proof (set_bin_type_values _ _ H) as Hv.
  split; [exact Hv |].
  pose proof (set_bin_type_frame _ _ H) as Hc.
  destruct Hv as [Hv | [Hv | Hv]].
  - rewrite Hv. change (_set_bin_type "lin" c) with (ok (set_bin_type "lin" c)).
    rewrite <- Hv. now rewrite set_bin_type_same.
  - rewrite Hv. change (_set_bin_type "custom" c) with (ok (set_bin_type "custom" c)).
    rewrite <- Hv. now rewrite set_bin_type_same.
  - (* still 'auto': the edges were inspected and are not evenly spaced *)
    revert H. unfold _set_bin_type.
    change (bin_type (set_bin_type (lower bt) self)) with (lower bt).
    destruct (negb (str_in (lower bt) _)); [discriminate |].
    destruct (String.eqb (lower bt) "auto") eqn:Ea.
    + intros H.
      apply bind_ok in H as (e0 & He0 & H).
      apply bind_ok in H as (first & Hf & H).
      apply bind_ok in H as (last & Hl & H).
      destruct (np_allclose _ _) eqn:Eclose.
      * injection H as <-. discriminate Hv.
      * injection H as <-. rewrite Hv.
        cbn [lower lower_ascii nat_of_ascii ascii_of_nat].
        cbn -[np_allclose np_linspace getitem getlast].
        cbn in He0. rewrite He0. cbn [bind ok]. rewrite Hf. cbn [bind ok].
        rewrite Hl. cbn [bind ok]. rewrite Eclose.
        apply String.eqb_eq in Ea. rewrite Ea. reflexivity.
    + intros H. injection H as <-. cbn in Hv.
      rewrite Hv in Ea. discriminate Ea.
Qed.

Lemma set_bin_type_idempotent_witness :
  exists c,
    _set_bin_type "Auto" (set_edges [[1; 2; 4]%Q] blank) = ok c
    /\ bin_type c = "auto"
    /\ _set_bin_type (bin_type c) c = ok c.
Proof.
  eexists. split; [reflexivity |].
  split; [reflexivity |].
  exact (proj2 (@set_bin_type_idempotent "Auto" (set_edges [[1; 2; 4]%Q] blank)
                  _ eq_refl)).
Defined.

(** ** Analytic counter: the counts in mode s *)

Lemma analytic_init_unfold (m : string) (e : edges_arg) (b : option boxval)
    (n1' : Z) (n2' : option Z) (los' : string) :
  In los' ["midpoint"; "endpoint"; "firstpoint"; "x"; "y"; "z"] ->
  AnalyticTwoPointCounter.__init__ m e b n1' n2' los' =
    (s <- _set_edges e "auto" (set_mode m blank) ;;
     s' <- AnalyticTwoPointCounter.run
             (set_autocorr (negb (is_some n2'))
                (set_n2 n2'
                   (set_n1 n1'
                      (set_los los'
                         (set_boxsize
                            match b with
                            | Some v => Some v
                            | None => Some (BoxArray [NonFin; NonFin; NonFin])
                            end s))))) ;;
     _set_default_sep s').
Proof.
  intros Hlos. unfold AnalyticTwoPointCounter.__init__.
  destruct (_set_edges e "auto" (set_mode m blank)) as [x | s]; [reflexivity |].
  cbn [bind ok]. rewrite set_boxsize_total. cbn [bind ok].
  rewrite (set_los_allowed _ Hlos). reflexivity.
Qed.

Lemma analytic_normalization_value (self : counter) (n1' : Z) (n2' : option Z) :
  n1 self = n1' -> n2 self = n2' -> autocorr self = negb (is_some n2') ->
  AnalyticTwoPointCounter.normalization self =
    ok match n2' with
       | None => n1' * (n1' - 1)
       | Some m => n1' * m
       end.
Proof.
  intros H1 H2 Ha. unfold AnalyticTwoPointCounter.normalization.
  rewrite H1, H2, Ha. now destruct n2'.
Qed.

(** The counter the analytic constructor returns in mode s, for a box given
    as an array. *)
Lemma analytic_init_s (e0 : list Q) (box : list f8) (n1' : Z) (n2' : option Z)
    (los' : string) :
  e0 <> [] ->
  In los' ["midpoint"; "endpoint"; "firstpoint"; "x"; "y"; "z"] ->
  exists c,
    AnalyticTwoPointCounter.__init__ "s" (EdgesArray e0) (Some (BoxArray box))
      n1' n2' los' = ok c
    /\ edges c = [e0] /\ norm c = None
    /\ wcounts c =
         Arr1 (map2 (fun hi lo =>
                       f8_div (Fin (inject_Z match n2' with
                                             | None => n1' * (n1' - 1)
                                             | Some m => n1' * m
                                             end
                                    * (sphere_volume hi - sphere_volume lo)))
                              (f8_prod box))
                    (drop_first e0) (drop_last e0))
    /\ exists v, sep c = Arr1 v /\ vec_eq v (map Fin (midpoints e0)).
Proof.
  intros He Hlos. rewrite (analytic_init_unfold _ _ _ _ _ Hlos).
  destruct (@set_edges_one_array e0 (set_mode "s" blank) He eq_refl) as (bt & ->).
  cbn [bind ok].
  match goal with
  | |- context [AnalyticTwoPointCounter.run ?s] =>
      rewrite (@analytic_run_s s e0 [] box
                 match n2' with
                 | None => n1' * (n1' - 1)
                 | Some m => n1' * m
                 end eq_refl eq_refl eq_refl)
  end.
  2:{ now apply analytic_normalization_value. }
  cbn [bind ok].
  match goal with
  | |- context [_set_default_sep ?s] =>
      destruct (@default_sep_one_dimensional s e0 eq_refl) as (v & -> & Hv)
  end.
  eexists. split; [reflexivity |].
  split; [reflexivity |]. split; [reflexivity |]. split; [reflexivity |].
  exists v. split; [reflexivity | exact Hv].
Qed.

Lemma vec_sum_finite (l : list Q) : vec_sum (map Fin l) = Fin (sumQ l).
Proof.
  unfold vec_sum, sumQ. induction l as [| x l IH]; [reflexivity |].
  cbn [map fold_right]. rewrite IH. reflexivity.
Qed.

Lemma sumQ_cons (x : Q) (l : list Q) : sumQ (x :: l) = (x + sumQ l)%Q.
Proof. reflexivity. Qed.

Lemma last_cons_cons {A : Type} (x y d d' : A) (l : list A) :
  List.last (x :: y :: l) d = List.last (y :: l) d'.
Proof.
  revert y. induction l as [| z l IH]; intros y; [reflexivity |].
  change (List.last (x :: y :: z :: l) d) with (List.last (y :: z :: l) d).
  change (List.last (y :: z :: l) d) with (List.last (z :: l) d).
  change (List.last (y :: z :: l) d') with (List.last (z :: l) d').
  destruct l as [| t l]; [reflexivity |].
  change (List.last (z :: t :: l) d) with (List.last (t :: l) d).
  change (List.last (z :: t :: l) d') with (List.last (t :: l) d').
  specialize (IH t).
  change (List.last (x :: t :: l) d) with (List.last (t :: l) d) in IH.
  exact IH.
Qed.

Lemma telescope (F : Q -> Q) (k : Q) (x : Q) (l : list Q) :
  (sumQ (map2 (fun hi lo => k * (F hi - F lo)) (drop_first (x :: l))
           (drop_last (x :: l)))
   == k * (F (List.last (x :: l) x) - F x))%Q.
Proof.
  revert x. induction l as [| y l IH]; intros x.
  - cbn. ring.
  - assert (Hstep :
      map2 (fun hi lo => (k * (F hi - F lo))%Q) (drop_first (x :: y :: l))
        (drop_last (x :: y :: l))
      = (k * (F y - F x))%Q
        :: map2 (fun hi lo => (k * (F hi - F lo))%Q) (drop_first (y :: l))
             (drop_last (y :: l))) by reflexivity.
    rewrite Hstep, sumQ_cons, IH.
    rewrite (last_cons_cons x y x y l). ring.
Qed.

Lemma getlast_last {A : Type} (x : A) (l : list A) :
  getlast (x :: l) = ok (List.last (x :: l) x).
Proof.
  destruct (exists_last (l := x :: l)) as (init & y & Hy); [discriminate |].
  rewrite Hy, getlast_app, last_last. reflexivity.
Qed.

Lemma scale_finite (n : Z) (v d : Q) :
  ~ (v == 0)%Q ->
  AnalyticTwoPointCounter.scale n (Fin v) (Fin d) = Fin (inject_Z n * d / v).
Proof.
  intros Hv. unfold AnalyticTwoPointCounter.scale, f8_mul, f8_lift2, f8_div.
  destruct (Qeq_bool v 0) eqn:E; [| reflexivity].
  apply Qeq_bool_iff in E. contradiction.
Qed.

Lemma map2_ext {A B C : Type} (f g : A -> B -> C) (a : list A) (b : list B) :
  (forall x y, f x y = g x y) -> map2 f a b = map2 g a b.
Proof.
  intros Hfg. revert b.
  induction a as [| x a IH]; intros [| y b]; simpl; try reflexivity.
  now rewrite Hfg, IH.
Qed.

Lemma sumQ_map2_ext {A B : Type} (f g : A -> B -> Q) (a : list A) (b : list B) :
  (forall x y, (f x y == g x y)%Q) ->
  (sumQ (map2 f a b) == sumQ (map2 g a b))%Q.
Proof.
  intros Hfg. revert b.
  induction a as [| x a IH]; intros [| y b]; simpl; try reflexivity.
  rewrite Hfg. apply Qplus_comp; [reflexivity | apply IH].
Qed.

(** The counts of the analytic counter in mode s add up to the
    normalization times the volume between the first and the last edge, over
    the volume of the box: the shells between consecutive edges telescope. *)
Theorem analytic_s_total (e0 : list Q) (first last b0 b1 b2 : Q) (n1' : Z)
    (n2' : option Z) (los' : string) :
  getitem e0 0 = ok first ->
  getlast e0 = ok last ->
  In los' ["midpoint"; "endpoint"; "firstpoint"; "x"; "y"; "z"] ->
  ~ (b0 * b1 * b2 == 0)%Q ->
  exists c,
    AnalyticTwoPointCounter.__init__ "s" (EdgesArray e0)
      (Some (BoxArray [Fin b0; Fin b1; Fin b2])) n1' n2' los' = ok c
    /\ f8_eq (nd_sum (wcounts c))
         (Fin (inject_Z match n2' with
                        | None => n1' * (n1' - 1)
                        | Some m => n1' * m
                        end
               * (sphere_volume last - sphere_volume first)
               / (b0 * b1 * b2))).
Proof.
  intros Hf Hl Hlos Hvol.
  apply getitem_0_ok in Hf as (l & ->).
  rewrite getlast_last in Hl.
  assert (Hlast : List.last (first :: l) first = last) by (now injection Hl).
  clear Hl.
  destruct (@analytic_init_s (first :: l) [Fin b0; Fin b1; Fin b2] n1' n2' los')
    as (c & Hc & _ & _ & Hw & _); [discriminate | exact Hlos |].
  exists c. split; [exact Hc |].
  rewrite Hw, f8_prod_three.
  set (n := match n2' with None => n1' * (n1' - 1) | Some m => n1' * m end).
  assert (Hv : ~ (1 * b0 * b1 * b2 == 0)%Q).
  { intros H. apply Hvol. rewrite <- H. ring. }
  rewrite (map2_ext _
             (fun hi lo => Fin (inject_Z n * (sphere_volume hi - sphere_volume lo)
                                / (1 * b0 * b1 * b2)))).
  2:{ intros hi lo. unfold f8_div.
      destruct (Qeq_bool (1 * b0 * b1 * b2) 0) eqn:E; [| reflexivity].
      apply Qeq_bool_iff in E. contradiction. }
  rewrite <- (map_map2 Fin). cbn [nd_sum]. rewrite vec_sum_finite. cbn [f8_eq].
  setoid_replace (b0 * b1 * b2)%Q with (1 * b0 * b1 * b2)%Q by ring.
  rewrite (sumQ_map2_ext _
             (fun hi lo => (inject_Z n / (1 * b0 * b1 * b2))
                           * (sphere_volume hi - sphere_volume lo))%Q).
  2:{ intros hi lo. generalize (inject_Z n) (sphere_volume hi) (sphere_volume lo).
      generalize dependent (1 * b0 * b1 * b2)%Q. intros v Hv k Vh Vl.
      field. exact Hv. }
  rewrite (telescope sphere_volume), Hlast.
  generalize dependent (1 * b0 * b1 * b2)%Q. intros v Hv.
  generalize (inject_Z n). intros k.
  generalize (sphere_volume last) (sphere_volume first).
  intros Vl Vf.
  field. exact Hv.
Qed.

Lemma analytic_s_total_witness :
  exists c,
    AnalyticTwoPointCounter.__init__ "s" (EdgesArray [1; 2; 4]%Q)
      (Some (BoxArray [Fin 10; Fin 10; Fin 10])) 10 None "z" = ok c
    /\ f8_eq (nd_sum (wcounts c))
         (Fin (90 * (sphere_volume 4 - sphere_volume 1) / (10 * 10 * 10))).
Proof.
  apply (@analytic_s_total [1; 2; 4]%Q 1 4 10 10 10 10 None "z").
  - reflexivity.
  - reflexivity.
  - simpl. auto 10.
  - vm_compute. discriminate.
Defined.

Lemma Forall_map2 {A B C : Type} (R : A -> B -> Prop) (P : C -> Prop)
    (f : A -> B -> C) (a : list A) (b : list B) :
  Forall2 R a b -> (forall x y, R x y -> P (f x y)) -> Forall P (map2 f a b).
Proof.
  intros H Hf. induction H as [| x y a b Hxy _ IH]; simpl; constructor; auto.
Qed.

Lemma Forall_map2_all {A B C : Type} (P : C -> Prop) (f : A -> B -> C)
    (a : list A) (b : list B) :
  (forall x y, P (f x y)) -> Forall P (map2 f a b).
Proof.
  intros Hf. revert b.
  induction a as [| x a IH]; intros [| y b]; simpl; constructor; auto.
Qed.

Lemma Forall2_flip {A B : Type} (R : A -> B -> Prop) (a : list A) (b : list B) :
  Forall2 R a b -> Forall2 (fun y x => R x y) b a.
Proof. intros H. induction H; constructor; auto. Qed.

Lemma shell_nonnegative (lo hi : Q) :
  (0 <= lo <= hi)%Q -> (0 <= sphere_volume hi - sphere_volume lo)%Q.
Proof.
  intros [H0 Hle]. unfold sphere_volume.
  assert (Hpi : (0 < np_pi)%Q) by reflexivity.
  generalize dependent np_pi. intros p Hp.
  assert (Hcube : (0 <= hi ^ 3 - lo ^ 3)%Q).
  { setoid_replace (hi ^ 3 - lo ^ 3)%Q
      with ((hi - lo) * (hi * hi + hi * lo + lo * lo))%Q by ring.
    assert (Hhi : (0 <= hi)%Q) by lra.
    pose proof (Qmult_le_0_compat hi hi Hhi Hhi).
    pose proof (Qmult_le_0_compat hi lo Hhi H0).
    pose proof (Qmult_le_0_compat lo lo H0 H0).
    apply Qmult_le_0_compat; lra. }
  setoid_replace (4 / 3 * p * hi ^ 3 - 4 / 3 * p * lo ^ 3)%Q
    with ((4 / 3 * p) * (hi ^ 3 - lo ^ 3))%Q by ring.
  apply Qmult_le_0_compat; [| exact Hcube].
  apply Qmult_le_0_compat; [unfold Qle; simpl; lia | lra].
Qed.

Lemma div_nonnegative (x v : Q) : (0 <= x)%Q -> (0 < v)%Q -> (0 <= x / v)%Q.
Proof.
  intros Hx Hv. unfold Qdiv.
  apply Qmult_le_0_compat; [exact Hx |].
  apply Qlt_le_weak, Qinv_lt_0_compat, Hv.
Qed.

Lemma bounded_count (n d v N D m : Q) :
  (0 <= n <= N)%Q -> (0 <= d <= D)%Q -> (0 < m)%Q -> (m <= v)%Q ->
  (0 <= n * d / v <= N * D / m)%Q.
Proof.
  intros Hn Hd Hm Hv.
  assert (Hv0 : (0 < v)%Q) by lra.
  assert (Hx : (0 <= n * d)%Q) by (apply Qmult_le_0_compat; lra).
  assert (HX : (n * d <= N * D)%Q) by (now apply Qmult_le_compat_nonneg).
  split; [now apply div_nonnegative |].
  apply Qle_shift_div_r; [exact Hv0 |].
  assert (Hq : (0 <= N * D / m)%Q) by (apply div_nonnegative; lra).
  assert (Hm' : (N * D / m * m == N * D)%Q) by (field; lra).
  assert (Hmv : (N * D / m * m <= N * D / m * v)%Q).
  { rewrite !(Qmult_comm (N * D / m)). now apply Qmult_le_compat_r. }
  lra.
Qed.

Lemma cube_bounded (x B : Q) : (0 <= x <= B)%Q -> (0 <= x ^ 3 <= B ^ 3)%Q.
Proof.
  intros H.
  setoid_replace (x ^ 3)%Q with (x * x * x)%Q by ring.
  setoid_replace (B ^ 3)%Q with (B * B * B)%Q by ring.
  assert (H2 : (0 <= x * x <= B * B)%Q).
  { split; [apply Qmult_le_0_compat; lra | now apply Qmult_le_compat_nonneg]. }
  split; [apply Qmult_le_0_compat; lra | now apply Qmult_le_compat_nonneg].
Qed.

Lemma shell_bounded (lo hi B : Q) :
  (0 <= lo <= hi)%Q -> (hi <= B)%Q ->
  (0 <= sphere_volume hi - sphere_volume lo <= 5 * B ^ 3)%Q.
Proof.
  intros Hlo Hhi. split; [now apply shell_nonnegative |].
  unfold sphere_volume.
  assert (Hpi : (0 <= 4 / 3 * np_pi <= 5)%Q) by (split; vm_compute; discriminate).
  generalize dependent (4 / 3 * np_pi)%Q. intros k Hk.
  assert (H1 : (0 <= hi ^ 3 <= B ^ 3)%Q) by (apply cube_bounded; lra).
  assert (H2 : (0 <= lo ^ 3)%Q) by (apply (cube_bounded (B := hi)); lra).
  assert (H3 : (k * hi ^ 3 <= 5 * B ^ 3)%Q) by (now apply Qmult_le_compat_nonneg).
  assert (H4 : (0 <= k * lo ^ 3)%Q) by (apply Qmult_le_0_compat; lra).
  lra.
Qed.

(** Within the float range: edges that do not decrease between 0 and 10^6,
    box sides between 10^-6 and 10^6 and an object number of at most 10^9 in
    absolute value.  The analytic autocorrelation in mode s is then built,
    and every count is a number between 0 and 10^55: no count is negative,
    and none, nor the value of any step that leads to it, comes near the
    largest float. *)
Theorem analytic_s_nonnegative (e0 : list Q) (b0 b1 b2 : Q) (n1' : Z)
    (los' : string) :
  e0 <> [] ->
  In los' ["midpoint"; "endpoint"; "firstpoint"; "x"; "y"; "z"] ->
  Z.abs n1' <= 10 ^ 9 ->
  (1 # 10 ^ 6 <= b0 <= 10 ^ 6)%Q ->
  (1 # 10 ^ 6 <= b1 <= 10 ^ 6)%Q ->
  (1 # 10 ^ 6 <= b2 <= 10 ^ 6)%Q ->
  Forall2 (fun lo hi => 0 <= lo <= hi /\ hi <= 10 ^ 6)%Q
          (drop_last e0) (drop_first e0) ->
  exists c w,
    AnalyticTwoPointCounter.__init__ "s" (EdgesArray e0)
      (Some (BoxArray [Fin b0; Fin b1; Fin b2])) n1' None los' = ok c
    /\ wcounts c = Arr1 w
    /\ Forall (fun x => exists q, x = Fin q /\ (0 <= q <= 10 ^ 55)%Q) w.
Proof.
  intros He Hlos Hn1 H0 H1 H2 Hsorted.
  destruct (@analytic_init_s e0 [Fin b0; Fin b1; Fin b2] n1' None los' He Hlos)
    as (c & Hc & _ & _ & Hw & _).
  exists c. eexists. split; [exact Hc |]. split; [exact Hw |].
  apply Forall2_flip in Hsorted.
  eapply Forall_map2; [exact Hsorted |]. cbv beta. intros hi lo [Hlohi Hhi].
  rewrite f8_prod_three. unfold f8_div.
  assert (Hlow : (0 < 1 # 10 ^ 6)%Q) by reflexivity.
  assert (Hb01 : ((1 # 10 ^ 6) * (1 # 10 ^ 6) <= b0 * b1)%Q).
  { apply Qmult_le_compat_nonneg; split; try apply H0; try apply H1;
      apply Qlt_le_weak, Hlow. }
  assert (Hv : ((1 # 10 ^ 6) * (1 # 10 ^ 6) * (1 # 10 ^ 6) <= 1 * b0 * b1 * b2)%Q).
  { rewrite Qmult_1_l.
    apply Qmult_le_compat_nonneg; split; try exact Hb01; try apply H2;
      [vm_compute; discriminate | apply Qlt_le_weak, Hlow]. }
  assert (Hm : (0 < (1 # 10 ^ 6) * (1 # 10 ^ 6) * (1 # 10 ^ 6))%Q) by reflexivity.
  assert (Hv0 : (0 < 1 * b0 * b1 * b2)%Q) by (eapply Qlt_le_trans; eassumption).
  destruct (Qeq_bool (1 * b0 * b1 * b2) 0) eqn:E.
  - apply Qeq_bool_iff in E. rewrite E in Hv0. discriminate Hv0.
  - eexists. split; [reflexivity |].
    assert (Hn : (0 <= inject_Z (n1' * (n1' - 1)) <= inject_Z (2 * 10 ^ 18))%Q).
    { rewrite <- !Zle_Qle. change (inject_Z 0) with 0%Q. rewrite <- (Zle_Qle 0).
      nia. }
    pose proof (shell_bounded Hlohi Hhi) as Hd.
    pose proof (bounded_count Hn Hd Hm Hv) as [Hq0 Hq1].
    split; [exact Hq0 |].
    eapply Qle_trans; [exact Hq1 |]. vm_compute. discriminate.
Qed.

Lemma analytic_s_nonnegative_witness :
  exists c w,
    AnalyticTwoPointCounter.__init__ "s" (EdgesArray [0; 1; 2]%Q)
      (Some (BoxArray [Fin 10; Fin 10; Fin 10])) 10 None "z" = ok c
    /\ wcounts c = Arr1 w
    /\ Forall (fun x => exists q, x = Fin q /\ (0 <= q <= 10 ^ 55)%Q) w.
Proof.
  apply (@analytic_s_nonnegative [0; 1; 2]%Q 10 10 10 10 "z").
  - discriminate.
  - simpl. auto 10.
  - vm_compute. discriminate.
  - split; vm_compute; discriminate.
  - split; vm_compute; discriminate.
  - split; vm_compute; discriminate.
  - repeat constructor; vm_compute; discriminate.
Defined.

(** ** Analytic counter: the box, and the missing norm *)

Lemma analytic_run_frame (self c : counter) :
  AnalyticTwoPointCounter.run self = ok c -> c = set_wcounts (wcounts c) self.
Proof.
  unfold AnalyticTwoPointCounter.run. intros H.
  apply bind_ok in H as (dv & _ & H).
  apply bind_ok in H as (n & _ & H).
  apply bind_ok in H as (v & _ & H).
  injection H as <-. reflexivity.
Qed.

(** The analytic constructor never assigns [norm]: on every counter it
    returns, [normalized_wcounts] raises [AttributeError]. *)
Theorem analytic_counter_has_no_norm (m : string) (e : edges_arg)
    (b : option boxval) (n1' : Z) (n2' : option Z) (los' : string) (c : counter) :
  AnalyticTwoPointCounter.__init__ m e b n1' n2' los' = ok c ->
  norm c = None /\ normalized_wcounts c = raise AttributeError.
Proof.
  unfold AnalyticTwoPointCounter.__init__. intros H.
  apply bind_ok in H as (s1 & H1 & H).
  apply bind_ok in H as (s2 & H2 & H).
  apply bind_ok in H as (s3 & H3 & H).
  apply bind_ok in H as (s4 & H4 & H).
  apply set_edges_frame in H1 as (t & H1 & _).
  apply set_boxsize_frame in H2. apply set_los_frame in H3.
  apply analytic_run_frame in H4. apply set_default_sep_frame in H.
  assert (Hnorm : norm c = None).
  { rewrite H, H4, H3, H2, H1. reflexivity. }
  split; [exact Hnorm |].
  unfold normalized_wcounts. now rewrite Hnorm.
Qed.

Lemma analytic_counter_has_no_norm_witness :
  exists c,
    AnalyticTwoPointCounter.__init__ "s" (EdgesArray [0; 1; 2]%Q)
      (Some (BoxArray [Fin 10; Fin 10; Fin 10])) 10 None "z" = ok c
    /\ normalized_wcounts c = raise AttributeError.
Proof.
  assert (H : exists c,
    AnalyticTwoPointCounter.__init__ "s" (EdgesArray [0; 1; 2]%Q)
      (Some (BoxArray [Fin 10; Fin 10; Fin 10])) 10 None "z" = ok c)
    by (eexists; vm_compute; reflexivity).
  destruct H as (c & Hc). exists c. split; [exact Hc |].
  exact (proj2 (analytic_counter_has_no_norm _ _ _ _ _ _ Hc)).
Defined.

Lemma analytic_run_s_without_array (self : counter) (e0 : list Q)
    (rest : list (list Q)) (n : Z) :
  mode self = "s" ->
  edges self = e0 :: rest ->
  AnalyticTwoPointCounter.normalization self = ok n ->
  AnalyticTwoPointCounter.boxsize_prod (boxsize self) = raise AttributeError ->
  AnalyticTwoPointCounter.run self = raise AttributeError.
Proof.
  intros Hmode He Hn Hb. unfold AnalyticTwoPointCounter.run.
  rewrite Hmode, He, Hn, Hb. reflexivity.
Qed.

Lemma analytic_init_s_box (e0 : list Q) (box : list f8) (n1' : Z)
    (n2' : option Z) (los' : string) (c : counter) :
  e0 <> [] ->
  In los' ["midpoint"; "endpoint"; "firstpoint"; "x"; "y"; "z"] ->
  AnalyticTwoPointCounter.__init__ "s" (EdgesArray e0) (Some (BoxArray box))
    n1' n2' los' = ok c ->
  boxsize c = Some (BoxArray box).
Proof.
  intros He Hlos. rewrite (analytic_init_unfold _ _ _ _ _ Hlos).
  destruct (@set_edges_one_array e0 (set_mode "s" blank) He eq_refl) as (bt & ->).
  cbn [bind ok]. intros Hc.
  apply bind_ok in Hc as (s' & Hrun & Hsep).
  apply analytic_run_frame in Hrun. apply set_default_sep_frame in Hsep.
  rewrite Hsep, Hrun. reflexivity.
Qed.

(** A box that is no numpy array cannot be used by the analytic counter in
    mode s: a number or a tuple is kept as given and [run] raises
    [AttributeError] at [boxsize.prod()]; with no box at all the counter is
    built over three [nan] sides and none of its counts is a number. *)
Theorem analytic_s_box_forms (e0 : list Q) (n1' : Z) (n2' : option Z)
    (los' : string) :
  e0 <> [] ->
  In los' ["midpoint"; "endpoint"; "firstpoint"; "x"; "y"; "z"] ->
  (forall x, AnalyticTwoPointCounter.__init__ "s" (EdgesArray e0)
               (Some (BoxNum x)) n1' n2' los' = raise AttributeError)
  /\ (forall t, AnalyticTwoPointCounter.__init__ "s" (EdgesArray e0)
                  (Some (BoxTuple t)) n1' n2' los' = raise AttributeError)
  /\ (exists c, AnalyticTwoPointCounter.__init__ "s" (EdgesArray e0)
                  None n1' n2' los' = ok c
                /\ boxsize c = Some (BoxArray [NonFin; NonFin; NonFin])
                /\ all_nonfinite (wcounts c)).
Proof.
  intros He Hlos.
  assert (Hfail : forall b,
            AnalyticTwoPointCounter.boxsize_prod (Some b) = raise AttributeError ->
            AnalyticTwoPointCounter.__init__ "s" (EdgesArray e0) (Some b) n1' n2' los'
            = raise AttributeError).
  { intros b Hb. rewrite (analytic_init_unfold _ _ _ _ _ Hlos).
    destruct (@set_edges_one_array e0 (set_mode "s" blank) He eq_refl) as (bt & ->).
    cbn [bind ok].
    match goal with
    | |- context [AnalyticTwoPointCounter.run ?s] =>
        rewrite (@analytic_run_s_without_array s e0 []
                   match n2' with
                   | None => n1' * (n1' - 1)
                   | Some m => n1' * m
                   end eq_refl eq_refl)
    end.
    - reflexivity.
    - now apply analytic_normalization_value.
    - exact Hb. }
  split; [| split].
  - intros x. now apply Hfail.
  - intros t. now apply Hfail.
  - assert (Hsame :
      AnalyticTwoPointCounter.__init__ "s" (EdgesArray e0) None n1' n2' los'
      = AnalyticTwoPointCounter.__init__ "s" (EdgesArray e0)
          (Some (BoxArray [NonFin; NonFin; NonFin])) n1' n2' los').
    { now rewrite !(analytic_init_unfold _ _ _ _ _ Hlos). }
    rewrite Hsame.
    destruct (@analytic_init_s e0 [NonFin; NonFin; NonFin] n1' n2' los' He Hlos)
      as (c & Hc & _ & _ & Hw & _).
    exists c. split; [exact Hc |]. split.
    + exact (@analytic_init_s_box e0 _ n1' n2' los' c He Hlos Hc).
    + rewrite Hw. cbn [all_nonfinite]. apply Forall_map2_all.
      intros hi lo. reflexivity.
Qed.

Lemma analytic_s_box_forms_witness :
  AnalyticTwoPointCounter.__init__ "s" (EdgesArray [0; 1; 2]%Q)
    (Some (BoxTuple [10; 10; 10]%Q)) 10 None "z" = raise AttributeError.
Proof.
  assert (He : [0; 1; 2]%Q <> []) by discriminate.
  assert (Hlos : In "z" ["midpoint"; "endpoint"; "firstpoint"; "x"; "y"; "z"])
    by (simpl; auto 10).
  exact (proj1 (proj2 (@analytic_s_box_forms [0; 1; 2]%Q 10 None "z" He Hlos))
           [10; 10; 10]%Q).
Defined.

(** ** Analytic counter: two edge arrays, and mode rp *)

Lemma map2_same {A B C : Type} (f : B -> B -> C) (g h : A -> B) (l : list A) :
  map2 f (map g l) (map h l) = map (fun x => f (g x) (h x)) l.
Proof. induction l as [| x l IH]; simpl; [reflexivity | now rewrite IH]. Qed.

Lemma Forall2_map2 {A B C : Type} (R : C -> C -> Prop) (f g : A -> B -> C)
    (a : list A) (b : list B) :
  (forall x y, R (f x y) (g x y)) -> Forall2 R (map2 f a b) (map2 g a b).
Proof.
  intros Hfg. revert b.
  induction a as [| x a IH]; intros [| y b]; simpl; constructor; auto.
Qed.

Lemma np_diff_map (k : Q -> f8) (l : list Q) :
  np_diff (map k l) =
    map2 (fun hi lo => f8_sub (k hi) (k lo)) (drop_first l) (drop_last l).
Proof. unfold np_diff. now rewrite drop_first_map, drop_last_map, map2_map. Qed.

Lemma np_diff_rows_map (R : Q -> list f8) (l : list Q) :
  np_diff_rows (map R l) =
    map2 (fun hi lo => map2 f8_sub (R hi) (R lo)) (drop_first l) (drop_last l).
Proof. unfold np_diff_rows. now rewrite drop_first_map, drop_last_map, map2_map. Qed.

Lemma Forall2_compose {A B C : Type} (R : A -> B -> Prop) (S : B -> C -> Prop)
    (T : A -> C -> Prop) (l : list A) (m : list B) (k : list C) :
  (forall x y z, R x y -> S y z -> T x z) ->
  Forall2 R l m -> Forall2 S m k -> Forall2 T l k.
Proof.
  intros Hrs H. revert k.
  induction H as [| x y l m Hxy _ IH]; intros k Hk; inversion Hk; subst;
    constructor; eauto.
Qed.

Lemma f8_eq_trans (x y z : f8) : f8_eq x y -> f8_eq y z -> f8_eq x z.
Proof.
  destruct x, y, z; simpl; try tauto. intros H1 H2. now rewrite H1.
Qed.

Lemma vec_eq_trans (x y z : list f8) : vec_eq x y -> vec_eq y z -> vec_eq x z.
Proof. apply Forall2_compose. exact f8_eq_trans. Qed.

Lemma mat_eq_trans (x y z : list (list f8)) :
  mat_eq x y -> mat_eq y z -> mat_eq x z.
Proof. apply Forall2_compose. exact vec_eq_trans. Qed.

(** The double difference of a table of products A(e) * m. *)
Lemma double_diff (A : Q -> Q) (e0 e1 : list Q) :
  np_diff_cols (np_diff_rows (map (fun e => map (fun m => Fin (A e * m)%Q) e1) e0)) =
    map2 (fun hi lo =>
            map2 (fun mh ml => Fin ((A hi * mh - A lo * mh) - (A hi * ml - A lo * ml))%Q)
                 (drop_first e1) (drop_last e1))
         (drop_first e0) (drop_last e0).
Proof.
  rewrite np_diff_rows_map. unfold np_diff_cols. rewrite map_map2.
  apply map2_ext. intros hi lo.
  rewrite map2_same. rewrite np_diff_map. reflexivity.
Qed.

Lemma scaled_double_diff (A : Q -> Q) (e0 e1 : list Q) (n : Z) (v : Q) :
  ~ (v == 0)%Q ->
  mat_eq
    (map (map (AnalyticTwoPointCounter.scale n (Fin v)))
       (np_diff_cols
          (np_diff_rows (map (fun e => map (fun m => Fin (A e * m)%Q) e1) e0))))
    (map2 (fun hi lo =>
             map2 (fun mh ml =>
                     Fin (inject_Z n * ((A hi - A lo) * (mh - ml)) / v)%Q)
                  (drop_first e1) (drop_last e1))
          (drop_first e0) (drop_last e0)).
Proof.
  intros Hv. rewrite double_diff, map_map2.
  apply Forall2_map2. intros hi lo.
  rewrite map_map2. apply Forall2_map2. intros mh ml.
  rewrite (scale_finite _ _ Hv). cbn [f8_eq].
  generalize (inject_Z n) (A hi) (A lo). intros k a b.
  field. exact Hv.
Qed.

(** With two edge arrays the analytic [run] fills bin (i, j) with the
    normalization times the shell between edges i and i+1 of the first
    array, times the width between edges j and j+1 of the second, over the
    box volume: spherical shells in mode smu, cylindrical shells of twice
    the disc area in mode rppi. *)
Theorem analytic_run_two_dimensional (self : counter) (e0 e1 : list Q)
    (rest : list (list Q)) (box : list f8) (v : Q) (n : Z) :
  edges self = e0 :: e1 :: rest ->
  boxsize self = Some (BoxArray box) ->
  f8_prod box = Fin v ->
  ~ (v == 0)%Q ->
  AnalyticTwoPointCounter.normalization self = ok n ->
  (mode self = "smu" ->
     exists W, AnalyticTwoPointCounter.run self = ok (set_wcounts (Arr2 W) self)
       /\ mat_eq W
            (map2 (fun hi lo =>
                     map2 (fun mh ml =>
                             Fin (inject_Z n
                                  * ((sphere_volume hi - sphere_volume lo) * (mh - ml))
                                  / v)%Q)
                          (drop_first e1) (drop_last e1))
                  (drop_first e0) (drop_last e0)))
  /\ (mode self = "rppi" ->
      exists W, AnalyticTwoPointCounter.run self = ok (set_wcounts (Arr2 W) self)
        /\ mat_eq W
             (map2 (fun hi lo =>
                      map2 (fun ph pl =>
                              Fin (inject_Z n
                                   * ((2 * disc_area hi - 2 * disc_area lo) * (ph - pl))
                                   / v)%Q)
                           (drop_first e1) (drop_last e1))
                   (drop_first e0) (drop_last e0))).
Proof.
  intros He Hbox Hprod Hv Hn. split; intros Hmode.
  - unfold AnalyticTwoPointCounter.run.
    rewrite Hmode, He, Hbox, Hn.
    cbn [String.eqb Ascii.eqb Bool.eqb getitem nth_error bind ok
         AnalyticTwoPointCounter.boxsize_prod nd_map].
    rewrite Hprod. eexists. split; [reflexivity |].
    apply (scaled_double_diff sphere_volume e0 e1 n Hv).
  - unfold AnalyticTwoPointCounter.run.
    rewrite Hmode, He, Hbox, Hn.
    cbn [String.eqb Ascii.eqb Bool.eqb getitem nth_error bind ok
         AnalyticTwoPointCounter.boxsize_prod nd_map].
    rewrite Hprod. eexists. split; [reflexivity |].
    pose proof (scaled_double_diff (fun e => 2 * np_pi * e ^ 2)%Q e0 e1 n Hv) as H.
    cbv beta in H.
    eapply mat_eq_trans; [exact H |].
    apply Forall2_map2. intros hi lo. apply Forall2_map2. intros ph pl.
    cbn [f8_eq]. unfold disc_area.
    generalize (inject_Z n) np_pi. intros k p. field. exact Hv.
Qed.

Lemma analytic_run_two_dimensional_witness :
  let self :=
    set_autocorr true
      (set_n1 10
         (set_boxsize (Some (BoxArray [Fin 10; Fin 10; Fin 10]))
            (set_edges [[0; 1; 2]; [0; 1 # 2; 1]]%Q (set_mode "smu" blank)))) in
  exists W,
    AnalyticTwoPointCounter.run self = ok (set_wcounts (Arr2 W) self)
    /\ mat_eq W
         (map2 (fun hi lo =>
                  map2 (fun mh ml =>
                          Fin (90 * ((sphere_volume hi - sphere_volume lo) * (mh - ml))
                               / 1000)%Q)
                       [1 # 2; 1]%Q [0; 1 # 2]%Q)
               [1; 2]%Q [0; 1]%Q).
Proof.
  intros self.
  assert (Hv : ~ (1000 == 0)%Q) by discriminate.
  exact (proj1 (@analytic_run_two_dimensional self [0; 1; 2]%Q [0; 1 # 2; 1]%Q []
                  [Fin 10; Fin 10; Fin 10] 1000%Q 90
                  eq_refl eq_refl eq_refl Hv eq_refl) eq_refl).
Defined.

Lemma scaled_column (A : Q -> Q) (L : Q) (e0 : list Q) (n : Z) (v : Q) :
  ~ (v == 0)%Q ->
  mat_eq
    (map (map (AnalyticTwoPointCounter.scale n (Fin v)))
       (np_diff_rows (map (fun e => [f8_mul (Fin (A e)) (Fin L)]) e0)))
    (map2 (fun hi lo => [Fin (inject_Z n * ((A hi - A lo) * L) / v)%Q])
          (drop_first e0) (drop_last e0)).
Proof.
  intros Hv. rewrite np_diff_rows_map, map_map2.
  apply Forall2_map2. intros hi lo.
  cbn [map2 map f8_mul f8_lift2 f8_sub]. rewrite (scale_finite _ _ Hv).
  constructor; [| constructor]. cbn [f8_eq].
  generalize (inject_Z n) (A hi) (A lo). intros k a b.
  field. exact Hv.
Qed.

(** In mode rp the analytic [run] needs a Cartesian line of sight: with
    los x, y or z it fills a single column, bin i holding the normalization
    times the annulus between edges i and i+1 times the box side along the
    line of sight, over the box volume; with los midpoint, endpoint or
    firstpoint, which [_set_los] accepts, ['xyz'.index(los)] raises
    [ValueError]. *)
Theorem analytic_run_rp (self : counter) (e0 : list Q) (rest : list (list Q))
    (box : list f8) (v : Q) (n : Z) :
  mode self = "rp" ->
  edges self = e0 :: rest ->
  boxsize self = Some (BoxArray box) ->
  f8_prod box = Fin v ->
  ~ (v == 0)%Q ->
  AnalyticTwoPointCounter.normalization self = ok n ->
  (forall i L,
     nth_error ["x"; "y"; "z"] i = Some (los self) ->
     nth_error box i = Some (Fin L) ->
     exists W, AnalyticTwoPointCounter.run self = ok (set_wcounts (Arr2 W) self)
       /\ mat_eq W
            (map2 (fun hi lo =>
                     [Fin (inject_Z n * ((disc_area hi - disc_area lo) * L) / v)%Q])
                  (drop_first e0) (drop_last e0)))
  /\ (In (los self) ["midpoint"; "endpoint"; "firstpoint"] ->
      AnalyticTwoPointCounter.run self = raise ValueError).
Proof.
  intros Hmode He Hbox Hprod Hv Hn. split.
  - intros i L Hlos HL.
    assert (Hidx : AnalyticTwoPointCounter.index_xyz (los self) = ok i).
    { destruct i as [| [| [| i]]]; simpl in Hlos;
        try (injection Hlos as <-; reflexivity).
      destruct i; discriminate Hlos. }
    unfold AnalyticTwoPointCounter.run.
    rewrite Hmode, He, Hbox, Hn, Hidx.
    cbn [String.eqb Ascii.eqb Bool.eqb getitem nth_error bind ok
         AnalyticTwoPointCounter.boxsize_prod AnalyticTwoPointCounter.boxsize_item
         nd_map].
    unfold getitem. rewrite HL, Hprod. cbn [bind ok].
    eexists. split; [reflexivity |].
    apply (scaled_column (fun e => np_pi * e ^ 2)%Q L e0 n Hv).
  - intros Hlos.
    assert (Hidx : AnalyticTwoPointCounter.index_xyz (los self) = raise ValueError).
    { simpl in Hlos. destruct Hlos as [<- | [<- | [<- | []]]]; reflexivity. }
    unfold AnalyticTwoPointCounter.run.
    rewrite Hmode, He, Hidx. reflexivity.
Qed.

Lemma analytic_run_rp_witness :
  let self :=
    set_autocorr true
      (set_n1 10
         (set_los "z"
            (set_boxsize (Some (BoxArray [Fin 10; Fin 20; Fin 30]))
               (set_edges [[0; 1; 2]]%Q (set_mode "rp" blank))))) in
  (exists W,
     AnalyticTwoPointCounter.run self = ok (set_wcounts (Arr2 W) self)
     /\ mat_eq W
          (map2 (fun hi lo => [Fin (90 * ((disc_area hi - disc_area lo) * 30) / 6000)%Q])
                [1; 2]%Q [0; 1]%Q))
  /\ AnalyticTwoPointCounter.run (set_los "midpoint" self) = raise ValueError.
Proof.
  intros self.
  assert (Hv : ~ (6000 == 0)%Q) by discriminate.
  split.
  - exact (proj1 (@analytic_run_rp self [0; 1; 2]%Q [] [Fin 10; Fin 20; Fin 30]
                    6000%Q 90 eq_refl eq_refl eq_refl eq_refl Hv eq_refl)
             2%nat 30%Q eq_refl eq_refl).
  - apply (proj2 (@analytic_run_rp (set_los "midpoint" self) [0; 1; 2]%Q []
                    [Fin 10; Fin 20; Fin 30] 6000%Q 90
                    eq_refl eq_refl eq_refl eq_refl Hv eq_refl)).
    simpl. auto.
Defined.

(** ** Analytic counter: two edge arrays at construction *)

Lemma set_edges_two_arrays (e0 e1 : list Q) (self : counter) :
  e0 <> [] ->
  str_in (mode self) ["smu"; "rppi"] = true ->
  exists bt, _set_edges (EdgesTuple [e0; e1]) "auto" self
             = ok (set_bin_type bt (set_edges [e0; e1] self)).
Proof.
  intros He Hmode. destruct e0 as [| x l]; [congruence |].
  destruct (getlast_total x l) as (y & Hy).
  unfold _set_edges. rewrite getitem_0_cons. cbn [bind ok].
  change (mode (set_edges [x :: l; e1] self)) with (mode self). rewrite Hmode.
  change (ndim (set_edges [x :: l; e1] self)) with 2.
  cbn [Z.eqb Pos.eqb negb bind ok].
  rewrite (auto_bin_type_general (set_edges [x :: l; e1] self) (rest := [e1])
             (first := x) (last := y) eq_refl eq_refl Hy).
  eexists. reflexivity.
Qed.

Lemma analytic_run_two_arrays_total (self : counter) (e0 e1 : list Q)
    (rest : list (list Q)) (box : list f8) (n : Z) :
  mode self = "smu" \/ mode self = "rppi" ->
  edges self = e0 :: e1 :: rest ->
  boxsize self = Some (BoxArray box) ->
  AnalyticTwoPointCounter.normalization self = ok n ->
  exists W, AnalyticTwoPointCounter.run self = ok (set_wcounts W self).
Proof.
  intros Hmode He Hbox Hn. unfold AnalyticTwoPointCounter.run.
  destruct Hmode as [Hmode | Hmode]; rewrite Hmode, He, Hbox, Hn;
    cbn [String.eqb Ascii.eqb Bool.eqb getitem nth_error bind ok
         AnalyticTwoPointCounter.boxsize_prod];
    eexists; reflexivity.
Qed.

(** The default separation cannot be laid out when the two dimensions have
    different numbers of bins, unless the first has a single bin. *)
Lemma default_sep_not_square (self : counter) (e0 e1 : list Q) :
  edges self = [e0; e1] ->
  e0 <> [] ->
  len e0 - 1 <> len e1 - 1 ->
  len e0 - 1 <> 1 ->
  _set_default_sep self = raise ValueError.
Proof.
  intros He Hne Hshape Hone. unfold _set_default_sep, ndim, shape. rewrite He.
  cbn [getitem nth_error bind ok len List.length Z.of_nat Pos.of_succ_nat
       Z.eqb Pos.eqb map Pos.succ].
  fold (len e0). fold (len e1).
  unfold dim_of.
  destruct (len e0 - 1 <? 0) eqn:E0.
  { apply Z.ltb_lt in E0. unfold len in E0. destruct e0; [congruence |].
    simpl List.length in E0. lia. }
  cbn [bind ok].
  destruct (len e1 - 1 <? 0) eqn:E1; [reflexivity |].
  cbn [bind ok]. apply Z.ltb_ge in E0, E1.
  unfold assign_rows, broadcast_to.
  rewrite length_map, length_map2
    by (rewrite length_drop_first, length_drop_last; reflexivity).
  rewrite length_drop_first.
  destruct (Nat.eqb_spec (List.length e0 - 1) (Z.to_nat (len e1 - 1))) as [Heq | Hneq].
  { exfalso. apply Hshape. unfold len in *. lia. }
  assert (Hlen : List.length (map Fin (map2 (fun a b => ((a + b) / 2)%Q)
                                          (drop_first e0) (drop_last e0)))
                 = (List.length e0 - 1)%nat).
  { rewrite length_map, length_map2
      by (rewrite length_drop_first, length_drop_last; reflexivity).
    apply length_drop_first. }
  destruct (map Fin _) as [| a [| b l]] eqn:Em; try reflexivity.
  exfalso. apply Hone. simpl in Hlen. unfold len. lia.
Qed.

(** The analytic counter with two edge arrays (modes smu and rppi) can only
    be built when both dimensions have the same number of bins, or the
    first a single bin: otherwise [run] fills the counts and the default
    separation then raises [ValueError].  Object numbers are taken up to
    10^9 in absolute value, well inside what a float holds: beyond the float
    range the product of the normalization with the volumes fails first. *)
Theorem analytic_two_arrays_need_square (m : string) (e0 e1 : list Q)
    (box : list f8) (n1' : Z) (n2' : option Z) (los' : string) :
  m = "smu" \/ m = "rppi" ->
  e0 <> [] ->
  In los' ["midpoint"; "endpoint"; "firstpoint"; "x"; "y"; "z"] ->
  Z.abs n1' <= 10 ^ 9 ->
  (forall k, n2' = Some k -> Z.abs k <= 10 ^ 9) ->
  len e0 - 1 <> len e1 - 1 ->
  len e0 - 1 <> 1 ->
  AnalyticTwoPointCounter.__init__ m (EdgesTuple [e0; e1]) (Some (BoxArray box))
    n1' n2' los' = raise ValueError.
Proof.
  intros Hm He Hlos _ _ Hshape Hone.
  rewrite (analytic_init_unfold _ _ _ _ _ Hlos).
  assert (Hmode : str_in (mode (set_mode m blank)) ["smu"; "rppi"] = true).
  { destruct Hm as [-> | ->]; reflexivity. }
  destruct (set_edges_two_arrays e1 (set_mode m blank) He Hmode) as (bt & ->).
  cbn [bind ok].
  match goal with
  | |- context [AnalyticTwoPointCounter.run ?s] =>
      destruct (@analytic_run_two_arrays_total s e0 e1 [] box
                  match n2' with
                  | None => n1' * (n1' - 1)
                  | Some k => n1' * k
                  end) as (W & ->);
        [ exact Hm | reflexivity | reflexivity
        | now apply analytic_normalization_value | ]
  end.
  cbn [bind ok].
  apply (@default_sep_not_square _ e0 e1); [reflexivity | assumption ..].
Qed.

Lemma analytic_two_arrays_need_square_witness :
  AnalyticTwoPointCounter.__init__ "smu" (EdgesTuple [[0; 1; 2; 3]; [0; 1 # 2; 1]]%Q)
    (Some (BoxArray [Fin 10; Fin 10; Fin 10])) 10 None "z" = raise ValueError.
Proof.
  apply analytic_two_arrays_need_square.
  - now left.
  - discriminate.
  - simpl. auto 10.
  - vm_compute. discriminate.
  - discriminate.
  - vm_compute. discriminate.
  - vm_compute. discriminate.
Defined.

(** ** Construction of an unweighted autocorrelation *)

Lemma set_weights_none (wt : option string) (self : counter) :
  In wt [None; Some "auto"] ->
  _set_weights None None wt self =
    ok (set_weights2 None (set_weights1 None (set_weight_type None self))).
Proof.
  intros [<- | [<- | []]]; unfold _set_weights, _set_weight_type;
    cbn [set_weight_type weight_type optstr_in optstr_eqb existsb orb negb
         String.eqb Ascii.eqb Bool.eqb bind ok is_some autocorr];
    destruct (autocorr self); reflexivity.
Qed.

Lemma set_bin_type_total (bt : string) (self : counter) (e0 : list Q)
    (rest : list (list Q)) :
  In (lower bt) ["lin"; "custom"; "auto"] ->
  edges self = e0 :: rest ->
  e0 <> [] ->
  exists bt', _set_bin_type bt self = ok (set_bin_type bt' self).
Proof.
  intros Hbt He Hne. destruct e0 as [| x l]; [congruence |].
  destruct (getlast_total x l) as (y & Hy).
  unfold _set_bin_type.
  change (bin_type (set_bin_type (lower bt) self)) with (lower bt).
  change (edges (set_bin_type (lower bt) self)) with (edges self).
  rewrite He.
  destruct Hbt as [<- | [<- | [<- | []]]];
    cbn [negb str_in existsb String.eqb Ascii.eqb Bool.eqb orb].
  - eexists. reflexivity.
  - eexists. reflexivity.
  - rewrite getitem_0_cons. cbn [bind ok]. rewrite getitem_0_cons. cbn [bind ok].
    rewrite Hy. cbn [bind ok].
    destruct (np_allclose _ _); eexists; reflexivity.
Qed.

Lemma set_edges_one_array_total (e0 : list Q) (bt : string) (self : counter) :
  e0 <> [] ->
  str_in (mode self) ["smu"; "rppi"] = false ->
  In (lower bt) ["lin"; "custom"; "auto"] ->
  exists bt', _set_edges (EdgesArray e0) bt self
              = ok (set_bin_type bt' (set_edges [e0] self)).
Proof.
  intros He Hmode Hbt.
  destruct (@set_bin_type_total bt (set_edges [e0] self) e0 [] Hbt eq_refl He)
    as (bt' & Hbt').
  exists bt'. unfold _set_edges.
  destruct e0 as [| x l]; [congruence |].
  rewrite getitem_0_cons. cbn [bind ok].
  change (mode (set_edges [x :: l] self)) with (mode self). rewrite Hmode.
  cbn [ndim edges set_edges len List.length Z.of_nat Pos.of_succ_nat Z.eqb
       Pos.eqb negb bind ok].
  exact Hbt'.
Qed.

Section Build.

Variable cartesian_to_sky : list parray -> res (list parray).
Variable sky_to_cartesian : list parray -> res (list parray).
Variable py_int : string -> res Z.
Variable run : counter -> res counter.

Let set_positions := _set_positions cartesian_to_sky sky_to_cartesian.
Let check := check_positions cartesian_to_sky sky_to_cartesian.
Let init := __init__ cartesian_to_sky sky_to_cartesian py_int run.

Lemma set_positions_xyz_ok (x y z : parray) (pt : string) (self : counter) :
  String.eqb (mode self) "theta" = false ->
  In (lower pt) ["xyz"; "auto"] ->
  uniform (len (p_data x)) (p_dtype x) [y; z] ->
  set_positions [x; y; z] None pt self =
    ok (set_positions2 [None; None; None]
          (set_autocorr true (set_positions1 [x; y; z] self))).
Proof.
  intros Hmode Hpt Hu.
  assert (Hcheck : set_positions [x; y; z] None pt self =
            (q <- check (set_positions1 [x; y; z] self) "xyz" [x; y; z] ;;
             ok (set_positions2 (repeat None (List.length q))
                   (set_autocorr true
                      (set_positions1 q (set_positions1 [x; y; z] self)))))).
  { unfold set_positions, _set_positions, check.
    destruct Hpt as [<- | [<- | []]]; cbn [String.eqb Ascii.eqb Bool.eqb];
      [| rewrite Hmode]; reflexivity. }
  rewrite Hcheck.
  destruct (check_positions_xyz cartesian_to_sky sky_to_cartesian
              (set_positions1 [x; y; z] self) [x; y; z] Hmode)
    as [[Hok _] | [_ Hshape]].
  - unfold check. rewrite Hok. reflexivity.
  - exfalso. apply Hshape. exists x, y, z. split; [reflexivity |].
    constructor; [split; reflexivity | exact Hu].
Qed.

(** The steps of the constructor, put together. *)
Lemma init_intro (a : init_args) (os : os_state) (nt : Z)
    (s1 s2 s3 s4 s5 s6 s7 : counter) (n : pynum) :
  match a_nthreads a with
  | Some k => ok k
  | None => py_int (omp_num_threads os)
  end = ok nt ->
  set_positions (a_positions1 a) (a_positions2 a) (a_position_type a)
    (set_nthreads (Some nt) (set_mode (a_mode a) blank)) = ok s1 ->
  _set_weights (a_weights1 a) (a_weights2 a) (a_weight_type a) s1 = ok s2 ->
  _set_edges (a_edges a) (a_bin_type a) s2 = ok s3 ->
  _set_los (a_los a) s3 = ok s4 ->
  _set_boxsize (a_boxsize a) s4 = ok s5 ->
  run (set_output_sepavg (a_output_sepavg a) s5) = ok s6 ->
  (if negb (output_sepavg s6) then _set_default_sep s6 else ok s6) = ok s7 ->
  normalization s7 = ok n ->
  fst (init a os) = ok (set_norm (Some n) s7).
Proof.
  unfold init, __init__, set_positions.
  intros Hnt H1 H2 H3 H4 H5 H6 H7 H8.
  assert (Hrest : forall s0 : counter,
            s0 = set_nthreads (Some nt) (set_mode (a_mode a) blank) ->
            (self <- _set_positions cartesian_to_sky sky_to_cartesian
                       (a_positions1 a) (a_positions2 a) (a_position_type a) s0 ;;
             self <- _set_weights (a_weights1 a) (a_weights2 a) (a_weight_type a) self ;;
             self <- _set_edges (a_edges a) (a_bin_type a) self ;;
             self <- _set_los (a_los a) self ;;
             self <- _set_boxsize (a_boxsize a) self ;;
             self <- run (set_output_sepavg (a_output_sepavg a) self) ;;
             self <- (if negb (output_sepavg self) then _set_default_sep self
                      else ok self) ;;
             n <- normalization self ;;
             ok (set_norm (Some n) self)) = ok (set_norm (Some n) s7)).
  { intros s0 ->.
    rewrite H1. cbn [bind ok]. rewrite H2. cbn [bind ok].
    rewrite H3. cbn [bind ok]. rewrite H4. cbn [bind ok].
    rewrite H5. cbn [bind ok]. rewrite H6. cbn [bind ok].
    rewrite H7. cbn [bind ok]. rewrite H8. reflexivity. }
  destruct (a_nthreads a) as [k |].
  - injection Hnt as ->. exact (Hrest _ eq_refl).
  - unfold os_getenv. unfold omp_num_threads in Hnt. cbn [fst].
    rewrite Hnt. cbn [bind ok]. exact (Hrest _ eq_refl).
Qed.

End Build.

Section BuildAuto.

Variable cartesian_to_sky : list parray -> res (list parray).
Variable sky_to_cartesian : list parray -> res (list parray).
Variable py_int : string -> res Z.
Variable run : counter -> res counter.

Let init := __init__ cartesian_to_sky sky_to_cartesian py_int run.

(** The base constructor succeeds on an unweighted autocorrelation: in a
    mode with one edge array and Cartesian positions (any mode but theta,
    smu and rppi), given three position arrays of one length N and one
    element type, no second catalog, no weights, weight type None or
    'auto', a non-empty edge array, an allowed bin type and line of sight,
    a thread number that is given or readable from the environment, and an
    engine whose [run] succeeds and assigns the counts only.  The counter
    it returns keeps the positions and the edges, is an autocorrelation
    without weights, and has norm N * (N - 1). *)
Theorem unweighted_autocorrelation_built (a : init_args) (os : os_state)
    (x y z : parray) (e0 : list Q) :
  ~ In (a_mode a) ["theta"; "smu"; "rppi"] ->
  In (lower (a_position_type a)) ["xyz"; "auto"] ->
  a_positions1 a = [x; y; z] ->
  uniform (len (p_data x)) (p_dtype x) [y; z] ->
  a_positions2 a = None ->
  a_weights1 a = None ->
  a_weights2 a = None ->
  In (a_weight_type a) [None; Some "auto"] ->
  a_edges a = EdgesArray e0 ->
  e0 <> [] ->
  In (lower (a_bin_type a)) ["lin"; "custom"; "auto"] ->
  In (a_los a) ["midpoint"; "endpoint"; "firstpoint"; "x"; "y"; "z"] ->
  (a_nthreads a = None -> exists k, py_int (omp_num_threads os) = ok k) ->
  (forall s, exists w, run s = ok (set_wcounts w s)) ->
  exists c,
    fst (init a os) = ok c
    /\ norm c = Some (PyInt (len (p_data x) * (len (p_data x) - 1)))
    /\ positions1 c = [x; y; z]
    /\ autocorr c = true
    /\ weight_type c = None
    /\ weights1 c = None
    /\ weights2 c = None
    /\ edges c = [e0].
Proof.
  intros Hmode Hpt Hp1 Hu Hp2 Hw1 Hw2 Hwt He Hne Hbt Hlos Hthreads Hrun.
  assert (Htheta : String.eqb (a_mode a) "theta" = false).
  { apply String.eqb_neq. intros E. apply Hmode. simpl. auto. }
  assert (Htwo : str_in (a_mode a) ["smu"; "rppi"] = false).
  { unfold str_in. cbn [existsb].
    destruct (String.eqb_spec (a_mode a) "smu") as [E | _];
      [exfalso; apply Hmode; simpl; auto |].
    destruct (String.eqb_spec (a_mode a) "rppi") as [E | _];
      [exfalso; apply Hmode; simpl; auto |].
    reflexivity. }
  assert (Hnt : exists nt, match a_nthreads a with
                           | Some k => ok k
                           | None => py_int (omp_num_threads os)
                           end = ok nt).
  { destruct (a_nthreads a) as [k |]; [now exists k | now apply Hthreads]. }
  destruct Hnt as (nt & Hnt).
  pose (s0 := set_nthreads (Some nt) (set_mode (a_mode a) blank)).
  pose (s1 := set_positions2 [None; None; None]
                (set_autocorr true (set_positions1 [x; y; z] s0))).
  pose (s2 := set_weights2 None (set_weights1 None (set_weight_type None s1))).
  assert (H1 : _set_positions cartesian_to_sky sky_to_cartesian
                 (a_positions1 a) (a_positions2 a) (a_position_type a) s0 = ok s1).
  { rewrite Hp1, Hp2. now apply set_positions_xyz_ok. }
  assert (H2 : _set_weights (a_weights1 a) (a_weights2 a) (a_weight_type a) s1 = ok s2).
  { rewrite Hw1, Hw2. now apply set_weights_none. }
  destruct (@set_edges_one_array_total e0 (a_bin_type a) s2 Hne Htwo Hbt)
    as (bt' & H3).
  rewrite <- He in H3.
  pose (s3 := set_bin_type bt' (set_edges [e0] s2)).
  pose proof (@set_los_allowed (a_los a) s3 Hlos) as H4.
  pose (s4 := set_los (a_los a) s3).
  pose proof (set_boxsize_total (a_boxsize a) s4) as H5.
  pose (s5 := set_boxsize match a_boxsize a with
                          | Some v => Some v
                          | None => Some (BoxArray [NonFin; NonFin; NonFin])
                          end s4).
  destruct (Hrun (set_output_sepavg (a_output_sepavg a) s5)) as (w & H6).
  pose (s6 := set_wcounts w (set_output_sepavg (a_output_sepavg a) s5)).
  assert (H7 : exists s7,
             (if negb (output_sepavg s6) then _set_default_sep s6 else ok s6) = ok s7
             /\ exists v, s7 = set_sep v s6).
  { change (output_sepavg s6) with (a_output_sepavg a).
    destruct (a_output_sepavg a); cbn [negb].
    - exists s6. split; [reflexivity |]. exists (sep s6). reflexivity.
    - destruct (@default_sep_one_dimensional s6 e0 eq_refl) as (v & Hv & _).
      exists (set_sep (Arr1 v) s6). split; [exact Hv |]. now exists (Arr1 v). }
  destruct H7 as (s7 & H7 & v & Hs7).
  assert (H8 : normalization s7
               = ok (PyInt (len (p_data x) * (len (p_data x) - 1)))).
  { rewrite Hs7. reflexivity. }
  exists (set_norm (Some (PyInt (len (p_data x) * (len (p_data x) - 1)))) s7).
  split.
  - exact (@init_intro cartesian_to_sky sky_to_cartesian py_int run a os nt
             s1 s2 s3 s4 s5 s6 s7 _ Hnt H1 H2 H3 H4 H5 H6 H7 H8).
  - rewrite Hs7. split; [reflexivity |]. split; [reflexivity |].
    split; [reflexivity |]. split; [reflexivity |]. split; [reflexivity |].
    split; reflexivity.
Qed.

End BuildAuto.

Lemma unweighted_autocorrelation_built_witness :
  let p := {| p_dtype := "f8"; p_data := [0; 1; 2; 3]%Q |} in
  let a := default_args "s" (EdgesArray [1; 2; 3]%Q) [p; p; p] in
  let os := {| environ := fun _ => None; getenv_calls := [] |} in
  exists c,
    fst (__init__ (fun p => ok p) (fun p => ok p) read_decimal
           (fun s => ok (set_wcounts (Arr1 [Fin 2; Fin 4]) s)) a os) = ok c
    /\ norm c = Some (PyInt 12)
    /\ autocorr c = true.
Proof.
  intros p a os.
  destruct (@unweighted_autocorrelation_built (fun p => ok p) (fun p => ok p)
              read_decimal (fun s => ok (set_wcounts (Arr1 [Fin 2; Fin 4]) s))
              a os p p p [1; 2; 3]%Q)
    as (c & Hc & Hnorm & _ & Hauto & _).
  - simpl. intros [H | [H | [H | []]]]; discriminate H.
  - simpl. auto.
  - reflexivity.
  - repeat constructor.
  - reflexivity.
  - reflexivity.
  - reflexivity.
  - simpl. auto.
  - reflexivity.
  - discriminate.
  - simpl. auto.
  - simpl. auto.
  - intros _. exists 1. reflexivity.
  - intros s. eexists. reflexivity.
  - exists c. split; [exact Hc | split; [exact Hnorm | exact Hauto]].
Defined.

(** ** Normalized counts of a constructed counter *)

Lemma div_by_zero_nonfinite (n : pynum) (w : ndarray) :
  f8_eq (f8_of_pynum n) (Fin 0) ->
  all_nonfinite (nd_map (fun x => f8_div x (f8_of_pynum n)) w).
Proof.
  intros Hz.
  assert (Hdiv : forall x, f8_div x (f8_of_pynum n) = NonFin).
  { intros x. destruct (f8_of_pynum n) as [q |]; [| contradiction].
    cbn [f8_eq] in Hz. apply Qeq_bool_iff in Hz.
    destruct x; cbn [f8_div]; [now rewrite Hz | reflexivity]. }
  destruct w as [v | m]; cbn [nd_map all_nonfinite].
  - apply Forall_forall. intros x Hx.
    apply in_map_iff in Hx as (y & <- & _). apply Hdiv.
  - apply Forall_forall. intros r Hr.
    apply in_map_iff in Hr as (r' & <- & _).
    apply Forall_forall. intros x Hx.
    apply in_map_iff in Hx as (y & <- & _). apply Hdiv.
Qed.

Section Normalized.

Variable cartesian_to_sky : list parray -> res (list parray).
Variable sky_to_cartesian : list parray -> res (list parray).
Variable py_int : string -> res Z.
Variable run : counter -> res counter.

Let init := __init__ cartesian_to_sky sky_to_cartesian py_int run.

(** On every counter the base constructor returns, [normalized_wcounts]
    returns an array and raises nothing: each count divided by the value
    [normalization] has on that counter.  When that value is zero, as for
    an unweighted autocorrelation of a single object, no exception is
    raised either and every entry of the result is inf or nan. *)
Theorem normalized_wcounts_constructed (a : init_args) (os : os_state)
    (c : counter) :
  fst (init a os) = ok c ->
  exists n,
    normalization c = ok n
    /\ normalized_wcounts c
       = ok (nd_map (fun w => f8_div w (f8_of_pynum n)) (wcounts c))
    /\ (f8_eq (f8_of_pynum n) (Fin 0) ->
        all_nonfinite (nd_map (fun w => f8_div w (f8_of_pynum n)) (wcounts c))).
Proof.
  intros H.
  destruct (constructed_norm cartesian_to_sky sky_to_cartesian py_int run a os H)
    as (n & Hn & Hnorm).
  exists n. split; [exact Hn |]. split.
  - unfold normalized_wcounts. now rewrite Hnorm.
  - apply div_by_zero_nonfinite.
Qed.

End Normalized.

Lemma normalized_wcounts_constructed_witness :
  let p := {| p_dtype := "f8"; p_data := [5]%Q |} in
  let a := default_args "s" (EdgesArray [1; 2; 3]%Q) [p; p; p] in
  let os := {| environ := fun _ => None; getenv_calls := [] |} in
  exists c,
    fst (__init__ (fun p => ok p) (fun p => ok p) read_decimal
           (fun s => ok (set_wcounts (Arr1 [Fin 0; Fin 0]) s)) a os) = ok c
    /\ normalization c = ok (PyInt 0)
    /\ normalized_wcounts c = ok (Arr1 [NonFin; NonFin]).
Proof.
  intros p a os.
  assert (Hbuilt : exists c,
            fst (__init__ (fun p => ok p) (fun p => ok p) read_decimal
                   (fun s => ok (set_wcounts (Arr1 [Fin 0; Fin 0]) s)) a os) = ok c
            /\ normalization c = ok (PyInt 0)
            /\ wcounts c = Arr1 [Fin 0; Fin 0]).
  { eexists. split; [vm_compute; reflexivity |].
    split; vm_compute; reflexivity. }
  destruct Hbuilt as (c & Hc & Hn0 & Hw).
  destruct (@normalized_wcounts_constructed (fun p => ok p) (fun p => ok p)
              read_decimal (fun s => ok (set_wcounts (Arr1 [Fin 0; Fin 0]) s))
              a os c Hc) as (n & Hn & Hdiv & _).
  exists c. split; [exact Hc |]. split; [exact Hn0 |].
  rewrite Hdiv, Hw.
  rewrite Hn0 in Hn. injection Hn as <-. reflexivity.
Defined.

(** ** Rebinning: what makes it fail *)

Lemma floordiv_zip_zero (s f : list Z) :
  List.length s = List.length f ->
  In 0 f ->
  floordiv_zip s f = raise ZeroDivisionError.
Proof.
  revert f. induction s as [| x s IH]; intros [| y f] Hlen Hin;
    simpl in *; try contradiction; try discriminate.
  destruct (y =? 0) eqn:E; [reflexivity |].
  apply Z.eqb_neq in E.
  destruct Hin as [H0 | Hin]; [congruence |].
  rewrite IH; [reflexivity | congruence | exact Hin].
Qed.

Lemma vec_op_mismatch (op : f8 -> f8 -> f8) (a b : list f8) :
  List.length a <> List.length b ->
  List.length a <> 1%nat ->
  List.length b <> 1%nat ->
  vec_op op a b = raise ValueError.
Proof.
  intros Hab Ha Hb. unfold vec_op.
  destruct (Nat.eqb_spec (List.length a) (List.length b)) as [E | _];
    [contradiction |].
  destruct a as [| x [| x' a]]; destruct b as [| y [| y' b]];
    simpl in *; congruence.
Qed.

Section RebinFailures.

Variable utils_rebin : ndarray -> res ndarray.

(** [rebin] fails in three ways, whatever [utils.rebin] does.  A number of
    factors other than the number of edge arrays gives [PairCounterError],
    and so does a single integer on a counter with two edge arrays.  A zero
    among the right number of factors gives [ZeroDivisionError] before
    anything is rebinned.  With valid factors on one-dimensional arrays, as
    soon as [utils.rebin] returns counts of another length than [sep]
    (neither being of length one), the product of [sep] with the new counts
    raises [ValueError]: the separations are weighted by the counts already
    rebinned. *)
Theorem rebin_failures (self : counter) (f : list Z) :
  (len f <> ndim self ->
     rebin utils_rebin (FactorTuple f) self
     = raise (PairCounterError "Provide a rebinning factor for each dimension"))
  /\ (forall k, ndim self <> 1 ->
        rebin utils_rebin (FactorInt k) self
        = raise (PairCounterError "Provide a rebinning factor for each dimension"))
  /\ (len f = ndim self -> In 0 f ->
        rebin utils_rebin (FactorTuple f) self = raise ZeroDivisionError)
  /\ (forall s w',
        len f = ndim self -> ~ In 0 f ->
        sep self = Arr1 s ->
        utils_rebin (wcounts self) = ok (Arr1 w') ->
        List.length w' <> List.length s ->
        List.length w' <> 1%nat ->
        List.length s <> 1%nat ->
        rebin utils_rebin (FactorTuple f) self = raise ValueError).
Proof.
  split; [| split; [| split]].
  - intros Hlen. unfold rebin.
    destruct (Z.eqb_spec (len f) (ndim self)) as [E | _]; [contradiction |].
    reflexivity.
  - intros k Hdim. unfold rebin.
    destruct (Z.eqb_spec (len [k]) (ndim self)) as [E | _];
      [exfalso; apply Hdim; rewrite <- E; reflexivity |].
    reflexivity.
  - intros Hlen Hzero. unfold rebin.
    rewrite Hlen, Z.eqb_refl. cbn [negb].
    rewrite floordiv_zip_zero; [reflexivity | | exact Hzero].
    unfold shape, ndim, len in *. rewrite length_map. lia.
  - intros s w' Hlen Hzero Hsep Hrebin Hne Hw Hs. unfold rebin.
    rewrite Hlen, Z.eqb_refl. cbn [negb].
    destruct (@floordiv_zip_total (shape self) f Hzero) as (r & ->).
    cbn [bind ok]. rewrite Hrebin. cbn [bind ok].
    change (sep (set_wcounts (Arr1 w') self)) with (sep self).
    change (wcounts (set_wcounts (Arr1 w') self)) with (Arr1 w').
    rewrite Hsep. cbn [nd_op].
    rewrite vec_op_mismatch by congruence. reflexivity.
Qed.

End RebinFailures.

Lemma rebin_failures_witness :
  let self :=
    set_sep (Arr1 [Fin (1 # 2); Fin (3 # 2); Fin (5 # 2); Fin (7 # 2)])
      (set_wcounts (Arr1 [Fin 1; Fin 2; Fin 3; Fin 4])
         (set_edges [[0; 1; 2; 3; 4]%Q] (set_mode "s" blank))) in
  let merge_pairs (a : ndarray) := ok (Arr1 [Fin 3; Fin 7]) in
  rebin merge_pairs (FactorTuple [2; 2]) self
  = raise (PairCounterError "Provide a rebinning factor for each dimension")
  /\ rebin merge_pairs (FactorTuple [0]) self = raise ZeroDivisionError
  /\ rebin merge_pairs (FactorTuple [2]) self = raise ValueError.
Proof.
  intros self merge_pairs.
  split; [| split].
  - apply (proj1 (@rebin_failures merge_pairs self [2; 2])).
    vm_compute. discriminate.
  - apply (proj1 (proj2 (proj2 (@rebin_failures merge_pairs self [0])))).
    + reflexivity.
    + simpl. auto.
  - apply (proj2 (proj2 (proj2 (@rebin_failures merge_pairs self [2])))
             [Fin (1 # 2); Fin (3 # 2); Fin (5 # 2); Fin (7 # 2)] [Fin 3; Fin 7]).
    + reflexivity.
    + simpl. intros [H | []]. discriminate H.
    + reflexivity.
    + reflexivity.
    + simpl. discriminate.
    + simpl. discriminate.
    + simpl. discriminate.
Defined.

(** ** Default separation of one edge array *)

Lemma nth_error_map2_shift {A B : Type} (f : A -> A -> B) (e : list A)
    (i : nat) (lo hi : A) :
  nth_error e i = Some lo ->
  nth_error e (S i) = Some hi ->
  nth_error (map2 f (drop_first e) (drop_last e)) i = Some (f hi lo).
Proof.
  revert i. induction e as [| x l IH]; intros i Hlo Hhi; [now destruct i |].
  destruct l as [| y l']; [now destruct i |].
  change (drop_first (x :: y :: l')) with (y :: l').
  change (drop_last (x :: y :: l')) with (x :: drop_last (y :: l')).
  cbn [map2]. destruct i as [| j].
  - simpl in Hlo, Hhi. injection Hlo as <-. injection Hhi as <-. reflexivity.
  - cbn [nth_error]. apply (IH j); assumption.
Qed.

Lemma midpoint_within (lo hi : Q) :
  (lo <= hi)%Q -> (lo <= (hi + lo) / 2 <= hi)%Q.
Proof.
  intros H. unfold Qdiv. change (/ 2)%Q with (1 # 2)%Q. split; lra.
Qed.

(** With one edge array [_set_default_sep] always succeeds and stores one
    separation per bin: entry i is the mean of edges i and i+1, so it lies
    inside its bin whenever the two edges are in order. *)
Theorem default_sep_within_bins (self : counter) (e0 : list Q) :
  edges self = [e0] ->
  exists v,
    _set_default_sep self = ok (set_sep (Arr1 (map Fin v)) self)
    /\ List.length v = (List.length e0 - 1)%nat
    /\ forall i lo hi,
         nth_error e0 i = Some lo ->
         nth_error e0 (S i) = Some hi ->
         exists m, nth_error v i = Some m
                   /\ (m == (lo + hi) / 2)%Q
                   /\ ((lo <= hi)%Q -> (lo <= m <= hi)%Q).
Proof.
  intros He.
  exists (map2 (fun a b => ((a + b) / 2)%Q) (drop_first e0) (drop_last e0)).
  split; [| split].
  - unfold _set_default_sep, ndim. rewrite He, getitem_0_cons. reflexivity.
  - rewrite length_map2 by (rewrite length_drop_first, length_drop_last; reflexivity).
    apply length_drop_first.
  - intros i lo hi Hlo Hhi. exists ((hi + lo) / 2)%Q. split; [| split].
    + apply (nth_error_map2_shift (fun a b => ((a + b) / 2)%Q) e0 i Hlo Hhi).
    + unfold Qdiv. apply Qmult_comp; [apply Qplus_comm | reflexivity].
    + apply midpoint_within.
Qed.

Lemma default_sep_within_bins_witness :
  let self := set_edges [[0; 1; 3]%Q] (set_mode "s" blank) in
  exists v,
    _set_default_sep self = ok (set_sep (Arr1 (map Fin v)) self)
    /\ List.length v = 2%nat
    /\ exists m, nth_error v 1 = Some m /\ (m == 2)%Q /\ (1 <= m <= 3)%Q.
Proof.
  intros self.
  destruct (@default_sep_within_bins self [0; 1; 3]%Q eq_refl)
    as (v & Hv & Hlen & Hbins).
  exists v. split; [exact Hv |]. split; [exact Hlen |].
  destruct (Hbins 1%nat 1%Q 3%Q eq_refl eq_refl) as (m & Hm & Hmid & Hin).
  exists m. split; [exact Hm |]. split.
  - rewrite Hmid. reflexivity.
  - apply Hin. discriminate.
Defined.

(** ** Helpers of the jackknife test *)

Import test_twopoint_jackknife.

Lemma Qeq_bool_inject_Z (d : Z) : d <> 0 -> Qeq_bool (inject_Z d) 0 = false.
Proof.
  intros Hd. destruct (Qeq_bool (inject_Z d) 0) eqn:E; [| reflexivity].
  apply Qeq_bool_iff in E. unfold Qeq in E. simpl in E. lia.
Qed.

Section WiipEntries.

Variable popcount : list (list Z) -> list Z.

(** [wiip] returns one weight per object and never divides by zero: where
    [noffset] plus the number of set bits is zero the weight is
    [default_value], elsewhere it is [nrealizations] over that sum, which is
    not zero. *)
Theorem wiip_entries (noffset nrealizations : Z) (default_value : Q)
    (weights : list (list Z)) :
  Forall2 (fun p t =>
             if noffset + p =? 0 then t = Fin default_value
             else noffset + p <> 0
                  /\ t = Fin (inject_Z nrealizations / inject_Z (noffset + p)))
          (popcount weights)
          (wiip popcount noffset nrealizations default_value weights).
Proof.
  unfold wiip. generalize (popcount weights) as l.
  induction l as [| p l IH]; [constructor |].
  cbn [map map2].
  destruct (noffset + p =? 0) eqn:E.
  - constructor; [| exact IH]. rewrite E. reflexivity.
  - apply Z.eqb_neq in E as E'. cbn [f8_div].
    rewrite (Qeq_bool_inject_Z E').
    constructor; [| exact IH]. rewrite E. split; [exact E' | reflexivity].
Qed.

End WiipEntries.

Lemma dict_get_set_same (d : pydict) (k : string) (v : option Q) :
  dict_get (dict_set d k v) k = Some v.
Proof.
  induction d as [| [k' x] d IH]; simpl.
  - now rewrite String.eqb_refl.
  - destruct (String.eqb k' k) eqn:E; simpl; rewrite E; [reflexivity | exact IH].
Qed.

Lemma dict_get_set_other (d : pydict) (k k' : string) (v : option Q) :
  k <> k' -> dict_get (dict_set d k v) k' = dict_get d k'.
Proof.
  intros Hk. induction d as [| [k0 x] d IH]; simpl.
  - apply String.eqb_neq in Hk. now rewrite Hk.
  - destruct (String.eqb k0 k) eqn:E; simpl.
    + apply String.eqb_eq in E. subst k0.
      apply String.eqb_neq in Hk. now rewrite Hk.
    + destruct (String.eqb k0 k'); [reflexivity | exact IH].
Qed.

Lemma setdefaultnone_same (d : pydict) (k : string) (v : Q) :
  dict_get (setdefaultnone d k (Some v)) k =
    match dict_get d k with
    | Some (Some x) => Some (Some x)
    | _ => Some (Some v)
    end.
Proof.
  unfold setdefaultnone.
  destruct (dict_get d k) as [[x |] |] eqn:E;
    [exact E | apply dict_get_set_same ..].
Qed.

Lemma setdefaultnone_other (d : pydict) (k k' : string) (v : option Q) :
  k <> k' -> dict_get (setdefaultnone d k v) k' = dict_get d k'.
Proof.
  intros Hk. unfold setdefaultnone.
  destruct (dict_get d k) as [[x |] |];
    [reflexivity | now apply dict_get_set_other ..].
Qed.

(** After the three calls of [setdefaultnone] the entries nrealizations,
    noffset and default_value all hold a number: an entry that held a number
    keeps it, an entry that was missing or None gets its default
    (64 * n_bitwise_weights + 1, 1 and 0), and no other entry changes.  The
    flag [set_default_value] tells whether default_value was a key of the
    dict before, be it with the value None. *)
Theorem weight_attrs_defaults_complete (d : pydict) (n_bitwise_weights : Z) :
  let d' := fst (weight_attrs_defaults d n_bitwise_weights) in
  let default_of key :=
    if String.eqb key "nrealizations" then inject_Z (n_bitwise_weights * 64 + 1)
    else if String.eqb key "noffset" then 1%Q else 0%Q in
  (forall key, In key ["nrealizations"; "noffset"; "default_value"] ->
     dict_get d' key = match dict_get d key with
                       | Some (Some x) => Some (Some x)
                       | _ => Some (Some (default_of key))
                       end)
  /\ (forall key, ~ In key ["nrealizations"; "noffset"; "default_value"] ->
        dict_get d' key = dict_get d key)
  /\ snd (weight_attrs_defaults d n_bitwise_weights)
     = is_some (dict_get d "default_value").
Proof.
  intros d' default_of. subst d'. unfold weight_attrs_defaults. cbn [fst snd].
  split; [| split].
  - intros key [<- | [<- | [<- | []]]]; subst default_of; cbv beta;
      cbn [String.eqb Ascii.eqb Bool.eqb].
    + rewrite !setdefaultnone_other by discriminate.
      apply setdefaultnone_same.
    + rewrite setdefaultnone_other by discriminate.
      rewrite setdefaultnone_same.
      now rewrite setdefaultnone_other by discriminate.
    + rewrite setdefaultnone_same.
      now rewrite !setdefaultnone_other by discriminate.
  - intros key Hkey.
    rewrite !setdefaultnone_other; [reflexivity | |  |];
      intros <-; apply Hkey; simpl; auto.
  - unfold dict_mem. now rewrite !setdefaultnone_other by discriminate.
Qed.

Lemma weight_attrs_defaults_complete_witness :
  let d := [("noffset", Some 3%Q); ("default_value", None)] in
  let d' := fst (weight_attrs_defaults d 2) in
  dict_get d' "nrealizations" = Some (Some 129%Q)
  /\ dict_get d' "noffset" = Some (Some 3%Q)
  /\ dict_get d' "default_value" = Some (Some 0%Q)
  /\ snd (weight_attrs_defaults d 2) = true.
Proof.
  intros d d'.
  destruct (weight_attrs_defaults_complete d 2) as (Hkeys & _ & Hflag).
  split; [| split; [| split]].
  - exact (Hkeys "nrealizations" (or_introl eq_refl)).
  - exact (Hkeys "noffset" (or_intror (or_introl eq_refl))).
  - exact (Hkeys "default_value" (or_intror (or_intror (or_introl eq_refl)))).
  - exact Hflag.
Defined.

(** ** Angular positions *)

Section Theta.

Variable cartesian_to_sky : list parray -> res (list parray).
Variable sky_to_cartesian : list parray -> res (list parray).

Let set_positions := _set_positions cartesian_to_sky sky_to_cartesian.

(** In mode theta with one catalog: position type 'rdz' keeps the first two
    arrays and drops the others without looking at them; 'rd' and 'auto'
    store exactly two arrays unchanged and raise [PairCounterError] for any
    other number; a position type other than xyz, rdz, rd and auto raises
    [PairCounterError] whatever the positions.  Letter case is ignored. *)
Theorem set_positions_theta (self : counter) (pt : string) :
  mode self = "theta" ->
  (forall r d rest,
     lower pt = "rdz" ->
     uniform (len (p_data r)) (p_dtype r) [d] ->
     set_positions (r :: d :: rest) None pt self =
       ok (set_positions2 [None; None]
             (set_autocorr true (set_positions1 [r; d] self))))
  /\ (forall p1,
        In (lower pt) ["rd"; "auto"] ->
        ((exists r d, p1 = [r; d] /\ uniform (len (p_data r)) (p_dtype r) [d]) ->
           set_positions p1 None pt self =
             ok (set_positions2 [None; None]
                   (set_autocorr true (set_positions1 p1 self))))
        /\ (len p1 <> 2 ->
            is_PairCounterError (set_positions p1 None pt self) = true))
  /\ (forall p1,
        ~ In (lower pt) ["xyz"; "rdz"; "rd"; "auto"] ->
        is_PairCounterError (set_positions p1 None pt self) = true).
Proof.
  intros Hmode. split; [| split].
  - intros r d rest Hpt Hu.
    unfold set_positions, _set_positions, check_positions.
    rewrite Hpt.
    change (mode (set_positions1 (r :: d :: rest) self)) with (mode self).
    rewrite Hmode.
    cbn [String.eqb Ascii.eqb Bool.eqb negb firstn bind ok len List.length
         Z.of_nat Pos.of_succ_nat Pos.succ Z.eqb Pos.eqb getitem nth_error
         drop_first tl positions1 set_positions1].
    apply check_same_iff in Hu. rewrite Hu. reflexivity.
  - intros p1 Hpt.
    assert (Hcheck : set_positions p1 None pt self =
              (q <- (if negb (len p1 =? 2) then
                       raise (PairCounterError
                         ("For mode = " ++ "theta"
                          ++ ", please provide a list of 2 arrays for positions"))
                     else ok p1) ;;
               p0 <- getitem q 0 ;;
               check_same (len (p_data p0)) (p_dtype p0) (drop_first q) ;;;
               ok (set_positions2 (repeat None (List.length q))
                     (set_autocorr true
                        (set_positions1 q (set_positions1 p1 self)))))).
    { unfold set_positions, _set_positions, check_positions.
      change (mode (set_positions1 p1 self)) with (mode self).
      rewrite Hmode.
      destruct Hpt as [<- | [<- | []]];
        cbn [String.eqb Ascii.eqb Bool.eqb negb bind ok positions1 set_positions1];
        destruct (negb (len p1 =? 2)); cbn [bind ok]; try reflexivity;
        destruct (getitem p1 0) as [e | p0]; cbn [bind ok]; try reflexivity;
        destruct (check_same _ _ _) as [e | []]; reflexivity. }
    rewrite Hcheck. split.
    + intros (r & d & -> & Hu).
      cbn [len List.length Z.of_nat Pos.of_succ_nat Pos.succ Z.eqb Pos.eqb negb
           bind ok getitem nth_error drop_first tl].
      apply check_same_iff in Hu. rewrite Hu. reflexivity.
    + intros Hlen.
      destruct (Z.eqb_spec (len p1) 2) as [E | _]; [contradiction |].
      reflexivity.
  - intros p1 Hpt.
    unfold set_positions, _set_positions, check_positions.
    change (mode (set_positions1 p1 self)) with (mode self).
    rewrite Hmode.
    destruct (String.eqb_spec (lower pt) "auto") as [E | _];
      [exfalso; apply Hpt; rewrite E; simpl; auto |].
    destruct (String.eqb_spec (lower pt) "xyz") as [E | _];
      [exfalso; apply Hpt; rewrite E; simpl; auto |].
    destruct (String.eqb_spec (lower pt) "rdz") as [E | _];
      [exfalso; apply Hpt; rewrite E; simpl; auto |].
    destruct (String.eqb_spec (lower pt) "rd") as [E | _];
      [exfalso; apply Hpt; rewrite E; simpl; auto |].
    reflexivity.
Qed.

End Theta.

Lemma set_positions_theta_witness :
  let r := {| p_dtype := "f8"; p_data := [10; 20]%Q |} in
  let d := {| p_dtype := "f8"; p_data := [-5; 5]%Q |} in
  let z := {| p_dtype := "f4"; p_data := [1]%Q |} in
  let self := set_mode "theta" blank in
  _set_positions (fun p => ok p) (fun p => ok p) [r; d; z] None "RDZ" self
  = ok (set_positions2 [None; None]
          (set_autocorr true (set_positions1 [r; d] self)))
  /\ is_PairCounterError
       (_set_positions (fun p => ok p) (fun p => ok p) [r; d; z] None "rd" self) = true
  /\ is_PairCounterError
       (_set_positions (fun p => ok p) (fun p => ok p) [r; d] None "rdd" self) = true.
Proof.
  intros r d z self.
  destruct (@set_positions_theta (fun p => ok p) (fun p => ok p) self "RDZ" eq_refl)
    as (Hrdz & _ & _).
  destruct (@set_positions_theta (fun p => ok p) (fun p => ok p) self "rd" eq_refl)
    as (_ & Hrd & _).
  destruct (@set_positions_theta (fun p => ok p) (fun p => ok p) self "rdd" eq_refl)
    as (_ & _ & Hother).
  split; [| split].
  - apply Hrdz; [reflexivity | repeat constructor].
  - apply (Hrd [r; d; z]); [simpl; auto | vm_compute; discriminate].
  - apply Hother. simpl. intros [H | [H | [H | [H | []]]]]; discriminate H.
Defined.

Lemma set_weights_pair_product_without_weights_witness :
  let p := {| p_dtype := "f8"; p_data := [0; 1]%Q |} in
  _set_weights None None (Some "pair_product")
    (set_autocorr true (set_positions1 [p; p; p] blank)) = raise TypeError.
Proof.
  intros p.
  apply (@set_weights_pair_product_without_weights
           (set_autocorr true (set_positions1 [p; p; p] blank)) p [p; p] eq_refl).
Defined.

(** ** Rebinning: conservation of the counts *)










(** ** Rebinning: the factor *)

(** The factors reach the outcome of [rebin] only through their number and
    through whether one of them is zero: [new_shape] is computed from them
    and never used, so two tuples of as many non-zero factors give the same
    result, whatever [utils.rebin] does. *)
Theorem rebin_factor_unused (utils_rebin : ndarray -> res ndarray)
    (self : counter) (f g : list Z) :
  List.length f = List.length g ->
  ~ In 0 f ->
  ~ In 0 g ->
  rebin utils_rebin (FactorTuple f) self = rebin utils_rebin (FactorTuple g) self.
Proof. apply rebin_ignores_factor. Qed.

Lemma rebin_factor_unused_witness :
  let self :=
    set_sep (Arr1 [Fin (1 # 2); Fin (3 # 2); Fin (5 # 2); Fin (7 # 2)])
      (set_wcounts (Arr1 [Fin 1; Fin 2; Fin 3; Fin 4])
         (set_edges [[0; 1; 2; 3; 4]%Q] (set_mode "s" blank))) in
  rebin merge_pairs (FactorTuple [4]) self = rebin merge_pairs (FactorTuple [1]) self.
Proof.
  intros self.
  apply (@rebin_factor_unused merge_pairs self [4] [1] eq_refl).
  - simpl. intros [H | []]. discriminate H.
  - simpl. intros [H | []]. discriminate H.
Defined.
